(** * A shallow embedding of the bedlam interpreter (src/interpret.py)

    The Python interpreter manipulates plain Python objects: AST nodes are
    dicts with the keys ['type'], ['value'] and ['location'], runtime values
    are ints, floats, strings, booleans, None, lists, dicts and functions,
    and scopes are mutable dicts chained through context dicts.

    The embedding follows that representation:
    - [value] is the universe of Python objects the interpreter can see;
      nodes are [VDict]s, exactly as the parser (src/parse.py) builds them;
    - the Python functions created at run time are defunctionalised: the
      closure [f] built by [fn_fn] is [VClosure], the closure built by
      [fn_partial] is [VPartial], and the registered builtins are
      [VBuiltin name]; every closure carries an identity stamp, because
      Python compares functions by identity;
    - scope dicts live in a heap of frames (they are mutated in place by
      [defn] and by [interpret]); a context is the list of the addresses of
      its scopes, innermost first (the ['parent'] chain);
    - exceptions are a result type threaded through a state monad; Python
      keeps the mutations made before an exception, and so does the model;
    - recursion is bounded by fuel ([OutOfFuel] stands for running out of
      host stack). *)

From Stdlib Require Import ZArith String List Bool Lia Floats.
Import ListNotations.
Open Scope string_scope.
Set Warnings "-register-all".

(** ** Python objects *)

Inductive value : Type :=
| VNone
| VBool (b : bool)
| VInt (z : Z)
| VFloat (f : float)
| VStr (s : string)
| VList (xs : list value)
| VDict (kvs : list (value * value))
(** a builtin of [_builtins], named by its registry key *)
| VBuiltin (name : string)
(** the function [f] returned by [fn_fn]: it closes over [params],
    [body], the defining [node] and the defining [context] *)
| VClosure (id : nat) (params body node : value) (context : list nat)
(** the function [f] returned by [fn_partial]: it closes over [node],
    [name], the fixed [args] and the defining [context] *)
| VPartial (id : nat) (node name : value) (args : list value) (context : list nat).

Definition dict := list (value * value).

(** Errors the Python host raises by itself (not [InterpeterError]).
    [Unmodelled] marks host behaviour this embedding does not reproduce
    (formatting floats, lists, dicts and functions with [str], and true
    division of integers beyond 2^53); no claim depends on it. *)
Inductive host_error : Type :=
| TypeError | KeyError | IndexError | ValueError | UnboundLocalError
| AttributeError | OverflowError | ZeroDivisionError | Unmodelled.

(** The message of an [InterpeterError], one constructor per [raise]. *)
Inductive ierr : Type :=
| ArityError                  (** "Incorrect number of arguments passed" *)
| UnresolvedName (n : value)  (** "Unable to resolve name ..." *)
| NotCallable (n : value)     (** "... is not a function" *)
| InvalidParameter (p : value) (** "Invalid function parameter ..." *)
| OnlyOneRest                 (** "Only one rest argument should be defined" *)
| CaseFailed                  (** "Case failed to match" *)
| DivisionByZero              (** "Division by zero" *)
| NthNonVector                (** "Can't get index of non-vector" *)
| SliceNonVector.             (** "Can't get slice of non-vector" *)

Inductive exn : Type :=
(** [InterpeterError(message, node)]: the message and the node's
    ['location']['line'] and ['location']['column'] *)
| InterpeterError (k : ierr) (line column : value)
| InterpreterReturn (v : value)
| HostError (e : host_error).

Inductive result (A : Type) : Type :=
| Ok (a : A)
| Raise (e : exn)
| OutOfFuel.
Arguments Ok {A} a.
Arguments Raise {A} e.
Arguments OutOfFuel {A}.

Definition rbind {A B} (r : result A) (k : A -> result B) : result B :=
  match r with
  | Ok a => k a
  | Raise e => Raise e
  | OutOfFuel => OutOfFuel
  end.

Definition host {A} (e : host_error) : result A := Raise (HostError e).

(** ** Python semantics of the primitive operations *)

Definition num_of (v : value) : option (Z + float) :=
  match v with
  | VBool b => Some (inl (if b then 1 else 0)%Z)
  | VInt z => Some (inl z)
  | VFloat f => Some (inr f)
  | _ => None
  end.

(** exact comparison of an int with a float, as CPython does it *)
Definition cmp_Z_float (z : Z) (f : float) : option comparison :=
  match Prim2SF f with
  | S754_zero _ => Some (Z.compare z 0)
  | S754_infinity s => Some (if s then Gt else Lt)
  | S754_nan => None
  | S754_finite s m e =>
      let mz := if s then Z.neg m else Z.pos m in
      if (0 <=? e)%Z then Some (Z.compare z (mz * 2 ^ e))
      else Some (Z.compare (z * 2 ^ (- e)) mz)
  end.

Definition num_cmp (a b : Z + float) : option comparison :=
  match a, b with
  | inl x, inl y => Some (Z.compare x y)
  | inl x, inr g => cmp_Z_float x g
  | inr f, inl y => option_map CompOpp (cmp_Z_float y f)
  | inr f, inr g =>
      match PrimFloat.compare f g with
      | FEq => Some Eq
      | FLt => Some Lt
      | FGt => Some Gt
      | FNotComparable => None
      end
  end.

(** [==]: structural on data (numbers compared exactly across int, bool
    and float), identity on functions.  The identity shortcut CPython
    takes inside containers only matters for NaN and is not modelled. *)
Fixpoint py_eq (x y : value) {struct x} : bool :=
  match x, y with
  | VNone, VNone => true
  | VStr a, VStr b => String.eqb a b
  | VList xs, VList ys =>
      (fix go (xs ys : list value) : bool :=
         match xs, ys with
         | [], [] => true
         | a :: xs', b :: ys' => py_eq a b && go xs' ys'
         | _, _ => false
         end) xs ys
  | VDict d1, VDict d2 =>
      Nat.eqb (length d1) (length d2) &&
      (fix all (d : list (value * value)) : bool :=
         match d with
         | [] => true
         | (k, v) :: t =>
             match (fix find (e : list (value * value)) : option value :=
                      match e with
                      | [] => None
                      | (k', v') :: e' => if py_eq k k' then Some v' else find e'
                      end) d2 with
             | Some v' => py_eq v v' && all t
             | None => false
             end
         end) d1
  | VBuiltin a, VBuiltin b => String.eqb a b
  | VClosure i _ _ _ _, VClosure j _ _ _ _ => Nat.eqb i j
  | VPartial i _ _ _ _, VPartial j _ _ _ _ => Nat.eqb i j
  | _, _ =>
      match num_of x, num_of y with
      | Some a, Some b =>
          match num_cmp a b with Some Eq => true | _ => false end
      | _, _ => false
      end
  end.

(** [bool(x)] *)
Definition truthy (v : value) : bool :=
  match v with
  | VNone => false
  | VBool b => b
  | VInt z => negb (Z.eqb z 0)
  | VFloat f => negb (PrimFloat.eqb f 0%float)
  | VStr s => negb (String.eqb s "")
  | VList l => match l with [] => false | _ => true end
  | VDict d => match d with [] => false | _ => true end
  | _ => true
  end.

Definition hashable (v : value) : bool :=
  match v with
  | VList _ | VDict _ => false
  | _ => true
  end.

(** dict lookup and insertion: an existing equal key keeps its place *)
Fixpoint dict_get (d : dict) (k : value) : option value :=
  match d with
  | [] => None
  | (k', v) :: t => if py_eq k' k then Some v else dict_get t k
  end.

Fixpoint dict_set (d : dict) (k v : value) : dict :=
  match d with
  | [] => [(k, v)]
  | (k', v') :: t => if py_eq k' k then (k', v) :: t else (k', v') :: dict_set t k v
  end.

(** [d[k] = v] *)
Definition setitem_dict (d : dict) (k v : value) : result dict :=
  if hashable k then Ok (dict_set d k v) else host TypeError.

(** [d.update(e)] *)
Definition dict_update (d e : dict) : dict :=
  fold_left (fun acc kv => dict_set acc (fst kv) (snd kv)) e d.

Definition py_index (i : Z) (n : nat) : option nat :=
  let i' := if (i <? 0)%Z then (i + Z.of_nat n)%Z else i in
  if (0 <=? i')%Z && (i' <? Z.of_nat n)%Z then Some (Z.to_nat i') else None.

Definition char_str (c : Ascii.ascii) : value := VStr (String c EmptyString).

(** [x[k]] *)
Definition getitem (x k : value) : result value :=
  match x with
  | VDict d =>
      if hashable k then
        match dict_get d k with Some v => Ok v | None => host KeyError end
      else host TypeError
  | VList l =>
      match num_of k with
      | Some (inl i) =>
          match py_index i (length l) with
          | Some j => match nth_error l j with Some v => Ok v | None => host IndexError end
          | None => host IndexError
          end
      | _ => host TypeError
      end
  | VStr s =>
      match num_of k with
      | Some (inl i) =>
          match py_index i (String.length s) with
          | Some j => match String.get j s with Some c => Ok (char_str c) | None => host IndexError end
          | None => host IndexError
          end
      | _ => host TypeError
      end
  | _ => host TypeError
  end.

Fixpoint chars (s : string) : list value :=
  match s with
  | EmptyString => []
  | String c s' => char_str c :: chars s'
  end.

(** [iter(x)], as used by [for], unpacking and [enumerate] *)
Definition py_iter (x : value) : result (list value) :=
  match x with
  | VList l => Ok l
  | VStr s => Ok (chars s)
  | VDict d => Ok (map fst d)
  | _ => host TypeError
  end.

(** [len(x)] *)
Definition py_len (x : value) : result nat :=
  match x with
  | VList l => Ok (length l)
  | VStr s => Ok (String.length s)
  | VDict d => Ok (length d)
  | _ => host TypeError
  end.

(** [node.copy()] followed by [update({'type': type, 'value': value})] *)
Definition wrap (node type val : value) : result value :=
  match node with
  | VDict d => Ok (VDict (dict_set (dict_set d (VStr "type") type) (VStr "value") val))
  | _ => host AttributeError
  end.

(** int to float, correctly rounded; too large an int is an [OverflowError] *)
Definition float_of_int (z : Z) : result float :=
  match binary_normalize 53 1024 z 0 false with
  | S754_infinity _ => host OverflowError
  | f => Ok (SF2Prim f)
  end.

Definition to_float (a : Z + float) : result float :=
  match a with inl z => float_of_int z | inr f => Ok f end.

Definition arith (zop : Z -> Z -> Z) (fop : float -> float -> float)
    (a b : Z + float) : result value :=
  match a, b with
  | inl x, inl y => Ok (VInt (zop x y))
  | _, _ => rbind (to_float a) (fun x => rbind (to_float b) (fun y => Ok (VFloat (fop x y))))
  end.

(** [a + b] *)
Definition py_add (a b : value) : result value :=
  match num_of a, num_of b with
  | Some x, Some y => arith Z.add PrimFloat.add x y
  | _, _ =>
      match a, b with
      | VStr s, VStr t => Ok (VStr (s ++ t))
      | VList l, VList m => Ok (VList (l ++ m))
      | _, _ => host TypeError
      end
  end.

(** [a - b] *)
Definition py_sub (a b : value) : result value :=
  match num_of a, num_of b with
  | Some x, Some y => arith Z.sub PrimFloat.sub x y
  | _, _ => host TypeError
  end.

Fixpoint repeat_str (s : string) (n : nat) : string :=
  match n with O => EmptyString | S n' => s ++ repeat_str s n' end.

Fixpoint repeat_list (l : list value) (n : nat) : list value :=
  match n with O => [] | S n' => l ++ repeat_list l n' end.

Definition int_like (v : value) : option Z :=
  match num_of v with Some (inl z) => Some z | _ => None end.

(** [a * b], with sequence repetition *)
Definition py_mul (a b : value) : result value :=
  match num_of a, num_of b with
  | Some x, Some y => arith Z.mul PrimFloat.mul x y
  | _, _ =>
      match a, b, int_like a, int_like b with
      | VStr s, _, _, Some n => Ok (VStr (repeat_str s (Z.to_nat n)))
      | _, VStr s, Some n, _ => Ok (VStr (repeat_str s (Z.to_nat n)))
      | VList l, _, _, Some n => Ok (VList (repeat_list l (Z.to_nat n)))
      | _, VList l, Some n, _ => Ok (VList (repeat_list l (Z.to_nat n)))
      | _, _, _, _ => host TypeError
      end
  end.

(** [a / b] (true division); int/int follows CPython's path through
    [float(a) / float(b)], which is exact for operands up to 2^53 *)
Definition py_truediv (a b : value) : result value :=
  match num_of a, num_of b with
  | Some (inl x), Some (inl y) =>
      if Z.eqb y 0 then host ZeroDivisionError
      else if (Z.abs x <=? 2 ^ 53)%Z && (Z.abs y <=? 2 ^ 53)%Z
      then rbind (float_of_int x) (fun fx => rbind (float_of_int y) (fun fy => Ok (VFloat (PrimFloat.div fx fy))))
      else host Unmodelled
  | Some x, Some y =>
      rbind (to_float x) (fun fx => rbind (to_float y) (fun fy =>
        if PrimFloat.eqb fy 0%float then host ZeroDivisionError
        else Ok (VFloat (PrimFloat.div fx fy))))
  | _, _ => host TypeError
  end.

Fixpoint str_lt (s t : string) : bool :=
  match s, t with
  | EmptyString, EmptyString => false
  | EmptyString, String _ _ => true
  | String _ _, EmptyString => false
  | String c s', String d t' =>
      if Ascii.eqb c d then str_lt s' t'
      else N.ltb (Ascii.N_of_ascii c) (Ascii.N_of_ascii d)
  end.

(** [a < b] on numbers, strings and lists; other pairs are a [TypeError] *)
Fixpoint py_lt (x y : value) {struct x} : result bool :=
  match x, y with
  | VStr s, VStr t => Ok (str_lt s t)
  | VList xs, VList ys =>
      (fix go (xs ys : list value) : result bool :=
         match xs, ys with
         | a :: xs', b :: ys' => if py_eq a b then go xs' ys' else py_lt a b
         | [], _ :: _ => Ok true
         | _, _ => Ok false
         end) xs ys
  | _, _ =>
      match num_of x, num_of y with
      | Some a, Some b => Ok (match num_cmp a b with Some Lt => true | _ => false end)
      | _, _ => host TypeError
      end
  end.

(** [a > b]: on the types [py_lt] accepts, [b < a] *)
Definition py_gt (x y : value) : result bool := py_lt y x.

Fixpoint dec_digits (fuel : nat) (n : Z) (acc : string) : string :=
  match fuel with
  | O => acc
  | S f =>
      let acc' := String (Ascii.ascii_of_nat (48 + Z.to_nat (n mod 10))) acc in
      if (n <? 10)%Z then acc' else dec_digits f (n / 10) acc'
  end.

Definition z_to_string (z : Z) : string :=
  let fuel := S (Z.to_nat (Z.log2 (Z.abs z))) in
  if (z <? 0)%Z then "-" ++ dec_digits fuel (- z) "" else dec_digits fuel z "".

(** [str(v)]; an int of more than 4300 digits
    ([sys.int_info.default_max_str_digits]) is refused *)
Definition py_str (v : value) : result string :=
  match v with
  | VNone => Ok "None"
  | VBool true => Ok "True"
  | VBool false => Ok "False"
  | VInt z => if (10 ^ 4300 <=? Z.abs z)%Z then host ValueError else Ok (z_to_string z)
  | VStr s => Ok s
  | _ => host Unmodelled
  end.

(** [xs[slice( *bounds)]] on a list: [PySlice_Unpack] then
    [PySlice_AdjustIndices] *)
Definition slice_bound (v : value) : result (option Z) :=
  match v with
  | VNone => Ok None
  | _ => match int_like v with Some z => Ok (Some z) | None => host TypeError end
  end.

Definition adjust (len step : Z) (b : Z) : Z :=
  if (b <? 0)%Z then
    let b' := (b + len)%Z in
    if (b' <? 0)%Z then (if (step <? 0)%Z then (-1)%Z else 0%Z) else b'
  else if (len <=? b)%Z then (if (step <? 0)%Z then (len - 1)%Z else len)
  else b.

Fixpoint take_step (l : list value) (i step : Z) (k : nat) : list value :=
  match k with
  | O => []
  | S k' =>
      match nth_error l (Z.to_nat i) with
      | Some v => v :: take_step l (i + step) step k'
      | None => take_step l (i + step) step k'
      end
  end.

Definition list_slice (l : list value) (start stop step : value) : result (list value) :=
  rbind (slice_bound step) (fun ostep =>
  let st := match ostep with Some z => z | None => 1%Z end in
  if Z.eqb st 0 then host ValueError else
  rbind (slice_bound start) (fun ostart =>
  rbind (slice_bound stop) (fun ostop =>
  let len := Z.of_nat (length l) in
  let a := match ostart with
           | Some z => adjust len st z
           | None => if (st <? 0)%Z then (len - 1)%Z else 0%Z
           end in
  let b := match ostop with
           | Some z => adjust len st z
           | None => if (st <? 0)%Z then (-1)%Z else len
           end in
  let count :=
    if (st <? 0)%Z then (if (b <? a)%Z then ((a - b - 1) / (- st) + 1)%Z else 0%Z)
    else (if (a <? b)%Z then ((b - a - 1) / st + 1)%Z else 0%Z) in
  Ok (take_step l a st (Z.to_nat count))))).

(** [slice( *args)]: one argument is the stop bound *)
Definition py_slice (l : list value) (bounds : list value) : result (list value) :=
  match bounds with
  | [stop] => list_slice l VNone stop VNone
  | [start; stop] => list_slice l start stop VNone
  | [start; stop; step] => list_slice l start stop step
  | _ => host TypeError
  end.

(** ** The interpreter's state: scope dicts and function identities *)

Record state := mkState {
  heap : list dict;   (** the scope dicts, addressed by position *)
  next_id : nat       (** identity of the next function object *)
}.

Definition M (A : Type) : Type := state -> result A * state.

Definition ret {A} (a : A) : M A := fun s => (Ok a, s).

Definition bind {A B} (m : M A) (k : A -> M B) : M B :=
  fun s =>
    match m s with
    | (Ok a, s') => k a s'
    | (Raise e, s') => (Raise e, s')
    | (OutOfFuel, s') => (OutOfFuel, s')
    end.

Notation "x <- m ;; k" := (bind m (fun x => k))
  (at level 61, m at next level, right associativity).
Notation "' p <- m ;; k" := (bind m (fun x => match x with p => k end))
  (at level 61, p pattern, m at next level, right associativity).
Notation "m ;; k" := (bind m (fun _ => k)) (at level 61, right associativity).

Definition lift {A} (r : result A) : M A := fun s => (r, s).
Definition throw {A} (e : exn) : M A := lift (Raise e).
Definition raise_host {A} (e : host_error) : M A := throw (HostError e).

Fixpoint replace_nth {A} (l : list A) (n : nat) (x : A) : list A :=
  match l, n with
  | [], _ => []
  | _ :: t, O => x :: t
  | y :: t, S n' => y :: replace_nth t n' x
  end.

(** [context['scope']] of the frame at an address (addresses handed out by
    [alloc] are always valid) *)
Definition read_frame (a : nat) : M dict := fun s => (Ok (nth a (heap s) []), s).

Definition write_frame (a : nat) (d : dict) : M unit :=
  fun s => (Ok tt, mkState (replace_nth (heap s) a d) (next_id s)).

(** a new scope dict *)
Definition alloc (d : dict) : M nat :=
  fun s => (Ok (length (heap s)), mkState (heap s ++ [d]) (next_id s)).

(** a new function object *)
Definition fresh_id : M nat :=
  fun s => (Ok (next_id s), mkState (heap s) (S (next_id s))).

(** [raise InterpeterError(message, node)]: the constructor reads
    [node['location']['line']] and [node['location']['column']] *)
Definition raise_error {A} (k : ierr) (node : value) : M A :=
  loc <- lift (getitem node (VStr "location")) ;;
  line <- lift (getitem loc (VStr "line")) ;;
  loc' <- lift (getitem node (VStr "location")) ;;
  column <- lift (getitem loc' (VStr "column")) ;;
  throw (InterpeterError k line column).

(** the evaluator one level down, handed to handlers and builtins *)
Definition Ev : Type := value -> list nat -> M value.

(** [evaluate_all] on a Python list of nodes *)
Fixpoint evaluate_list (ev : Ev) (nodes : list value) (context : list nat) : M (list value) :=
  match nodes with
  | [] => ret []
  | node :: nodes' =>
      v <- ev node context ;;
      vs <- evaluate_list ev nodes' context ;;
      ret (v :: vs)
  end.

Definition evaluate_all (ev : Ev) (nodes : value) (context : list nat) : M (list value) :=
  l <- lift (py_iter nodes) ;;
  evaluate_list ev l context.

Definition assert_arity (node : value) (args : list value)
    (exact min max : option nat) : M (list value) :=
  let n := length args in
  if match exact with Some e => negb (Nat.eqb n e) | None => false end
  then raise_error ArityError node
  else if match min with Some m => Nat.ltb n m | None => false end
  then raise_error ArityError node
  else if match max with Some m => Nat.ltb m n | None => false end
  then raise_error ArityError node
  else ret args.

(** tuple unpacking [a, b = xs] and [a, b, c = xs] *)
Definition unpack1 (xs : list value) : M value :=
  match xs with [a] => ret a | _ => raise_host ValueError end.
Definition unpack2 (xs : list value) : M (value * value) :=
  match xs with [a; b] => ret (a, b) | _ => raise_host ValueError end.
Definition unpack3 (xs : list value) : M (value * value * value) :=
  match xs with [a; b; c] => ret (a, b, c) | _ => raise_host ValueError end.

(** [name, *rest = xs] *)
Definition unpack_head (xs : list value) : M (value * list value) :=
  match xs with x :: rest => ret (x, rest) | [] => raise_host ValueError end.

(** [context['scope'][key] = v] *)
Definition scope_setitem (context : list nat) (key v : value) : M unit :=
  match context with
  | a :: _ =>
      d <- read_frame a ;;
      d' <- lift (setitem_dict d key v) ;;
      write_frame a d'
  | [] => raise_host KeyError
  end.

(** the lookup loop of [handle_identifier] *)
Fixpoint scope_lookup (h : list dict) (context : list nat) (name : value) : option value :=
  match context with
  | [] => None
  | a :: parent =>
      match dict_get (nth a h []) name with
      | Some v => Some v
      | None => scope_lookup h parent name
      end
  end.

(** the node constructor of the parser ([add_node]) *)
Definition mk_node (type : string) (v : value) (line column : Z) : value :=
  VDict [(VStr "type", VStr type); (VStr "value", v);
         (VStr "location", VDict [(VStr "line", VInt line); (VStr "column", VInt column)])].

(** ** Builtins

    Every builtin receives the raw argument nodes, the call node and the
    caller's context, as [fn(args, node, context)] does in [handle_call]. *)

Section Builtins.

Variable ev : Ev.

Definition fn_defn (args : list value) (node : value) (context : list nat) : M value :=
  args <- assert_arity node args None (Some 3) None ;;
  '(name, args) <- unpack_head args ;;
  fn_ident <- lift (wrap node (VStr "identifier") (VStr "fn")) ;;
  call <- lift (wrap node (VStr "call") (VList (fn_ident :: args))) ;;
  v <- ev call context ;;
  key <- lift (getitem name (VStr "value")) ;;
  scope_setitem context key v ;;
  ret VNone.

(** the definition-time parameter check of [fn_fn] *)
Fixpoint check_params (params : list value) : M unit :=
  match params with
  | [] => ret tt
  | param :: params' =>
      t <- lift (getitem param (VStr "type")) ;;
      if negb (py_eq t (VStr "identifier")) then
        pv <- lift (getitem param (VStr "value")) ;;
        raise_error (InvalidParameter pv) param
      else check_params params'
  end.

Definition fn_fn (args : list value) (node : value) (context : list nat) : M value :=
  args <- assert_arity node args None (Some 2) None ;;
  '(params, body) <- unpack2 args ;;
  ps <- lift (rbind (getitem params (VStr "value")) py_iter) ;;
  check_params ps ;;
  id <- fresh_id ;;
  ret (VClosure id params body node context).

Definition fn_partial (args : list value) (node : value) (context : list nat) : M value :=
  args <- assert_arity node args None (Some 2) None ;;
  '(name, args) <- unpack_head args ;;
  id <- fresh_id ;;
  ret (VPartial id node name args context).

Fixpoint wrap_all (node : value) (xs : list value) : result (list value) :=
  match xs with
  | [] => Ok []
  | x :: xs' => rbind (wrap node (VStr "any") x) (fun w =>
                rbind (wrap_all node xs') (fun ws => Ok (w :: ws)))
  end.

Definition fn_apply (args : list value) (node : value) (context : list nat) : M value :=
  args <- assert_arity node args (Some 2) None None ;;
  '(f, args) <- unpack2 args ;;
  xs <- ev args context ;;
  l <- lift (py_iter xs) ;;
  wrapped <- lift (wrap_all node l) ;;
  call <- lift (wrap node (VStr "call") (VList (f :: wrapped))) ;;
  ev call context.

(** [evaluate(wrap(node, 'call', [f, wrap(node, 'any', x)]), context)] *)
Definition call_on (f node x : value) (context : list nat) : M value :=
  w <- lift (wrap node (VStr "any") x) ;;
  call <- lift (wrap node (VStr "call") (VList [f; w])) ;;
  ev call context.

Fixpoint map_loop (f node : value) (context : list nat) (xs : list value) : M (list value) :=
  match xs with
  | [] => ret []
  | x :: xs' =>
      y <- call_on f node x context ;;
      ys <- map_loop f node context xs' ;;
      ret (y :: ys)
  end.

Definition fn_map (args : list value) (node : value) (context : list nat) : M value :=
  args <- assert_arity node args (Some 2) None None ;;
  '(f, xs) <- unpack2 args ;;
  xs <- ev xs context ;;
  l <- lift (py_iter xs) ;;
  ys <- map_loop f node context l ;;
  ret (VList ys).

Fixpoint filter_loop (f node : value) (context : list nat) (xs : list value) : M (list value) :=
  match xs with
  | [] => ret []
  | x :: xs' =>
      y <- call_on f node x context ;;
      ys <- filter_loop f node context xs' ;;
      ret (if truthy y then x :: ys else ys)
  end.

Definition fn_filter (args : list value) (node : value) (context : list nat) : M value :=
  args <- assert_arity node args (Some 2) None None ;;
  '(f, xs) <- unpack2 args ;;
  xs <- ev xs context ;;
  l <- lift (py_iter xs) ;;
  ys <- filter_loop f node context l ;;
  ret (VList ys).

(** [for x in xs['value']: r = evaluate(wrap(node, 'call',
    [f, x, wrap(node, init['type'], r)]), context)] *)
Fixpoint reduce_loop (f init node : value) (context : list nat) (xs : list value) (r : value) : M value :=
  match xs with
  | [] => ret r
  | x :: xs' =>
      ty <- lift (getitem init (VStr "type")) ;;
      acc <- lift (wrap node ty r) ;;
      call <- lift (wrap node (VStr "call") (VList [f; x; acc])) ;;
      r <- ev call context ;;
      reduce_loop f init node context xs' r
  end.

Definition fn_reduce (args : list value) (node : value) (context : list nat) : M value :=
  args <- assert_arity node args (Some 3) None None ;;
  '(f, init, xs) <- unpack3 args ;;
  r <- ev init context ;;
  children <- lift (getitem xs (VStr "value")) ;;
  l <- lift (py_iter children) ;;
  reduce_loop f init node context l r.

(** [range(0, n, 2)] *)
Fixpoint range2 (fuel i n : nat) : list nat :=
  match fuel with
  | O => []
  | S f => if Nat.ltb i n then i :: range2 f (i + 2) n else []
  end.

(** the dict comprehension of [fn_let]: key, then value, then insertion *)
Fixpoint let_scope (pairs : value) (context : list nat) (idx : list nat) (scope : dict) : M dict :=
  match idx with
  | [] => ret scope
  | i :: idx' =>
      p <- lift (getitem pairs (VInt (Z.of_nat i))) ;;
      key <- lift (getitem p (VStr "value")) ;;
      q <- lift (getitem pairs (VInt (Z.of_nat i + 1))) ;;
      v <- ev q context ;;
      scope <- lift (setitem_dict scope key v) ;;
      let_scope pairs context idx' scope
  end.

Definition fn_let (args : list value) (node : value) (context : list nat) : M value :=
  args <- assert_arity node args None (Some 2) None ;;
  '(params, body) <- unpack2 args ;;
  pairs <- lift (getitem params (VStr "value")) ;;
  n <- lift (py_len pairs) ;;
  scope <- let_scope pairs context (range2 n 0 n) [] ;;
  a <- alloc scope ;;
  ev body (a :: context).

Definition fn_if (args : list value) (node : value) (context : list nat) : M value :=
  args <- assert_arity node args (Some 3) None None ;;
  '(condition, yes, no) <- unpack3 args ;;
  c <- ev condition context ;;
  if truthy c then ev yes context else ev no context.

Definition fn_when (args : list value) (node : value) (context : list nat) : M value :=
  args <- assert_arity node args (Some 2) None None ;;
  '(condition, yes) <- unpack2 args ;;
  c <- ev condition context ;;
  if truthy c then ev yes context else ret VNone.

(** the [for i in range(0, len(pairs), 2)] loop of [fn_case] *)
Fixpoint case_loop (v : value) (context : list nat) (pairs : list value) : M (option value) :=
  match pairs with
  | [] => ret None
  | [k] =>
      kv <- ev k context ;;
      if py_eq kv v then raise_host IndexError else ret None
  | k :: e :: pairs' =>
      kv <- ev k context ;;
      if py_eq kv v then r <- ev e context ;; ret (Some r)
      else case_loop v context pairs'
  end.

Definition fn_case (args : list value) (node : value) (context : list nat) : M value :=
  args <- assert_arity node args None (Some 2) None ;;
  '(value_node, pairs) <- unpack_head args ;;
  v <- ev value_node context ;;
  let '(default, pairs) :=
    if Nat.odd (length pairs) then (Some (last pairs VNone), removelast pairs)
    else (None, pairs) in
  r <- case_loop v context pairs ;;
  match r with
  | Some r => ret r
  | None =>
      match default with
      (** [default] was never assigned: [if default:] reads an unbound local *)
      | None => raise_host UnboundLocalError
      | Some d => if truthy d then ev d context else raise_error CaseFailed node
      end
  end.

Definition fn_exit (args : list value) (node : value) (context : list nat) : M value :=
  args <- assert_arity node args (Some 1) None None ;;
  a <- lift (match args with a :: _ => Ok a | [] => host IndexError end) ;;
  v <- ev a context ;;
  throw (InterpreterReturn v).

Fixpoint str_all (context : list nat) (args : list value) : M (list string) :=
  match args with
  | [] => ret []
  | a :: args' =>
      v <- ev a context ;;
      s <- lift (py_str v) ;;
      ss <- str_all context args' ;;
      ret (s :: ss)
  end.

Definition fn_join (args : list value) (node : value) (context : list nat) : M value :=
  args <- assert_arity node args None (Some 1) None ;;
  '(sep, args) <- unpack_head args ;;
  sv <- ev sep context ;;
  match sv with
  | VStr s => ss <- str_all context args ;; ret (VStr (String.concat s ss))
  | _ => raise_host AttributeError
  end.

Definition fn_not (args : list value) (node : value) (context : list nat) : M value :=
  args <- assert_arity node args (Some 1) None None ;;
  x <- unpack1 args ;;
  v <- ev x context ;;
  ret (VBool (negb (truthy v))).

(** [sum(xs)] starting from [acc], adding one element at a time from the
    left; for floats this is the plain left-to-right summation of Python up
    to 3.11 (from 3.12 [sum] compensates float rounding, which can change
    the last bits of a float result) *)
Fixpoint sum_from (acc : value) (xs : list value) : result value :=
  match xs with
  | [] => Ok acc
  | x :: xs' => rbind (py_add acc x) (fun acc' => sum_from acc' xs')
  end.

Definition fn_plus (args : list value) (node : value) (context : list nat) : M value :=
  vs <- evaluate_list ev args context ;;
  lift (sum_from (VInt 0) vs).

Definition fn_minus (args : list value) (node : value) (context : list nat) : M value :=
  args <- assert_arity node args (Some 2) None None ;;
  vs <- evaluate_list ev args context ;;
  '(a, b) <- unpack2 vs ;;
  lift (py_sub a b).

(** [functools.reduce(lambda r, x: r * evaluate(x, context), xs, 1)] *)
Fixpoint product_from (r : value) (context : list nat) (xs : list value) : M value :=
  match xs with
  | [] => ret r
  | x :: xs' =>
      v <- ev x context ;;
      r' <- lift (py_mul r v) ;;
      product_from r' context xs'
  end.

Definition fn_multiply (args : list value) (node : value) (context : list nat) : M value :=
  xs <- assert_arity node args None (Some 1) None ;;
  product_from (VInt 1) context xs.

Definition fn_divide (args : list value) (node : value) (context : list nat) : M value :=
  args <- assert_arity node args (Some 2) None None ;;
  vs <- evaluate_list ev args context ;;
  '(a, b) <- unpack2 vs ;;
  if py_eq b (VInt 0) then raise_error DivisionByZero node
  else lift (py_truediv a b).

(** The source names the next five functions [fn_gt] each time; they are
    registered under [>], [<], [=], [or] and [and]. *)
Definition fn_gt (args : list value) (node : value) (context : list nat) : M value :=
  args <- assert_arity node args (Some 2) None None ;;
  vs <- evaluate_list ev args context ;;
  '(a, b) <- unpack2 vs ;;
  r <- lift (py_gt a b) ;;
  ret (VBool r).

Definition fn_lt (args : list value) (node : value) (context : list nat) : M value :=
  args <- assert_arity node args (Some 2) None None ;;
  vs <- evaluate_list ev args context ;;
  '(a, b) <- unpack2 vs ;;
  r <- lift (py_lt a b) ;;
  ret (VBool r).

Definition fn_eq (args : list value) (node : value) (context : list nat) : M value :=
  args <- assert_arity node args (Some 2) None None ;;
  vs <- evaluate_list ev args context ;;
  '(a, b) <- unpack2 vs ;;
  ret (VBool (py_eq a b)).

(** [any(evaluate_all(args, context))] *)
Definition fn_or (args : list value) (node : value) (context : list nat) : M value :=
  vs <- evaluate_list ev args context ;;
  ret (VBool (existsb truthy vs)).

(** [all(evaluate_all(args, context))] *)
Definition fn_and (args : list value) (node : value) (context : list nat) : M value :=
  vs <- evaluate_list ev args context ;;
  ret (VBool (forallb truthy vs)).

Definition fn_nth (args : list value) (node : value) (context : list nat) : M value :=
  args <- assert_arity node args (Some 2) None None ;;
  vs <- evaluate_list ev args context ;;
  '(xs, i) <- unpack2 vs ;;
  match xs with
  | VList _ => lift (getitem xs i)
  | _ => raise_error NthNonVector node
  end.

Definition fn_slice (args : list value) (node : value) (context : list nat) : M value :=
  args <- assert_arity node args None (Some 2) (Some 4) ;;
  vs <- evaluate_list ev args context ;;
  '(xs, slice_args) <- unpack_head vs ;;
  match xs with
  | VList l => r <- lift (py_slice l slice_args) ;; ret (VList r)
  | _ => raise_error SliceNonVector node
  end.

End Builtins.

(** the registration order of [@define_key(..., _builtins)]; [fn_fn] and
    [fn_partial] evaluate nothing when called *)
Definition builtin_table : list (string * (Ev -> list value -> value -> list nat -> M value)) :=
  [("defn", fn_defn); ("fn", fun _ => fn_fn); ("partial", fun _ => fn_partial); ("apply", fn_apply);
   ("map", fn_map); ("filter", fn_filter); ("reduce", fn_reduce); ("let", fn_let);
   ("if", fn_if); ("when", fn_when); ("case", fn_case); ("exit", fn_exit);
   ("join", fn_join); ("not", fn_not); ("+", fn_plus); ("-", fn_minus);
   ("*", fn_multiply); ("/", fn_divide); (">", fn_gt); ("<", fn_lt);
   ("=", fn_eq); ("or", fn_or); ("and", fn_and); ("nth", fn_nth); ("slice", fn_slice)].

(** [_builtins = {'true': True, 'false': False, 'nil': None}] followed by
    the registered functions *)
Definition _builtins : dict :=
  ([(VStr "true", VBool true); (VStr "false", VBool false); (VStr "nil", VNone)] ++
   map (fun nf => (VStr (fst nf), VBuiltin (fst nf))) builtin_table)%list.

Fixpoint find_builtin (b : string) (t : list (string * (Ev -> list value -> value -> list nat -> M value)))
    : option (Ev -> list value -> value -> list nat -> M value) :=
  match t with
  | [] => None
  | (n, f) :: t' => if String.eqb n b then Some f else find_builtin b t'
  end.

(** [type(fn).__name__ == 'function'] *)
Definition is_function (v : value) : bool :=
  match v with
  | VBuiltin _ | VClosure _ _ _ _ _ | VPartial _ _ _ _ _ => true
  | _ => false
  end.

Section Calls.

Variable ev : Ev.

(** The parameter loop of the closure [f] built by [fn_fn]:
    [for i, param in enumerate(params['value'])]; it returns the new scope
    and the value of the loop variable [i] afterwards ([None] when the loop
    body never ran, so that [i] is unbound). *)
Fixpoint bind_params (params : value) (caller_args : list value) (caller_context : list nat)
    (ps : list value) (i : nat) (new_scope : dict) (last : option nat) : M (dict * option nat) :=
  match ps with
  | [] => ret (new_scope, last)
  | param :: ps' =>
      pv <- lift (getitem param (VStr "value")) ;;
      if py_eq pv (VStr "&") then
        rest <- evaluate_list ev (skipn i caller_args) caller_context ;;
        all_params <- lift (getitem params (VStr "value")) ;;
        next <- lift (getitem all_params (VInt (Z.of_nat i + 1))) ;;
        key <- lift (getitem next (VStr "value")) ;;
        new_scope <- lift (setitem_dict new_scope key (VList rest)) ;;
        ret (new_scope, Some i)
      else
        arg <- lift (match nth_error caller_args i with Some a => Ok a | None => host IndexError end) ;;
        v <- ev arg caller_context ;;
        key <- lift (getitem param (VStr "value")) ;;
        new_scope <- lift (setitem_dict new_scope key v) ;;
        bind_params params caller_args caller_context ps' (S i) new_scope (Some i)
  end.

(** [f(caller_args, caller_node, caller_context)] for the closure of
    [fn_fn], which captured [params], [body], [node] and [context] *)
Definition call_closure (params body node : value) (context : list nat)
    (caller_args : list value) (caller_node : value) (caller_context : list nat) : M value :=
  ps <- lift (rbind (getitem params (VStr "value")) py_iter) ;;
  '(new_scope, last) <- bind_params params caller_args caller_context ps 0 [] None ;;
  match last with
  | None => raise_host UnboundLocalError
  | Some i =>
      all_params <- lift (getitem params (VStr "value")) ;;
      n <- lift (py_len all_params) ;;
      if Nat.ltb (i + 2) n then raise_error OnlyOneRest node
      else
        a <- alloc new_scope ;;
        ev body (a :: context)
  end.

(** [f(caller_args, caller_node, caller_context)] for the closure of
    [fn_partial] *)
Definition call_partial (node name : value) (args : list value) (context : list nat)
    (caller_args : list value) : M value :=
  call <- lift (wrap node (VStr "call") (VList (name :: args ++ caller_args))) ;;
  ev call context.

Definition call_fn (fn : value) (args : list value) (node : value) (context : list nat) : M value :=
  match fn with
  | VBuiltin b =>
      match find_builtin b builtin_table with
      | Some f => f ev args node context
      | None => raise_host TypeError
      end
  | VClosure _ params body dnode dcontext => call_closure params body dnode dcontext args node context
  | VPartial _ pnode name pargs pcontext => call_partial pnode name pargs pcontext args
  | _ => raise_host TypeError
  end.

Definition handle_call (node : value) (context : list nat) : M value :=
  nv <- lift (getitem node (VStr "value")) ;;
  l <- lift (py_iter nv) ;;
  '(name, args) <- unpack_head l ;;
  fn <- ev name context ;;
  if is_function fn then call_fn fn args node context
  else
    n <- lift (getitem name (VStr "value")) ;;
    raise_error (NotCallable n) node.

Definition handle_identifier (node : value) (context : list nat) : M value :=
  name <- lift (getitem node (VStr "value")) ;;
  if hashable name then
    fun s =>
      match scope_lookup (heap s) context name with
      | Some v => (Ok v, s)
      | None => raise_error (UnresolvedName name) node s
      end
  else raise_host TypeError.

Definition handle_vec (node : value) (context : list nat) : M value :=
  children <- lift (getitem node (VStr "value")) ;;
  vs <- evaluate_all ev children context ;;
  ret (VList vs).

Fixpoint map_entries (children : value) (context : list nat) (idx : list nat) (d : dict) : M dict :=
  match idx with
  | [] => ret d
  | i :: idx' =>
      kn <- lift (getitem children (VInt (Z.of_nat i))) ;;
      k <- ev kn context ;;
      vn <- lift (getitem children (VInt (Z.of_nat i + 1))) ;;
      v <- ev vn context ;;
      d <- lift (setitem_dict d k v) ;;
      map_entries children context idx' d
  end.

Definition handle_map (node : value) (context : list nat) : M value :=
  children <- lift (getitem node (VStr "value")) ;;
  n <- lift (py_len children) ;;
  d <- map_entries children context (range2 n 0 n) [] ;;
  ret (VDict d).

(** [_handlers[node['type']](node, context)]; the handlers of [any],
    [int], [float] and [string] all return [node['value']] *)
Definition handle (node : value) (context : list nat) : M value :=
  type <- lift (getitem node (VStr "type")) ;;
  if negb (hashable type) then raise_host TypeError
  else if py_eq (VStr "call") type then handle_call node context
  else if py_eq (VStr "identifier") type then handle_identifier node context
  else if py_eq (VStr "any") type || py_eq (VStr "int") type
          || py_eq (VStr "float") type || py_eq (VStr "string") type
  then lift (getitem node (VStr "value"))
  else if py_eq (VStr "vec") type then handle_vec node context
  else if py_eq (VStr "map") type then handle_map node context
  else raise_host KeyError.

End Calls.

Fixpoint evaluate (fuel : nat) (node : value) (context : list nat) : M value :=
  match fuel with
  | O => fun s => (OutOfFuel, s)
  | S n => handle (evaluate n) node context
  end.

(** [try: ... except InterpreterReturn as exc: ...] *)
Definition catch_return {A} (m : M A) : M (A + value) :=
  fun s =>
    match m s with
    | (Ok a, s') => (Ok (inl a), s')
    | (Raise (InterpreterReturn v), s') => (Ok (inr v), s')
    | (Raise e, s') => (Raise e, s')
    | (OutOfFuel, s') => (OutOfFuel, s')
    end.

(** [scope.update(e)] on the scope dict at address [a] *)
Definition update_frame (a : nat) (e : dict) : M unit :=
  d <- read_frame a ;;
  write_frame a (dict_update d e).

(** [interpret(ast, scope)]: the module-level [_library] dict (built at
    import time from library.bedlam) is a parameter; [scope] is the
    address of the caller's dict, or [None] for a fresh one *)
Definition interpret (fuel : nat) (_library : dict) (ast : value) (scope : option nat) : M value :=
  a <- match scope with None => alloc [] | Some a => ret a end ;;
  update_frame a _builtins ;;
  update_frame a _library ;;
  r <- catch_return (evaluate_all (evaluate fuel) ast [a]) ;;
  match r with
  | inr v => ret v
  | inl result => lift (getitem (VList result) (VInt (-1)))
  end.

(** ** The parser (src/parse.py)

    A Python [str] is a [string] of one-byte characters here, read as the
    code points 0 to 255; every classification below ([isspace], digits)
    is Python's on those code points. *)

Definition chr (n : nat) : Ascii.ascii := Ascii.ascii_of_nat n.
Definition str1 (c : Ascii.ascii) : string := String c EmptyString.
Definition dquote : Ascii.ascii := chr 34.
Definition backslash : Ascii.ascii := chr 92.
Definition newline : Ascii.ascii := chr 10.
Definition space : Ascii.ascii := chr 32.

(** [c.isspace()]: what [\s] matches and what [str.strip()] removes *)
Definition is_space (c : Ascii.ascii) : bool :=
  let n := Ascii.nat_of_ascii c in
  (Nat.leb 9 n && Nat.leb n 13) || (Nat.leb 28 n && Nat.leb n 31)
  || Nat.eqb n 32 || Nat.eqb n 133 || Nat.eqb n 160.

(** the class [[\(\)\[\]\{\},]] of [pre_tokenize] *)
Definition is_bracket (c : Ascii.ascii) : bool :=
  let n := Ascii.nat_of_ascii c in
  Nat.eqb n 40 || Nat.eqb n 41 || Nat.eqb n 91 || Nat.eqb n 93
  || Nat.eqb n 123 || Nat.eqb n 125 || Nat.eqb n 44.

(** [re.sub] with a pattern matching single characters: each matching
    character, left to right, is replaced by its replacement *)
Fixpoint sub_chars (f : Ascii.ascii -> option string) (s : string) : string :=
  match s with
  | EmptyString => EmptyString
  | String c s' =>
      match f c with
      | Some r => r ++ sub_chars f s'
      | None => String c (sub_chars f s')
      end
  end.

(** [s.replace(old, new)] for a non-empty [old]: the leftmost occurrence is
    replaced and the scan resumes after it; every step consumes at least
    one character, so [String.length s] steps are enough *)
Fixpoint replace_aux (fuel : nat) (old new s : string) : string :=
  match fuel, s with
  | O, _ => s
  | _, EmptyString => EmptyString
  | S f, String c s' =>
      if String.prefix old s
      then new ++ replace_aux f old new (substring (String.length old) (String.length s) s)
      else String c (replace_aux f old new s')
  end.

Definition py_replace (old new s : string) : string := replace_aux (String.length s) old new s.

(** [s.split(d)] for a one-character separator *)
Fixpoint split_on (d : Ascii.ascii) (s : string) : list string :=
  match s with
  | EmptyString => [EmptyString]
  | String c s' =>
      let parts := split_on d s' in
      if Ascii.eqb c d then EmptyString :: parts
      else match parts with
           | p :: ps => String c p :: ps
           | [] => [str1 c]
           end
  end.

Fixpoint lstrip (s : string) : string :=
  match s with
  | String c s' => if is_space c then lstrip s' else s
  | EmptyString => EmptyString
  end.

Fixpoint rstrip (s : string) : string :=
  match s with
  | String c s' =>
      match rstrip s' with
      | EmptyString => if is_space c then EmptyString else str1 c
      | r => String c r
      end
  | EmptyString => EmptyString
  end.

(** [s.strip()] *)
Definition py_strip (s : string) : string := rstrip (lstrip s).

Definition starts_space (s : string) : bool :=
  match s with String c _ => is_space c | EmptyString => false end.

(** [re.split('[\s\n]+', s)]: pieces between maximal runs of whitespace,
    with an empty piece before a leading run and after a trailing one *)
Fixpoint split_ws (s : string) : list string :=
  match s with
  | EmptyString => [EmptyString]
  | String c s' =>
      let parts := split_ws s' in
      if is_space c then (if starts_space s' then parts else EmptyString :: parts)
      else match parts with
           | p :: ps => String c p :: ps
           | [] => [str1 c]
           end
  end.

Definition placeholder (name : string) : string := "__BEDLAM_" ++ name.

Definition QUOTE : string := placeholder "QUOTE".
Definition SPACE : string := placeholder "SPACE".
Definition NEWLINE : string := placeholder "NEWLINE".

Definition pre_tokenize (i : nat) (segment : string) : string :=
  if Nat.odd i then
    (** inside a string literal *)
    py_replace (str1 newline) NEWLINE (py_replace (str1 space) SPACE segment)
  else
    let segment := sub_chars (fun c => if Ascii.eqb c space then Some (" " ++ SPACE ++ " ") else None) segment in
    let segment := sub_chars (fun c => if Ascii.eqb c newline then Some (" " ++ NEWLINE ++ " ") else None) segment in
    sub_chars (fun c => if is_bracket c then Some (" " ++ str1 c ++ " ") else None) segment.

(** [map(pre_tokenize, enumerate(segments))] *)
Fixpoint pre_all (i : nat) (segments : list string) : list string :=
  match segments with
  | [] => []
  | seg :: segs => pre_tokenize i seg :: pre_all (S i) segs
  end.

Definition tokenize (s : string) : list string :=
  let segments := pre_all 0 (split_on dquote (py_replace (String backslash (str1 dquote)) QUOTE s)) in
  split_ws (py_replace QUOTE (str1 dquote) (py_strip (String.concat (str1 dquote) segments))).

(** *** [int(token)] and [float(token)] *)

Definition digit_of (c : Ascii.ascii) : option Z :=
  let n := Ascii.nat_of_ascii c in
  if Nat.leb 48 n && Nat.leb n 57 then Some (Z.of_nat (n - 48)) else None.

(** a run of decimal digits with single underscores between digits, the
    digit syntax of [int()] and [float()]: its value and its number of
    digits *)
Fixpoint digitpart_aux (s : string) (acc : Z) (n : nat) (after_digit : bool) : option (Z * nat) :=
  match s with
  | EmptyString => if after_digit then Some (acc, n) else None
  | String c s' =>
      match digit_of c with
      | Some d => digitpart_aux s' (10 * acc + d)%Z (S n) true
      | None =>
          if Ascii.eqb c (chr 95) && after_digit then digitpart_aux s' acc n false else None
      end
  end.

Definition digitpart (s : string) : option (Z * nat) := digitpart_aux s 0 0 false.

(** an optional sign: [true] for [-] *)
Definition split_sign (s : string) : bool * string :=
  match s with
  | String c s' =>
      if Ascii.eqb c (chr 45) then (true, s')
      else if Ascii.eqb c (chr 43) then (false, s')
      else (false, s)
  | EmptyString => (false, s)
  end.

(** [sys.int_info.default_max_str_digits]: [int()] refuses longer input *)
Definition max_str_digits : nat := 4300.

(** [int(token)]: [None] for a [ValueError] *)
Definition py_int (s : string) : option Z :=
  let '(neg, body) := split_sign (py_strip s) in
  match digitpart body with
  | Some (v, n) => if Nat.ltb max_str_digits n then None else Some (if neg then (- v)%Z else v)
  | None => None
  end.

Definition lower (c : Ascii.ascii) : Ascii.ascii :=
  let n := Ascii.nat_of_ascii c in
  if Nat.leb 65 n && Nat.leb n 90 then chr (n + 32) else c.

Fixpoint lower_str (s : string) : string :=
  match s with
  | EmptyString => EmptyString
  | String c s' => String (lower c) (lower_str s')
  end.

(** the text before and after the first character satisfying [p] *)
Fixpoint split_first (p : Ascii.ascii -> bool) (s : string) : option (string * string) :=
  match s with
  | EmptyString => None
  | String c s' =>
      if p c then Some (EmptyString, s')
      else match split_first p s' with
           | Some (a, b) => Some (String c a, b)
           | None => None
           end
  end.

(** [m * 10^e] for [m] of at most [d] digits, correctly rounded to binary64
    (to nearest, ties to even), as [float()] rounds; the division is the
    one of [SFdiv].  An exponent over 309 with [m > 0] can only overflow,
    and [d + e <= -324] can only round to zero; those two cases are
    answered without computing the power. *)
Definition decimal_to_float (m : Z) (d : nat) (e : Z) : float :=
  SF2Prim
    (if Z.eqb m 0 then S754_zero false
     else if (309 <? e)%Z then S754_infinity false
     else if (0 <=? e)%Z then binary_normalize 53 1024 (m * 10 ^ e) 0 false
     else if (Z.of_nat d + e <=? -324)%Z then S754_zero false
     else let '(q, e', l) := SFdiv_core_binary 53 1024 m 0 (10 ^ (- e)) 0 in
          binary_round_aux 53 1024 false q e' l).

(** [float(token)]: [None] for a [ValueError] *)
Definition py_float (s : string) : option float :=
  let '(neg, body) := split_sign (py_strip s) in
  let sgn (f : float) := if neg then PrimFloat.opp f else f in
  let lb := lower_str body in
  if String.eqb lb "inf" || String.eqb lb "infinity" then Some (sgn PrimFloat.infinity)
  else if String.eqb lb "nan" then Some (sgn PrimFloat.nan)
  else
    let '(mant, exp) :=
      match split_first (fun c => Ascii.eqb c (chr 101) || Ascii.eqb c (chr 69)) body with
      | Some (a, b) => (a, Some b)
      | None => (body, None)
      end in
    let oexp :=
      match exp with
      | None => Some 0%Z
      | Some x =>
          let '(eneg, edigits) := split_sign x in
          match digitpart edigits with
          | Some (v, _) => Some (if eneg then (- v)%Z else v)
          | None => None
          end
      end in
    let omant :=
      match split_first (fun c => Ascii.eqb c (chr 46)) mant with
      | None => match digitpart mant with Some (v, n) => Some (v, n, 0) | None => None end
      | Some (ip, fp) =>
          match ip, fp with
          | EmptyString, EmptyString => None
          | EmptyString, _ => match digitpart fp with Some (v, n) => Some (v, n, n) | None => None end
          | _, EmptyString => match digitpart ip with Some (v, n) => Some (v, n, 0) | None => None end
          | _, _ =>
              match digitpart ip, digitpart fp with
              | Some (v, n), Some (w, k) => Some ((v * 10 ^ Z.of_nat k + w)%Z, (n + k)%nat, k)
              | _, _ => None
              end
          end
      end in
    match omant, oexp with
    | Some (m, d, k), Some e => Some (sgn (decimal_to_float m d (e - Z.of_nat k)))
    | _, _ => None
    end.

(** *** [build_ast] *)

(** what [build_ast] returns: [ast] at the end of the tokens, or the pair
    [(ast, tokens)] at a closing bracket *)
Inductive ast_result : Type :=
| AstList (ast : list value)
| AstTuple (ast : list value) (tokens : value).

Definition bracket_type (t : string) : option string :=
  if String.eqb t "(" then Some "call"
  else if String.eqb t "[" then Some "vec"
  else if String.eqb t "{" then Some "map"
  else None.

Definition is_closing (t : string) : bool :=
  String.eqb t ")" || String.eqb t "]" || String.eqb t "}".

Fixpoint count_newlines (s : string) : Z :=
  match s with
  | EmptyString => 0%Z
  | String c s' => ((if Ascii.eqb c newline then 1 else 0) + count_newlines s')%Z
  end.

(** [token[1:-1]] *)
Definition strip_ends (s : string) : string := substring 1 (String.length s - 2) s.

(** the location after [add_node(type, value, token)] *)
Definition advance (loc : Z * Z) (token : string) : Z * Z :=
  let new_lines := count_newlines token in
  (fst loc + new_lines, if Z.eqb new_lines 0 then snd loc + Z.of_nat (String.length token) else 0)%Z.

(** the node [add_node] appends for a token that is no bracket *)
Definition atom_node (token : string) (loc : Z * Z) : value :=
  let '(line, column) := loc in
  if match String.get 0 token with Some c => Ascii.eqb c dquote | None => false end
  then mk_node "string" (VStr (py_replace NEWLINE (str1 newline) (py_replace SPACE " " (strip_ends token)))) line column
  else match py_int token with
       | Some z => mk_node "int" (VInt z) line column
       | None =>
           match py_float token with
           | Some f => mk_node "float" (VFloat f) line column
           | None => mk_node "identifier" (VStr token) line column
           end
       end.

(** [build_ast(tokens, location)]: [ast] is the list built so far and
    [loc] the shared [location] dict; the [while] loop and the nested calls
    each take one unit of fuel *)
Fixpoint build_ast (fuel : nat) (tokens : value) (ast : list value) (loc : Z * Z)
    : result (ast_result * (Z * Z)) :=
  match fuel with
  | O => OutOfFuel
  | S f =>
      if negb (truthy tokens) then Ok (AstList ast, loc) else
      (** [token, *tokens = tokens] *)
      match py_iter tokens with
      | Ok (VStr token :: rest) =>
          if is_closing token then Ok (AstTuple ast (VList rest), loc)
          else if String.eqb token NEWLINE then build_ast f (VList rest) ast (fst loc + 1, 0)%Z
          else if String.eqb token SPACE || String.eqb token "," then
            build_ast f (VList rest) ast (fst loc, snd loc + 1)%Z
          else match bracket_type token with
          | Some type =>
              match build_ast f (VList rest) [] loc with
              | Ok (r, loc1) =>
                  (** [children, tokens = build_ast(tokens, location)] *)
                  match r with
                  | AstTuple children tokens' =>
                      build_ast f tokens' (ast ++ [mk_node type (VList children) (fst loc1) (snd loc1)])
                        (advance loc1 token)
                  | AstList [children; tokens'] =>
                      build_ast f tokens' (ast ++ [mk_node type children (fst loc1) (snd loc1)])
                        (advance loc1 token)
                  | AstList _ => Raise (HostError ValueError)
                  end
              | Raise e => Raise e
              | OutOfFuel => OutOfFuel
              end
          | None =>
              (** [token[0]] *)
              if String.eqb token "" then Raise (HostError IndexError)
              else build_ast f (VList rest) (ast ++ [atom_node token loc]) (advance loc token)
          end
      (** the tokens are strings: the split tokens, or the keys of a node *)
      | Ok _ => Raise (HostError TypeError)
      | Raise e => Raise e
      | OutOfFuel => OutOfFuel
      end
  end%list.

(** the fuel [parse] gives [build_ast]: the tokens, and three more (the keys
    of a node) for each unclosed bracket *)
Definition parse_fuel (tokens : list string) : nat := 4 * length tokens + 4.

(** [parse(s)] *)
Definition parse (s : string) : result ast_result :=
  let tokens := tokenize s in
  match build_ast (parse_fuel tokens) (VList (map VStr tokens)) [] (1, 0)%Z with
  | Ok (r, _) => Ok r
  | Raise e => Raise e
  | OutOfFuel => OutOfFuel
  end.

(** the object [parse] returns, as [interpret] iterates it: the list, or the
    pair *)
Definition ast_value (r : ast_result) : value :=
  match r with
  | AstList ast => VList ast
  | AstTuple ast tokens => VList [VList ast; tokens]
  end.

(** [bedlam(script, **scope)] (src/__init__.py): [scope] is the one keyword
    [interpret] accepts *)
Definition bedlam (fuel : nat) (_library : dict) (script : string) (scope : option nat) : M value :=
  fun s =>
    match parse script with
    | Ok r => interpret fuel _library (ast_value r) scope s
    | Raise e => (Raise e, s)
    | OutOfFuel => (OutOfFuel, s)
    end.

(** ** Nodes and states used in the statements *)

Definition ident (name : string) (line column : Z) : value := mk_node "identifier" (VStr name) line column.
Definition int_node (z : Z) (line column : Z) : value := mk_node "int" (VInt z) line column.
Definition string_node (s : string) (line column : Z) : value := mk_node "string" (VStr s) line column.
Definition call_node (xs : list value) (line column : Z) : value := mk_node "call" (VList xs) line column.
Definition vec_node (xs : list value) (line column : Z) : value := mk_node "vec" (VList xs) line column.

(** a top-level scope holding just the builtins, at address 0 *)
Definition builtins_state : state := mkState [_builtins] 0.

(** a parameter node of the parser's [identifier] type *)
Definition is_ident_node (p : value) : Prop := exists x l c, p = ident x l c.

(** a literal node of the parser ([int], [float] or [string]) holding [v] *)
Definition literal_of (a v : value) : Prop :=
  exists ty l c, (ty = "int" \/ ty = "float" \/ ty = "string") /\ a = mk_node ty v l c.

(** a program of top-level forms, evaluated by [interpret] in a fresh
    scope with an empty prelude *)
Definition run_program (fuel : nat) (forms : list value) : result value :=
  fst (interpret fuel [] (VList forms) None (mkState [] 0)).

(** [interpret]'s lines after the two updates: evaluate the forms in the
    scope at address [a], catch an [exit], take the last value *)
Definition interpret_body (fuel : nat) (ast : value) (a : nat) : M value :=
  r <- catch_return (evaluate_all (evaluate fuel) ast [a]) ;;
  match r with
  | inr v => ret v
  | inl result => lift (getitem (VList result) (VInt (-1)))
  end.

(** the address of [interpret]'s scope dict and the state before the two
    updates: the caller's dict, or a fresh empty one *)
Definition scope_address (scope : option nat) (s : state) : nat * state :=
  match scope with
  | None => (length (heap s), mkState (heap s ++ [[]]) (next_id s))
  | Some a => (a, s)
  end.

(** the caller's address, when given, is that of a scope dict *)
Definition scope_valid (scope : option nat) (s : state) : Prop :=
  match scope with None => True | Some a => a < length (heap s) end.

(** the state after [scope.update(_builtins)] and [scope.update(_library)]
    on the dict at address [a] *)
Definition merged_state (_library : dict) (a : nat) (s : state) : state :=
  mkState (replace_nth (heap s) a (dict_update (dict_update (nth a (heap s) []) _builtins) _library))
          (next_id s).

(** ** Definitions for the further properties *)

(** every character of [s] satisfies [p] *)
Fixpoint str_forall (p : Ascii.ascii -> bool) (s : string) : bool :=
  match s with
  | EmptyString => true
  | String c s' => p c && str_forall p s'
  end.

(** a character that [tokenize] keeps inside a word: no whitespace, no
    bracket or comma, no double quote, no backslash and no [_] (the
    placeholders start with it) *)
Definition plain_char (c : Ascii.ascii) : bool :=
  negb (is_space c) && negb (is_bracket c) && negb (Ascii.eqb c dquote)
  && negb (Ascii.eqb c backslash) && negb (Ascii.eqb c (chr 95)).

(** [s] holds no whitespace *)
Definition no_space (s : string) : bool := str_forall (fun c => negb (is_space c)) s.

(** a token [build_ast] turns into a node of its own: not a bracket, a
    placeholder, a comma or empty *)
Definition ordinary_token (t : string) : bool :=
  negb (is_closing t) && negb (String.eqb t NEWLINE) && negb (String.eqb t SPACE)
  && negb (String.eqb t ",") && negb (String.eqb t "(") && negb (String.eqb t "[")
  && negb (String.eqb t "{") && negb (String.eqb t "").

(** the 256 characters *)
Definition all_chars : list Ascii.ascii := map Ascii.ascii_of_nat (seq 0 256).

(** a decimal digit for [int()] *)
Definition is_digit (c : Ascii.ascii) : bool := match digit_of c with Some _ => true | None => false end.

(** [sublist l1 l2]: [l1] is [l2] with some elements left out, the
    others kept in order *)
Inductive sublist {A} : list A -> list A -> Prop :=
| sublist_nil : sublist [] []
| sublist_keep (x : A) (l1 l2 : list A) : sublist l1 l2 -> sublist (x :: l1) (x :: l2)
| sublist_skip (x : A) (l1 l2 : list A) : sublist l1 l2 -> sublist l1 (x :: l2).

(** an int or a float *)
Definition is_number (v : value) : Prop := (exists z, v = VInt z) \/ (exists f, v = VFloat f).

(** a parameter node that is an identifier other than the rest marker [&] *)
Definition plain_param (p : value) : Prop := exists x l c, p = ident x l c /\ x <> "&".

(** the consecutive pairs [(ws[0], ws[1]), (ws[2], ws[3]), ...]; an odd
    last element is left out *)
Fixpoint pairs (ws : list value) : list (value * value) :=
  match ws with
  | k :: v :: ws' => (k, v) :: pairs ws'
  | _ => []
  end.

(** [k1 v1 k2 v2 ...], the elements of a [let] binding vector *)
Fixpoint interleave (ks vs : list value) : list value :=
  match ks, vs with
  | k :: ks', v :: vs' => k :: v :: interleave ks' vs'
  | _, _ => []
  end.

(** [kn] is a node whose hashable value [k] is used as a key *)
Definition key_node (kn k : value) : Prop := getitem kn (VStr "value") = Ok k /\ hashable k = true.

(** a script made of words, spaces and newlines, piece by piece *)
Inductive piece : Type :=
| PWord (w : string)
| PSpace
| PNewline.

Definition piece_text (p : piece) : string :=
  match p with PWord w => w | PSpace => str1 space | PNewline => str1 newline end.

Fixpoint script_of (ps : list piece) : string :=
  match ps with [] => "" | p :: ps' => piece_text p ++ script_of ps' end.

(** each word is non-empty and made of [plain_char]s, and no two words are
    adjacent *)
Fixpoint pieces_ok (ps : list piece) : bool :=
  match ps with
  | [] => true
  | PWord w :: ps' =>
      negb (String.eqb w "") && str_forall plain_char w
      && match ps' with PWord _ :: _ => false | _ => true end && pieces_ok ps'
  | _ :: ps' => pieces_ok ps'
  end.

(** the nodes of the words, each with the location [build_ast] should
    give it: a word advances the column by its length, a space by one, and a
    newline starts the next line at column 0 *)
Fixpoint piece_nodes (ps : list piece) (line column : Z) : list value :=
  match ps with
  | [] => []
  | PWord w :: ps' => atom_node w (line, column) :: piece_nodes ps' line (column + Z.of_nat (String.length w))
  | PSpace :: ps' => piece_nodes ps' line (column + 1)
  | PNewline :: ps' => piece_nodes ps' (line + 1) 0
  end%Z.

(** the token [tokenize] produces for a piece *)
Definition piece_token (p : piece) : string :=
  match p with PWord w => w | PSpace => SPACE | PNewline => NEWLINE end.

(** a piece after [pre_tokenize] *)
Definition piece_image (p : piece) : string :=
  match p with PWord w => w | PSpace => " " ++ SPACE ++ " " | PNewline => " " ++ NEWLINE ++ " " end.

Fixpoint images (ps : list piece) : string :=
  match ps with [] => "" | p :: ps' => piece_image p ++ images ps' end.

(** [k] spaces *)
Fixpoint spaces (k : nat) : string :=
  match k with O => "" | S k' => String space (spaces k') end.

(** [old] differs from [a] at a position inside [a] *)
Fixpoint mism (old a : string) : bool :=
  match old, a with
  | String c o, String d a' => negb (Ascii.eqb c d) || mism o a'
  | _, _ => false
  end.

(** [old] occurs at no position of [a] *)
Fixpoint all_mism (old a : string) : bool :=
  match a with
  | EmptyString => true
  | String c a' => mism old a && all_mism old a'
  end.

(** a non-empty token without whitespace in which [QUOTE] does not occur *)
Definition tok_ok (t : string) : bool :=
  negb (String.eqb t "") && no_space t && all_mism QUOTE t.

(** [spaced s T]: [s] is the tokens [T] joined by runs of spaces *)
Inductive spaced : string -> list string -> Prop :=
| spaced_one (t : string) : tok_ok t = true -> spaced t [t]
| spaced_cons (t : string) (k : nat) (r : string) (T : list string) :
    tok_ok t = true -> spaced r T -> spaced (t ++ spaces (S k) ++ r) (t :: T).

(** [(/ 1 0)] *)
Definition div_zero_node : value := call_node [ident "/" 1 0; int_node 1 1 0; int_node 0 1 0] 1 0.

(** the value of [(partial + 1)] evaluated first, in scope [0] *)
Definition add_one : value :=
  VPartial 0 (call_node [ident "partial" 1 1; ident "+" 1 9; int_node 1 1 11] 1 0) (ident "+" 1 9) [int_node 1 1 11] [0].

(** ** Evaluation lemmas *)

Lemma bind_ok {A B} (m : M A) (k : A -> M B) (s s' : state) (a : A) :
  m s = (Ok a, s') -> bind m k s = k a s'.
Proof. intros H. unfold bind. rewrite H. reflexivity. Qed.

Lemma evaluate_ident (n : nat) (x : string) (line column : Z) (context : list nat) (s : state) (v : value) :
  scope_lookup (heap s) context (VStr x) = Some v ->
  evaluate (S n) (ident x line column) context s = (Ok v, s).
Proof. intros H. cbn -[scope_lookup]. rewrite H. reflexivity. Qed.
Lemma evaluate_call (n : nat) (name : value) (args : list value) (line column : Z)
    (context : list nat) (s s' : state) (fn : value) :
  evaluate n name context s = (Ok fn, s') ->
  is_function fn = true ->
  evaluate (S n) (call_node (name :: args) line column) context s
  = call_fn (evaluate n) fn args (call_node (name :: args) line column) context s'.
Proof.
  intros H F. cbn -[call_fn]. rewrite (bind_ok _ _ _ _ _ H). rewrite F. reflexivity.
Qed.

Lemma evaluate_builtin (n : nat) (b : string) (g : Ev -> list value -> value -> list nat -> M value)
    (args : list value) (line column lb cb : Z) (context : list nat) (s : state) :
  scope_lookup (heap s) context (VStr b) = Some (VBuiltin b) ->
  find_builtin b builtin_table = Some g ->
  evaluate (S (S n)) (call_node (ident b lb cb :: args) line column) context s
  = g (evaluate (S n)) args (call_node (ident b lb cb :: args) line column) context s.
Proof.
  intros H G.
  rewrite (evaluate_call _ _ _ _ _ _ _ s (VBuiltin b)); [| apply evaluate_ident; exact H | reflexivity].
  unfold call_fn. rewrite G. reflexivity.
Qed.

(** ** Claims *)

(** C2: an [if] call with three argument nodes evaluates its condition and
    then only the branch it selects; a [when] call with two argument nodes
    evaluates its body only when the condition is truthy and otherwise
    returns nil.  The untaken branch does not occur on the right-hand side:
    it is never evaluated. *)
Theorem if_when_take_one_branch (n : nat) (context : list nat) (s : state)
    (cond yes no : value) (line column li ci lw cw : Z) :
  scope_lookup (heap s) context (VStr "if") = Some (VBuiltin "if") ->
  scope_lookup (heap s) context (VStr "when") = Some (VBuiltin "when") ->
  evaluate (S (S n)) (call_node [ident "if" li ci; cond; yes; no] line column) context s
  = bind (evaluate (S n) cond context)
      (fun v => if truthy v then evaluate (S n) yes context else evaluate (S n) no context) s
  /\ evaluate (S (S n)) (call_node [ident "when" lw cw; cond; yes] line column) context s
  = bind (evaluate (S n) cond context)
      (fun v => if truthy v then evaluate (S n) yes context else ret VNone) s.
Proof.
  intros Hif Hwhen. split.
  - rewrite (evaluate_builtin _ _ fn_if); [reflexivity | exact Hif | reflexivity].
  - rewrite (evaluate_builtin _ _ fn_when); [reflexivity | exact Hwhen | reflexivity].
Qed.

(** [(if true 1 (/ 1 0))] is 1 and [(when false (/ 1 0))] is nil, without
    any error. *)
Lemma if_when_take_one_branch_witness :
  evaluate 3 (call_node [ident "if" 1 0; ident "true" 1 0; int_node 1 1 0;
                         call_node [ident "/" 1 0; int_node 1 1 0; int_node 0 1 0] 1 0] 1 0)
    [0] builtins_state = (Ok (VInt 1), builtins_state)
  /\ evaluate 3 (call_node [ident "when" 1 0; ident "false" 1 0;
                         call_node [ident "/" 1 0; int_node 1 1 0; int_node 0 1 0] 1 0] 1 0)
    [0] builtins_state = (Ok VNone, builtins_state).
Proof.
  destruct (if_when_take_one_branch 1 [0] builtins_state (ident "true" 1 0) (int_node 1 1 0)
              (call_node [ident "/" 1 0; int_node 1 1 0; int_node 0 1 0] 1 0) 1 0 1 0 1 0
              eq_refl eq_refl) as [Hif _].
  destruct (if_when_take_one_branch 1 [0] builtins_state (ident "false" 1 0)
              (call_node [ident "/" 1 0; int_node 1 1 0; int_node 0 1 0] 1 0) VNone 1 0 1 0 1 0
              eq_refl eq_refl) as [_ Hwhen].
  split; [rewrite Hif | rewrite Hwhen]; reflexivity.
Defined.

(** C5 (as amended): [+] applied to no argument node is 0, while [*]
    applied to no argument node fails its arity check ([min=1]) with the
    interpreter's arity error at the call node's location. *)
Theorem plus_zero_multiply_arity (n : nat) (context : list nat) (s : state)
    (line column lp cp lm cm : Z) :
  scope_lookup (heap s) context (VStr "+") = Some (VBuiltin "+") ->
  scope_lookup (heap s) context (VStr "*") = Some (VBuiltin "*") ->
  evaluate (S (S n)) (call_node [ident "+" lp cp] line column) context s = (Ok (VInt 0), s)
  /\ evaluate (S (S n)) (call_node [ident "*" lm cm] line column) context s
     = (Raise (InterpeterError ArityError (VInt line) (VInt column)), s).
Proof.
  intros Hp Hm. split.
  - rewrite (evaluate_builtin _ _ fn_plus); [reflexivity | exact Hp | reflexivity].
  - rewrite (evaluate_builtin _ _ fn_multiply); [reflexivity | exact Hm | reflexivity].
Qed.

Lemma plus_zero_multiply_arity_witness :
  evaluate 2 (call_node [ident "+" 1 0] 1 0) [0] builtins_state = (Ok (VInt 0), builtins_state)
  /\ evaluate 2 (call_node [ident "*" 1 0] 1 0) [0] builtins_state
     = (Raise (InterpeterError ArityError (VInt 1) (VInt 0)), builtins_state).
Proof. exact (plus_zero_multiply_arity 0 [0] builtins_state 1 0 1 0 1 0 eq_refl eq_refl). Defined.

(** C5 counterexample: [*] called with no argument does not evaluate to 1; it raises the arity
    error. *)
Lemma multiply_no_args_counterexample :
  fst (evaluate 2 (call_node [ident "*" 1 0] 1 0) [0] builtins_state) <> Ok (VInt 1)
  /\ fst (evaluate 2 (call_node [ident "*" 1 0] 1 0) [0] builtins_state)
     = Raise (InterpeterError ArityError (VInt 1) (VInt 0)).
Proof. split; [vm_compute; discriminate | reflexivity]. Qed.

(** C6: [and] and [or] first evaluate every argument node, left to right,
    and only then combine the values by truthiness: the result is the
    evaluation of the whole argument list bound to [all] / [any], so an
    error raised by any argument, even after the outcome is decided,
    is raised by the call. *)
Theorem and_or_evaluate_all (n : nat) (context : list nat) (s : state)
    (args : list value) (line column la ca lo co : Z) :
  scope_lookup (heap s) context (VStr "and") = Some (VBuiltin "and") ->
  scope_lookup (heap s) context (VStr "or") = Some (VBuiltin "or") ->
  evaluate (S (S n)) (call_node (ident "and" la ca :: args) line column) context s
  = bind (evaluate_list (evaluate (S n)) args context) (fun vs => ret (VBool (forallb truthy vs))) s
  /\ evaluate (S (S n)) (call_node (ident "or" lo co :: args) line column) context s
  = bind (evaluate_list (evaluate (S n)) args context) (fun vs => ret (VBool (existsb truthy vs))) s.
Proof.
  intros Ha Ho. split.
  - rewrite (evaluate_builtin _ _ fn_and); [reflexivity | exact Ha | reflexivity].
  - rewrite (evaluate_builtin _ _ fn_or); [reflexivity | exact Ho | reflexivity].
Qed.

(** [(or true (/ 1 0))] and [(and false (/ 1 0))] raise the division error. *)
Lemma and_or_evaluate_all_witness :
  evaluate 4 (call_node [ident "or" 1 0; ident "true" 1 0;
                         call_node [ident "/" 1 0; int_node 1 1 0; int_node 0 1 0] 1 0] 1 0)
    [0] builtins_state = (Raise (InterpeterError DivisionByZero (VInt 1) (VInt 0)), builtins_state)
  /\ evaluate 4 (call_node [ident "and" 1 0; ident "false" 1 0;
                         call_node [ident "/" 1 0; int_node 1 1 0; int_node 0 1 0] 1 0] 1 0)
    [0] builtins_state = (Raise (InterpeterError DivisionByZero (VInt 1) (VInt 0)), builtins_state).
Proof.
  destruct (and_or_evaluate_all 2 [0] builtins_state
              [ident "false" 1 0; call_node [ident "/" 1 0; int_node 1 1 0; int_node 0 1 0] 1 0]
              1 0 1 0 1 0 eq_refl eq_refl) as [Ha _].
  destruct (and_or_evaluate_all 2 [0] builtins_state
              [ident "true" 1 0; call_node [ident "/" 1 0; int_node 1 1 0; int_node 0 1 0] 1 0]
              1 0 1 0 1 0 eq_refl eq_refl) as [_ Ho].
  split; [rewrite Ho | rewrite Ha]; reflexivity.
Defined.

(** a monadic left fold *)
Fixpoint foldM {A B} (step : A -> B -> M A) (a : A) (xs : list B) : M A :=
  match xs with
  | [] => ret a
  | x :: xs' => a' <- step a x ;; foldM step a' xs'
  end.

Lemma bind_ret_l {A B} (a : A) (k : A -> M B) :
  bind (ret a) k = k a.
Proof. reflexivity. Qed.

Lemma bind_ext {A B} (m : M A) (k1 k2 : A -> M B) (s : state) :
  (forall a s', k1 a s' = k2 a s') -> bind m k1 s = bind m k2 s.
Proof. intros H. unfold bind. destruct (m s) as [[a | e |] s']; [apply H | reflexivity | reflexivity]. Qed.

Lemma bind_lift_ok {A B} (a : A) (k : A -> M B) (s : state) :
  bind (lift (Ok a)) k s = k a s.
Proof. reflexivity. Qed.

Lemma getitem_node_type (ty : string) (v : value) (line column : Z) :
  getitem (mk_node ty v line column) (VStr "type") = Ok (VStr ty).
Proof. reflexivity. Qed.

Lemma wrap_call_node (xs : list value) (ty : string) (v : value) (line column : Z) :
  wrap (call_node xs line column) (VStr ty) v = Ok (mk_node ty v line column).
Proof. reflexivity. Qed.

Lemma reduce_loop_foldM (ev : Ev) (f : value) (ty : string) (iv : value) (li ci line column : Z)
    (xs : list value) (context : list nat) (children : list value) (r : value) (s : state) :
  reduce_loop ev f (mk_node ty iv li ci) (call_node xs line column) context children r s
  = foldM (fun r x => ev (call_node [f; x; mk_node ty r line column] line column) context) r children s.
Proof.
  revert r s. induction children as [| x children IH]; intros r s; [reflexivity |].
  cbn [reduce_loop foldM].
  rewrite getitem_node_type, bind_lift_ok, wrap_call_node, bind_lift_ok, wrap_call_node, bind_lift_ok.
  unfold bind. fold (call_node [f; x; mk_node ty r line column] line column).
  destruct (ev (call_node [f; x; mk_node ty r line column] line column) context s)
    as [[a | e |] s']; [apply IH | reflexivity | reflexivity].
Qed.

(** C7: a [reduce] call with three argument nodes evaluates the init node,
    then folds from the left over the raw child nodes of the third argument
    node, whatever its tag (a vector, or a call whose nodes are never
    evaluated as a call): each step evaluates a call of the function node on the element
    node and on the accumulator wrapped back into a node that carries the
    init node's tag [ty] (at the location of the [reduce] call). *)
Theorem reduce_left_fold (n : nat) (context : list nat) (s : state)
    (f : value) (ty : string) (iv : value) (ty3 : string) (children : list value)
    (line column lr cr li ci lv cv : Z) :
  scope_lookup (heap s) context (VStr "reduce") = Some (VBuiltin "reduce") ->
  evaluate (S (S n))
    (call_node [ident "reduce" lr cr; f; mk_node ty iv li ci; mk_node ty3 (VList children) lv cv] line column)
    context s
  = bind (evaluate (S n) (mk_node ty iv li ci) context)
      (fun r0 => foldM (fun r x => evaluate (S n) (call_node [f; x; mk_node ty r line column] line column) context)
                   r0 children) s.
Proof.
  intros H. rewrite (evaluate_builtin _ _ fn_reduce); [| exact H | reflexivity].
  unfold fn_reduce. cbn -[evaluate reduce_loop foldM].
  apply bind_ext. intros r s'.
  rewrite bind_lift_ok. change (py_iter (VList children)) with (Ok (A := list value) children).
  rewrite bind_lift_ok. apply reduce_loop_foldM.
Qed.

(** [(reduce + 0 [1 2 3])] is 6, and so is [(reduce + 0 (1 2 3))]: the
    call node [(1 2 3)] is not evaluated, its child nodes are folded. *)
Lemma reduce_left_fold_witness :
  evaluate 4 (call_node [ident "reduce" 1 0; ident "+" 1 0; int_node 0 1 0;
                         vec_node [int_node 1 1 0; int_node 2 1 0; int_node 3 1 0] 1 0] 1 0)
    [0] builtins_state = (Ok (VInt 6), builtins_state)
  /\ evaluate 4 (call_node [ident "reduce" 1 0; ident "+" 1 0; int_node 0 1 0;
                           call_node [int_node 1 1 0; int_node 2 1 0; int_node 3 1 0] 1 0] 1 0)
    [0] builtins_state = (Ok (VInt 6), builtins_state).
Proof.
  split; etransitivity.
  - exact (reduce_left_fold 2 [0] builtins_state (ident "+" 1 0) "int" (VInt 0) "vec"
             [int_node 1 1 0; int_node 2 1 0; int_node 3 1 0] 1 0 1 0 1 0 1 0 eq_refl).
  - reflexivity.
  - exact (reduce_left_fold 2 [0] builtins_state (ident "+" 1 0) "int" (VInt 0) "call"
             [int_node 1 1 0; int_node 2 1 0; int_node 3 1 0] 1 0 1 0 1 0 1 0 eq_refl).
  - reflexivity.
Defined.

(** C3 (code bug): a [case] call with a subject and a non-empty, even
    number of further argument nodes whose keys all fail to match (the scan
    loop ends without a match) does not raise [CaseFailed]: [if default:]
    reads the local [default], which was never assigned, and Python raises
    [UnboundLocalError]. *)
Theorem case_no_match_unbound_default (n : nat) (context : list nat) (s s1 s2 : state)
    (subject : value) (pairs : list value) (v : value) (line column lc cc : Z) :
  scope_lookup (heap s) context (VStr "case") = Some (VBuiltin "case") ->
  pairs <> [] ->
  Nat.even (length pairs) = true ->
  evaluate (S n) subject context s = (Ok v, s1) ->
  case_loop (evaluate (S n)) v context pairs s1 = (Ok None, s2) ->
  evaluate (S (S n)) (call_node (ident "case" lc cc :: subject :: pairs) line column) context s
  = (Raise (HostError UnboundLocalError), s2).
Proof.
  intros H Hne Hev Hs Hloop.
  rewrite (evaluate_builtin _ _ fn_case); [| exact H | reflexivity].
  destruct pairs as [| p pairs']; [contradiction |].
  unfold fn_case. cbn [assert_arity length Nat.ltb Nat.leb negb].
  rewrite bind_ret_l. cbn [unpack_head]. rewrite bind_ret_l.
  rewrite (bind_ok _ _ _ _ _ Hs).
  assert (Hodd : Nat.odd (length (p :: pairs')) = false).
  { unfold Nat.odd. rewrite Hev. reflexivity. }
  rewrite Hodd. rewrite (bind_ok _ _ _ _ _ Hloop). reflexivity.
Qed.

(** [(case 5 1 "a")] raises [UnboundLocalError]. *)
Lemma case_no_match_unbound_default_witness :
  evaluate 3 (call_node [ident "case" 1 0; int_node 5 1 0; int_node 1 1 0; string_node "a" 1 0] 1 0)
    [0] builtins_state = (Raise (HostError UnboundLocalError), builtins_state).
Proof.
  exact (case_no_match_unbound_default 1 [0] builtins_state builtins_state builtins_state
           (int_node 5 1 0) [int_node 1 1 0; string_node "a" 1 0] (VInt 5) 1 0 1 0
           eq_refl ltac:(discriminate) eq_refl eq_refl eq_refl).
Defined.

Lemma check_params_idents (ps : list value) (s : state) :
  Forall is_ident_node ps -> check_params ps s = (Ok tt, s).
Proof.
  induction 1 as [| p ps' [x [l [c ->]]] _ IH]; [reflexivity |].
  cbn [check_params]. unfold bind, lift. cbn. exact IH.
Qed.

(** C4 (code bug): evaluating a [fn] form whose parameter vector holds only
    identifier nodes always succeeds with a new function, whatever the
    number of ["&"] markers: the "Only one rest argument" check sits inside
    the closure and runs when the function is called, not when it is
    defined. *)
Theorem fn_definition_never_checks_rest (n : nat) (context : list nat) (s : state)
    (ps : list value) (body : value) (line column lf cf lv cv : Z) :
  scope_lookup (heap s) context (VStr "fn") = Some (VBuiltin "fn") ->
  Forall is_ident_node ps ->
  evaluate (S (S n)) (call_node [ident "fn" lf cf; vec_node ps lv cv; body] line column) context s
  = (Ok (VClosure (next_id s) (vec_node ps lv cv) body
           (call_node [ident "fn" lf cf; vec_node ps lv cv; body] line column) context),
     mkState (heap s) (S (next_id s))).
Proof.
  intros H Hps.
  rewrite (evaluate_builtin _ _ (fun _ => fn_fn)); [| exact H | reflexivity].
  unfold fn_fn. cbn [assert_arity length Nat.ltb Nat.leb negb].
  rewrite bind_ret_l. cbn [unpack2]. rewrite bind_ret_l.
  unfold bind at 1. cbn [lift].
  change (rbind (getitem (vec_node ps lv cv) (VStr "value")) py_iter) with (Ok ps).
  unfold bind. rewrite (check_params_idents _ _ Hps). reflexivity.
Qed.

(** [(fn [& a & b] a)] evaluates to a function without error, and calling
    it, [((fn [& a & b] a) 1)], raises the rest-argument error only then. *)
Lemma fn_definition_never_checks_rest_witness :
  evaluate 3 (call_node [ident "fn" 1 1; vec_node [ident "&" 1 5; ident "a" 1 7; ident "&" 1 9; ident "b" 1 11] 1 4;
                         ident "a" 1 14] 1 0) [0] builtins_state
  = (Ok (VClosure 0 (vec_node [ident "&" 1 5; ident "a" 1 7; ident "&" 1 9; ident "b" 1 11] 1 4) (ident "a" 1 14)
           (call_node [ident "fn" 1 1; vec_node [ident "&" 1 5; ident "a" 1 7; ident "&" 1 9; ident "b" 1 11] 1 4;
                       ident "a" 1 14] 1 0) [0]),
     mkState [_builtins] 1)
  /\ fst (evaluate 5 (call_node [call_node [ident "fn" 1 2; vec_node [ident "&" 1 5; ident "a" 1 7; ident "&" 1 9; ident "b" 1 11] 1 4;
                                           ident "a" 1 14] 1 1; int_node 1 1 17] 1 0) [0] builtins_state)
     = Raise (InterpeterError OnlyOneRest (VInt 1) (VInt 1)).
Proof.
  split.
  - apply (fn_definition_never_checks_rest 1 [0] builtins_state); [reflexivity |].
    repeat constructor; eexists; eexists; eexists; reflexivity.
  - vm_compute. reflexivity.
Defined.

Lemma bind_cong {A B} (m1 m2 : M A) (k1 k2 : A -> M B) (s : state) :
  m1 s = m2 s -> (forall a s', k1 a s' = k2 a s') -> bind m1 k1 s = bind m2 k2 s.
Proof.
  intros Hm Hk. unfold bind. rewrite Hm.
  destruct (m2 s) as [[a | e |] s']; [apply Hk | reflexivity | reflexivity].
Qed.

Section ArgumentCongruence.

(** Two argument lists that evaluate alike, element by element, in two
    caller contexts. *)
Variable ev : Ev.
Variables caller1 caller2 : list nat.
Variables args1 args2 : list value.
Hypothesis args_rel : Forall2 (fun a b => forall s, ev a caller1 s = ev b caller2 s) args1 args2.

Lemma evaluate_list_rel (l1 l2 : list value) (s : state) :
  Forall2 (fun a b => forall s, ev a caller1 s = ev b caller2 s) l1 l2 ->
  evaluate_list ev l1 caller1 s = evaluate_list ev l2 caller2 s.
Proof.
  intros H. revert s. induction H as [| a b l1' l2' Hab _ IH]; intros s; [reflexivity |].
  cbn [evaluate_list]. apply bind_cong; [apply Hab |].
  intros v s'. apply bind_cong; [apply IH |]. intros; reflexivity.
Qed.

Lemma skipn_rel (i : nat) :
  Forall2 (fun a b => forall s, ev a caller1 s = ev b caller2 s) (skipn i args1) (skipn i args2).
Proof.
  revert i. induction args_rel as [| a b l1' l2' Hab Hl IH]; intros i.
  - rewrite !skipn_nil. constructor.
  - destruct i; [constructor; assumption |]. exact (IH Hl i).
Qed.

Lemma nth_error_rel (i : nat) :
  match nth_error args1 i, nth_error args2 i with
  | Some a, Some b => forall s, ev a caller1 s = ev b caller2 s
  | None, None => True
  | _, _ => False
  end.
Proof.
  revert i. induction args_rel as [| a b l1' l2' Hab Hl IH]; intros i.
  - destruct i; exact I.
  - destruct i; [exact Hab | exact (IH Hl i)].
Qed.

Lemma bind_params_rel (params : value) (ps : list value) (i : nat) (ns : dict) (last : option nat) (s : state) :
  bind_params ev params args1 caller1 ps i ns last s = bind_params ev params args2 caller2 ps i ns last s.
Proof.
  revert i ns last s. induction ps as [| p ps IH]; intros i ns last s; [reflexivity |].
  cbn [bind_params]. apply bind_cong; [reflexivity |]. intros pv s1.
  destruct (py_eq pv (VStr "&")).
  - apply bind_cong; [apply evaluate_list_rel, skipn_rel | intros; reflexivity].
  - pose proof (nth_error_rel i) as R.
    destruct (nth_error args1 i) as [a |], (nth_error args2 i) as [b |];
      try contradiction; [| reflexivity].
    rewrite !bind_lift_ok.
    apply bind_cong; [exact (R s1) |]. intros v s2.
    apply bind_cong; [reflexivity |]. intros key s3.
    apply bind_cong; [reflexivity |]. intros ns' s4. apply IH.
Qed.

(** A call of a user function depends on its argument nodes and on the
    caller's context only through the evaluation of those nodes in that
    context: the body runs in a frame whose parent chain is the captured
    [context]. *)
Lemma call_closure_rel (params body node : value) (context : list nat)
    (cnode1 cnode2 : value) (s : state) :
  call_closure ev params body node context args1 cnode1 caller1 s
  = call_closure ev params body node context args2 cnode2 caller2 s.
Proof.
  unfold call_closure. apply bind_cong; [reflexivity |]. intros ps s1.
  apply bind_cong; [apply bind_params_rel |]. intros [ns last] s2. reflexivity.
Qed.

End ArgumentCongruence.

(** X1: calling a user function from two caller contexts in which its
    argument nodes evaluate alike gives the same result: a binding in the
    caller's scope that the argument nodes do not read never reaches the
    body, which runs in a frame whose parent chain is the captured context. *)
Lemma call_closure_caller_independent (ev : Ev) (caller1 caller2 : list nat) (args : list value)
    (params body node : value) (context : list nat) (cnode1 cnode2 : value) (s : state) :
  (forall a, In a args -> forall s, ev a caller1 s = ev a caller2 s) ->
  call_closure ev params body node context args cnode1 caller1 s
  = call_closure ev params body node context args cnode2 caller2 s.
Proof.
  intros H. apply call_closure_rel.
  induction args as [| a args IH]; constructor.
  - apply H. left. reflexivity.
  - apply IH. intros b Hb. apply H. right. exact Hb.
Qed.

(** A call of [(fn [y] x)] defined in scope [0], with the literal argument
    [2], from the caller [1; 0] binding [x] to [99] and from scope [0]. *)
Lemma call_closure_caller_independent_witness :
  (forall a, In a [int_node 2 1 3] -> forall s, evaluate 3 a [1; 0] s = evaluate 3 a [0] s)
  /\ call_closure (evaluate 3) (vec_node [ident "y" 1 5] 1 4) (ident "x" 1 8) (int_node 0 1 0) [0]
       [int_node 2 1 3] (int_node 0 1 0) [1; 0]
       (mkState [[(VStr "x", VInt 1)]; [(VStr "x", VInt 99)]] 0)
     = call_closure (evaluate 3) (vec_node [ident "y" 1 5] 1 4) (ident "x" 1 8) (int_node 0 1 0) [0]
         [int_node 2 1 3] (int_node 0 1 0) [0]
         (mkState [[(VStr "x", VInt 1)]; [(VStr "x", VInt 99)]] 0).
Proof.
  assert (H : forall a, In a [int_node 2 1 3] -> forall s, evaluate 3 a [1; 0] s = evaluate 3 a [0] s).
  { intros a [<- | []] s. reflexivity. }
  split; [exact H |].
  exact (call_closure_caller_independent (evaluate 3) [1; 0] [0] [int_node 2 1 3] _ _ _ _ _ _ _ H).
Defined.

(** X2: [(defn mk [x] (fn [y] x)) (let [g (mk 1) x 99] (g 2))] gives [1]: the
    returned function reads the [x] of the finished call of [mk], not the
    [x] of the [let] around the call site. *)
Lemma lexical_scope_example :
  run_program 50
    [call_node [ident "defn" 1 1; ident "mk" 1 6; vec_node [ident "x" 1 10] 1 9;
                call_node [ident "fn" 1 14; vec_node [ident "y" 1 18] 1 17; ident "x" 1 21] 1 13] 1 0;
     call_node [ident "let" 2 1; vec_node [ident "g" 2 6; call_node [ident "mk" 2 9; int_node 1 2 12] 2 8;
                                           ident "x" 2 15; int_node 99 2 17] 2 5;
                call_node [ident "g" 2 22; int_node 2 2 24] 2 21] 2 0]
  = Ok (VInt 1).
Proof. vm_compute. reflexivity. Qed.

(** C1 (code bug): calling a user function whose parameter vector is empty
    never creates its frame nor evaluates its body: the check
    [len(params['value']) > i + 2] after the parameter loop reads the loop
    variable [i], which the loop never bound, and Python raises
    [UnboundLocalError].  This holds for every body, captured context,
    caller and state; so [(defn mk [x] (fn [] x)) ((mk 1))], whose
    returned function should read the [x] of [mk]'s finished call, fails. *)
Theorem zero_param_call_unbound_local :
  (forall (ev : Ev) (id : nat) (lv cv : Z) (body dnode : value) (dcontext : list nat)
          (args : list value) (cnode : value) (ccontext : list nat) (s : state),
      call_fn ev (VClosure id (vec_node [] lv cv) body dnode dcontext) args cnode ccontext s
      = (Raise (HostError UnboundLocalError), s))
  /\ run_program 50
       [call_node [ident "defn" 1 1; ident "mk" 1 6; vec_node [ident "x" 1 10] 1 9;
                   call_node [ident "fn" 1 14; vec_node [] 1 17; ident "x" 1 20] 1 13] 1 0;
        call_node [call_node [ident "mk" 2 2; int_node 1 2 5] 2 1] 2 0]
     = Raise (HostError UnboundLocalError).
Proof.
  split.
  - intros. reflexivity.
  - vm_compute. reflexivity.
Qed.

Lemma evaluate_literal (k : nat) (a v : value) (context : list nat) (s : state) :
  literal_of a v -> evaluate (S k) a context s = (Ok v, s).
Proof.
  intros [ty [l [c [Hty ->]]]].
  destruct Hty as [-> | [-> | ->]]; reflexivity.
Qed.

Lemma evaluate_any (k : nat) (v : value) (line column : Z) (context : list nat) (s : state) :
  evaluate (S k) (mk_node "any" v line column) context s = (Ok v, s).
Proof. reflexivity. Qed.

Lemma evaluate_list_literals (k : nat) (lits vals : list value) (context : list nat) (s : state) :
  Forall2 literal_of lits vals -> evaluate_list (evaluate (S k)) lits context s = (Ok vals, s).
Proof.
  induction 1 as [| a v lits' vals' Ha _ IH]; [reflexivity |].
  cbn [evaluate_list]. rewrite (bind_ok _ _ _ _ _ (evaluate_literal k a v context s Ha)).
  rewrite (bind_ok _ _ _ _ _ IH). reflexivity.
Qed.

Lemma evaluate_vec_literals (k : nat) (lits vals : list value) (lv cv : Z) (context : list nat) (s : state) :
  Forall2 literal_of lits vals -> evaluate (S (S k)) (vec_node lits lv cv) context s = (Ok (VList vals), s).
Proof.
  intros H.
  transitivity (bind (evaluate_list (evaluate (S k)) lits context) (fun vs => ret (VList vs)) s);
    [reflexivity |].
  rewrite (bind_ok _ _ _ _ _ (evaluate_list_literals k lits vals context s H)). reflexivity.
Qed.

Lemma wrap_all_call_node (xs vals : list value) (line column : Z) :
  wrap_all (call_node xs line column) vals = Ok (map (fun v => mk_node "any" v line column) vals).
Proof. induction vals as [| v vals IH]; [reflexivity |]. cbn [wrap_all map]. rewrite IH. reflexivity. Qed.

(** C8 (corrected): [apply] evaluates the whole vector before the call and
    passes the values as [any] nodes; when [f] names a user function and the
    vector holds literal nodes, the result is that of the direct call
    [(f a1 ... an)] (the direct call runs one nesting level lower, hence the
    fuel of one less). *)
Theorem apply_user_function_literals (m : nat) (context : list nat) (s : state) (fname : string)
    (id : nat) (params body dnode : value) (dcontext : list nat) (lits vals : list value)
    (line column la ca lf cf lv cv line' column' lf' cf' : Z) :
  scope_lookup (heap s) context (VStr "apply") = Some (VBuiltin "apply") ->
  scope_lookup (heap s) context (VStr fname) = Some (VClosure id params body dnode dcontext) ->
  Forall2 literal_of lits vals ->
  evaluate (S (S (S m))) (call_node [ident "apply" la ca; ident fname lf cf; vec_node lits lv cv] line column) context s
  = evaluate (S (S m)) (call_node (ident fname lf' cf' :: lits) line' column') context s.
Proof.
  intros Ha Hf Hl.
  rewrite (evaluate_builtin (S m) "apply" fn_apply); [| exact Ha | reflexivity].
  unfold fn_apply. cbn [assert_arity length Nat.eqb negb].
  rewrite bind_ret_l. cbn [unpack2]. rewrite bind_ret_l.
  rewrite (bind_ok _ _ _ _ _ (evaluate_vec_literals m lits vals lv cv context s Hl)).
  change (py_iter (VList vals)) with (Ok vals).
  rewrite bind_lift_ok. rewrite wrap_all_call_node, bind_lift_ok.
  rewrite wrap_call_node, bind_lift_ok.
  set (clos := VClosure id params body dnode dcontext).
  transitivity (call_fn (evaluate (S m)) clos (map (fun v => mk_node "any" v line column) vals)
                  (call_node (ident fname lf cf :: map (fun v => mk_node "any" v line column) vals) line column)
                  context s).
  { apply evaluate_call; [apply evaluate_ident; exact Hf | reflexivity]. }
  symmetry.
  transitivity (call_fn (evaluate (S m)) clos lits (call_node (ident fname lf' cf' :: lits) line' column') context s).
  { apply evaluate_call; [apply evaluate_ident; exact Hf | reflexivity]. }
  unfold call_fn, clos. apply call_closure_rel.
  clear Ha Hf. induction Hl as [| a v lits' vals' Hav _ IH]; constructor; [| exact IH].
  intros s'. rewrite (evaluate_literal m a v context s' Hav). reflexivity.
Qed.

(** With [(defn f [& xs] xs)] in scope, [(apply f [1 "a" 2])] and
    [(f 1 "a" 2)] both give [[1, "a", 2]]. *)
Lemma apply_user_function_literals_witness :
  let s := mkState [_builtins; [(VStr "f", VClosure 0 (vec_node [ident "&" 1 9; ident "xs" 1 11] 1 8)
                                            (ident "xs" 1 15) (int_node 0 1 0) [0])]] 1 in
  (scope_lookup (heap s) [1; 0] (VStr "apply") = Some (VBuiltin "apply")
   /\ evaluate 6 (call_node [ident "apply" 2 1; ident "f" 2 7; vec_node [int_node 1 2 10; string_node "a" 2 12; int_node 2 2 16] 2 9] 2 0) [1; 0] s
      = evaluate 5 (call_node [ident "f" 3 1; int_node 1 3 3; string_node "a" 3 5; int_node 2 3 9] 3 0) [1; 0] s)
  /\ fst (evaluate 5 (call_node [ident "f" 3 1; int_node 1 3 3; string_node "a" 3 5; int_node 2 3 9] 3 0) [1; 0] s)
     = Ok (VList [VInt 1; VStr "a"; VInt 2]).
Proof.
  intros s. split; [split; [reflexivity |] | vm_compute; reflexivity].
  apply (apply_user_function_literals 3 [1; 0] s "f" 0 (vec_node [ident "&" 1 9; ident "xs" 1 11] 1 8)
           (ident "xs" 1 15) (int_node 0 1 0) [0]
           [int_node 1 2 10; string_node "a" 2 12; int_node 2 2 16] [VInt 1; VStr "a"; VInt 2]
           2 0 2 1 2 7 2 9 3 0 3 1);
    [reflexivity | reflexivity |].
  repeat (apply Forall2_cons; [do 3 eexists; split; [| reflexivity]; auto |]).
  apply Forall2_nil.
Defined.

(** C8: [apply] does not match the direct call for [if]: the vector is
    evaluated eagerly, so [(apply if [true 1 (/ 1 0)])] raises the division
    error while [(if true 1 (/ 1 0))] gives [1]. *)
Lemma apply_if_counterexample :
  fst (evaluate 10 (call_node [ident "apply" 1 1; ident "if" 1 7;
                               vec_node [ident "true" 1 11; int_node 1 1 16;
                                         call_node [ident "/" 1 19; int_node 1 1 21; int_node 0 1 23] 1 18] 1 10] 1 0)
         [0] builtins_state)
  = Raise (InterpeterError DivisionByZero (VInt 1) (VInt 18))
  /\ fst (evaluate 10 (call_node [ident "if" 1 1; ident "true" 1 4; int_node 1 1 9;
                                  call_node [ident "/" 1 12; int_node 1 1 14; int_node 0 1 16] 1 11] 1 0)
            [0] builtins_state)
     = Ok (VInt 1).
Proof. split; vm_compute; reflexivity. Qed.

(** *** [interpret] *)

Lemma nth_replace_nth_same {A} (l : list A) (a : nat) (x d : A) :
  a < length l -> nth a (replace_nth l a x) d = x.
Proof.
  revert a. induction l as [| y l IH]; intros a H; [cbn in H; lia |].
  destruct a; [reflexivity |]. cbn. apply IH. cbn in H. lia.
Qed.

Lemma replace_nth_twice {A} (l : list A) (a : nat) (x y : A) :
  replace_nth (replace_nth l a x) a y = replace_nth l a y.
Proof.
  revert a. induction l as [| z l IH]; intros a; [reflexivity |].
  destruct a; [reflexivity |]. cbn. rewrite IH. reflexivity.
Qed.

Lemma interpret_setup (fuel : nat) (_library : dict) (ast : value) (scope : option nat) (s : state) :
  scope_valid scope s ->
  interpret fuel _library ast scope s
  = interpret_body fuel ast (fst (scope_address scope s))
      (merged_state _library (fst (scope_address scope s)) (snd (scope_address scope s))).
Proof.
  intros Hv.
  assert (Ha : fst (scope_address scope s) < length (heap (snd (scope_address scope s)))).
  { destruct scope as [a |]; cbn in *; [exact Hv |]. rewrite length_app. cbn. lia. }
  unfold interpret.
  transitivity ((update_frame (fst (scope_address scope s)) _builtins ;;
                 update_frame (fst (scope_address scope s)) _library ;;
                 interpret_body fuel ast (fst (scope_address scope s))) (snd (scope_address scope s))).
  { destruct scope; reflexivity. }
  revert Ha. generalize (scope_address scope s) as p. intros [a s'] Ha. cbn [fst snd] in *.
  unfold update_frame, bind, read_frame, write_frame. cbn [heap next_id].
  rewrite nth_replace_nth_same by exact Ha.
  rewrite replace_nth_twice. reflexivity.
Qed.

Lemma py_eq_str_r (x : value) (k : string) : py_eq x (VStr k) = true <-> x = VStr k.
Proof.
  destruct x; cbn; split; intros H; try discriminate; try (injection H as <-);
    try (apply String.eqb_eq in H; subst); try reflexivity;
    try (apply String.eqb_refl).
Qed.

Lemma py_eq_str_l (x : value) (k : string) : py_eq (VStr k) x = true <-> x = VStr k.
Proof.
  destruct x; cbn; split; intros H; try discriminate; try (injection H as <-);
    try (apply String.eqb_eq in H; subst); try reflexivity;
    try (apply String.eqb_refl).
Qed.

Lemma dict_get_set_str (d : dict) (k' v : value) (k : string) :
  dict_get (dict_set d k' v) (VStr k) = if py_eq k' (VStr k) then Some v else dict_get d (VStr k).
Proof.
  induction d as [| [k0 v0] t IH]; [reflexivity |].
  cbn [dict_set dict_get].
  destruct (py_eq k0 k') eqn:E0.
  - cbn [dict_get].
    destruct (py_eq k0 (VStr k)) eqn:E1.
    + apply py_eq_str_r in E1. subst k0. apply py_eq_str_l in E0. subst k'.
      rewrite (proj2 (py_eq_str_r _ _) eq_refl). reflexivity.
    + destruct (py_eq k' (VStr k)) eqn:E2; [| reflexivity].
      apply py_eq_str_r in E2. subst k'.
      rewrite E0 in E1. discriminate.
  - cbn [dict_get]. destruct (py_eq k0 (VStr k)) eqn:E1; [| exact IH].
    apply py_eq_str_r in E1. subst k0.
    destruct (py_eq k' (VStr k)) eqn:E2; [| reflexivity].
    apply py_eq_str_r in E2. subst k'. rewrite (proj2 (py_eq_str_r _ _) eq_refl) in E0. discriminate.
Qed.

Lemma dict_update_absent (d e : dict) (k : string) :
  dict_get e (VStr k) = None -> dict_get (dict_update d e) (VStr k) = dict_get d (VStr k).
Proof.
  revert d. induction e as [| [k' v] e IH]; intros d H; [reflexivity |].
  cbn [dict_get] in H. destruct (py_eq k' (VStr k)) eqn:E; [discriminate |].
  unfold dict_update. cbn [fold_left fst snd]. fold (dict_update (dict_set d k' v) e).
  rewrite IH by exact H. rewrite dict_get_set_str, E. reflexivity.
Qed.

Lemma dict_update_present (d d' e : dict) (k : string) :
  dict_get e (VStr k) <> None ->
  dict_get (dict_update d e) (VStr k) = dict_get (dict_update d' e) (VStr k)
  /\ dict_get (dict_update d e) (VStr k) <> None.
Proof.
  revert d d'. induction e as [| [k' v] e IH]; intros d d' H; [contradiction |].
  unfold dict_update. cbn [fold_left fst snd].
  fold (dict_update (dict_set d k' v) e). fold (dict_update (dict_set d' k' v) e).
  destruct (dict_get e (VStr k)) eqn:Ee.
  - apply IH. discriminate.
  - rewrite !dict_update_absent by exact Ee. rewrite !dict_get_set_str.
    cbn [dict_get] in H. destruct (py_eq k' (VStr k)); [| contradiction].
    split; [reflexivity | discriminate].
Qed.

(** C9: given the caller's dict at address [a], [interpret] first rewrites
    that very dict, in the caller's heap, to the dict updated with the
    builtins and then with the prelude, and runs the program on it; for a
    name bound by the builtins or the prelude, the lookup the program sees
    at its start is the one it would see had the caller's dict been empty
    (the library's binding first, else the builtin's), and it is defined. *)
Theorem interpret_overwrites_caller_scope (fuel : nat) (_library : dict) (ast : value) (a : nat)
    (s : state) (k : string) :
  a < length (heap s) ->
  interpret fuel _library ast (Some a) s = interpret_body fuel ast a (merged_state _library a s)
  /\ (dict_get _builtins (VStr k) <> None \/ dict_get _library (VStr k) <> None ->
      scope_lookup (heap (merged_state _library a s)) [a] (VStr k)
      = dict_get (dict_update (dict_update [] _builtins) _library) (VStr k)
      /\ scope_lookup (heap (merged_state _library a s)) [a] (VStr k) <> None).
Proof.
  intros Ha. split; [exact (interpret_setup fuel _library ast (Some a) s Ha) |].
  intros Hk.
  assert (E : dict_get (dict_update (dict_update (nth a (heap s) []) _builtins) _library) (VStr k)
              = dict_get (dict_update (dict_update [] _builtins) _library) (VStr k)
              /\ dict_get (dict_update (dict_update (nth a (heap s) []) _builtins) _library) (VStr k) <> None).
  { destruct (dict_get _library (VStr k)) eqn:El.
    - apply dict_update_present. rewrite El. discriminate.
    - rewrite (dict_update_absent (dict_update (nth a (heap s) []) _builtins) _library k El).
      rewrite (dict_update_absent (dict_update [] _builtins) _library k El).
      destruct Hk as [Hb | Hl]; [| contradiction].
      apply dict_update_present. exact Hb. }
  cbn [scope_lookup merged_state heap]. rewrite nth_replace_nth_same by exact Ha.
  destruct E as [E1 E2].
  destruct (dict_get (dict_update (dict_update (nth a (heap s) []) _builtins) _library) (VStr k)) eqn:Eg;
    [| contradiction].
  split; [exact E1 | discriminate].
Qed.

(** A caller's dict binding [+] to [7] and [nil] to [3], with a prelude
    binding [nil] to ["lib"]: the program [[+ nil]] sees the builtin [+]
    and the prelude's [nil], and afterwards the caller's dict holds them. *)
Lemma interpret_overwrites_caller_scope_witness :
  let s := mkState [[(VStr "+", VInt 7); (VStr "nil", VInt 3)]] 0 in
  let lib := [(VStr "nil", VStr "lib")] in
  let prog := VList [vec_node [ident "+" 1 1; ident "nil" 1 3] 1 0] in
  (interpret 3 lib prog (Some 0) s = interpret_body 3 prog 0 (merged_state lib 0 s)
   /\ (dict_get _builtins (VStr "+") <> None \/ dict_get lib (VStr "+") <> None ->
       scope_lookup (heap (merged_state lib 0 s)) [0] (VStr "+")
       = dict_get (dict_update (dict_update [] _builtins) lib) (VStr "+")
       /\ scope_lookup (heap (merged_state lib 0 s)) [0] (VStr "+") <> None))
  /\ fst (interpret 3 lib prog (Some 0) s) = Ok (VList [VBuiltin "+"; VStr "lib"])
  /\ dict_get (nth 0 (heap (snd (interpret 3 lib prog (Some 0) s))) []) (VStr "+") = Some (VBuiltin "+").
Proof.
  intros s lib prog. split; [| split; vm_compute; reflexivity].
  apply (interpret_overwrites_caller_scope 3 lib prog 0 s "+"). cbn. lia.
Defined.

Lemma evaluate_list_snoc (ev : Ev) (pre : list value) (x : value) (context : list nat)
    (vs : list value) (v : value) (s s1 s2 : state) :
  evaluate_list ev pre context s = (Ok vs, s1) ->
  ev x context s1 = (Ok v, s2) ->
  evaluate_list ev (pre ++ [x])%list context s = (Ok (vs ++ [v])%list, s2).
Proof.
  revert vs s. induction pre as [| y pre IH]; intros vs s Hpre Hx.
  - cbn in Hpre. injection Hpre as <- <-. cbn. rewrite (bind_ok _ _ _ _ _ Hx). reflexivity.
  - cbn [evaluate_list app] in *. unfold bind at 1 in Hpre. unfold bind at 1.
    destruct (ev y context s) as [[w | e |] s'] eqn:Ey; try discriminate.
    unfold bind at 1 in Hpre.
    destruct (evaluate_list ev pre context s') as [[ws | e |] s''] eqn:Ep; try discriminate.
    cbn in Hpre. injection Hpre as <- <-.
    rewrite (bind_ok _ _ _ _ _ (IH ws s' Ep Hx)). reflexivity.
Qed.

Lemma getitem_last (vs : list value) (v : value) :
  getitem (VList (vs ++ [v])%list) (VInt (-1)) = Ok v.
Proof.
  unfold getitem. cbn [num_of]. rewrite length_app. cbn [length].
  unfold py_index.
  replace (-1 <? 0)%Z with true by reflexivity.
  replace (-1 + Z.of_nat (length vs + 1))%Z with (Z.of_nat (length vs)) by lia.
  replace ((0 <=? Z.of_nat (length vs))%Z && (Z.of_nat (length vs) <? Z.of_nat (length vs + 1))%Z)
    with true by (symmetry; apply andb_true_intro; split; [apply Z.leb_le | apply Z.ltb_lt]; lia).
  rewrite Nat2Z.id, nth_error_app2 by lia. rewrite Nat.sub_diag. reflexivity.
Qed.

(** C10: [interpret] on an empty list of forms raises Python's
    [IndexError] (from [result[-1]]); on [pre ++ [x]], when the forms of
    [pre] and then [x] evaluate without an exit, it returns the value of
    [x]. *)
Theorem interpret_last_value (fuel : nat) (_library : dict) (scope : option nat) (s : state) :
  scope_valid scope s ->
  fst (interpret fuel _library (VList []) scope s) = Raise (HostError IndexError)
  /\ forall (pre : list value) (x : value) (vs : list value) (v : value) (s1 s2 : state),
       evaluate_list (evaluate fuel) pre [fst (scope_address scope s)]
         (merged_state _library (fst (scope_address scope s)) (snd (scope_address scope s))) = (Ok vs, s1) ->
       evaluate fuel x [fst (scope_address scope s)] s1 = (Ok v, s2) ->
       interpret fuel _library (VList (pre ++ [x])%list) scope s = (Ok v, s2).
Proof.
  intros Hv. split.
  - rewrite (interpret_setup _ _ _ _ _ Hv). reflexivity.
  - intros pre x vs v s1 s2 Hpre Hx.
    rewrite (interpret_setup _ _ _ _ _ Hv).
    set (a := fst (scope_address scope s)) in *.
    set (st := merged_state _library a (snd (scope_address scope s))) in *.
    unfold interpret_body.
    rewrite (bind_ok _ _ _ s2 (inl (vs ++ [v])%list)).
    + unfold lift. rewrite getitem_last. reflexivity.
    + unfold catch_return, evaluate_all.
      change (py_iter (VList (pre ++ [x])%list)) with (Ok (pre ++ [x])%list).
      rewrite bind_lift_ok, (evaluate_list_snoc _ _ _ _ _ _ _ _ _ Hpre Hx). reflexivity.
Qed.

(** A fresh scope: the empty program gives the [IndexError]; the program
    [(+ 1 2)] followed by [( * 2 3)] gives [6]. *)
Lemma interpret_last_value_witness :
  fst (interpret 3 [] (VList []) None (mkState [] 0)) = Raise (HostError IndexError)
  /\ interpret 3 [] (VList ([call_node [ident "+" 1 1; int_node 1 1 3; int_node 2 1 5] 1 0]
                             ++ [call_node [ident "*" 1 9; int_node 2 1 11; int_node 3 1 13] 1 8])%list) None (mkState [] 0)
     = (Ok (VInt 6), mkState [_builtins] 0).
Proof.
  destruct (interpret_last_value 3 [] None (mkState [] 0) I) as [H1 H2].
  split; [exact H1 |].
  apply (H2 _ _ [VInt 3] (VInt 6) (mkState [_builtins] 0)); vm_compute; reflexivity.
Defined.

(** ** Further properties *)

Lemma str_forall_app (p : Ascii.ascii -> bool) (a b : string) :
  str_forall p (a ++ b) = str_forall p a && str_forall p b.
Proof. induction a as [| c a IH]; simpl; [reflexivity | rewrite IH; apply andb_assoc]. Qed.

Lemma str_forall_impl (p q : Ascii.ascii -> bool) (s : string) :
  (forall c, p c = true -> q c = true) -> str_forall p s = true -> str_forall q s = true.
Proof.
  intros H. induction s as [| c s IH]; simpl; [auto |].
  intros E. apply andb_prop in E as [E1 E2]. rewrite (H c E1), (IH E2). reflexivity.
Qed.

Lemma replace_aux_absent (fuel : nat) (c0 : Ascii.ascii) (o new s : string) :
  str_forall (fun c => negb (Ascii.eqb c c0)) s = true ->
  replace_aux fuel (String c0 o) new s = s.
Proof.
  revert s. induction fuel as [| f IH]; intros s H; [reflexivity |].
  destruct s as [| c s]; [reflexivity |].
  simpl in H. apply andb_prop in H as [H1 H2].
  simpl. destruct (Ascii.ascii_dec c0 c) as [E | NE].
  - subst. rewrite Ascii.eqb_refl in H1. discriminate.
  - rewrite (IH s H2). reflexivity.
Qed.

Lemma split_on_absent (d : Ascii.ascii) (s : string) :
  str_forall (fun c => negb (Ascii.eqb c d)) s = true -> split_on d s = [s].
Proof.
  induction s as [| c s IH]; simpl; [reflexivity |].
  intros H. apply andb_prop in H as [H1 H2].
  rewrite (IH H2). apply negb_true_iff in H1. rewrite H1. reflexivity.
Qed.

Lemma split_on_app (d : Ascii.ascii) (a b : string) :
  str_forall (fun c => negb (Ascii.eqb c d)) a = true ->
  split_on d (a ++ String d b) = a :: split_on d b.
Proof.
  induction a as [| c a IH]; simpl; intros H.
  - rewrite Ascii.eqb_refl. reflexivity.
  - apply andb_prop in H as [H1 H2]. rewrite (IH H2).
    apply negb_true_iff in H1. rewrite H1. reflexivity.
Qed.

Lemma sub_chars_none (f : Ascii.ascii -> option string) (s : string) :
  str_forall (fun c => match f c with None => true | Some _ => false end) s = true ->
  sub_chars f s = s.
Proof.
  induction s as [| c s IH]; simpl; [reflexivity |].
  intros H. apply andb_prop in H as [H1 H2]. destruct (f c); [discriminate |].
  rewrite (IH H2). reflexivity.
Qed.

Lemma str_app_assoc (a b c : string) : (a ++ b) ++ c = a ++ (b ++ c).
Proof. induction a as [| x a IH]; simpl; [reflexivity | rewrite IH; reflexivity]. Qed.

Lemma str_app_nil_r (a : string) : a ++ "" = a.
Proof. induction a as [| x a IH]; simpl; [reflexivity | rewrite IH; reflexivity]. Qed.

Lemma str_length_app (a b : string) : String.length (a ++ b) = String.length a + String.length b.
Proof. induction a as [| x a IH]; simpl; [reflexivity | rewrite IH; reflexivity]. Qed.

Lemma sub_chars_app (f : Ascii.ascii -> option string) (a b : string) :
  sub_chars f (a ++ b) = sub_chars f a ++ sub_chars f b.
Proof.
  induction a as [| c a IH]; simpl; [reflexivity |].
  rewrite IH. destruct (f c); [rewrite str_app_assoc |]; reflexivity.
Qed.

Lemma substring_all (s : string) : substring 0 (String.length s) s = s.
Proof. induction s as [| c s IH]; simpl; [reflexivity | rewrite IH; reflexivity]. Qed.

Lemma replace_aux_step (f : nat) (old new : string) (c : Ascii.ascii) (s : string) :
  replace_aux (S f) old new (String c s)
  = if String.prefix old (String c s)
    then new ++ replace_aux f old new (substring (String.length old) (String.length (String c s)) (String c s))
    else String c (replace_aux f old new s).
Proof. reflexivity. Qed.

Lemma prefix_app_inv (old s : string) :
  String.prefix old s = true -> exists rest, s = old ++ rest.
Proof.
  revert s. induction old as [| o old IH]; intros s H; [exists s; reflexivity |].
  destruct s as [| c s]; [discriminate |]. simpl in H.
  destruct (Ascii.ascii_dec o c) as [-> |]; [| discriminate].
  destruct (IH s H) as [rest ->]. exists rest. reflexivity.
Qed.

Lemma substring_long (m : nat) (s : string) : String.length s <= m -> substring 0 m s = s.
Proof.
  revert m. induction s as [| c s IH]; intros m L; [destruct m; reflexivity |].
  destruct m as [| m]; simpl in L; [lia |]. simpl. rewrite IH; [reflexivity | lia].
Qed.

Lemma substring_after (old rest : string) :
  substring (String.length old) (String.length (old ++ rest)) (old ++ rest) = rest.
Proof.
  assert (forall m, String.length rest <= m -> substring (String.length old) m (old ++ rest) = rest) as H.
  { induction old as [| o old IH]; intros m L; simpl.
    - apply substring_long; exact L.
    - destruct m; [| apply IH; lia].
      destruct (old ++ rest)%string eqn:E; [|].
      + destruct old; [| discriminate]. simpl in E. subst. reflexivity.
      + apply IH. simpl in L. lia. }
  apply H. rewrite str_length_app. lia.
Qed.

(** [replace_aux] needs no more fuel than the length of its input *)
Lemma replace_aux_fuel (f g : nat) (old new s : string) :
  old <> "" -> String.length s <= f -> String.length s <= g ->
  replace_aux f old new s = replace_aux g old new s.
Proof.
  intros Hold. revert g s. induction f as [| f IH]; intros g s Hf Hg.
  - destruct s; simpl in Hf; [destruct g; reflexivity | lia].
  - destruct g as [| g]; [destruct s; simpl in Hg; [reflexivity | lia] |].
    destruct s as [| c s]; [reflexivity |].
    rewrite !replace_aux_step. destruct (String.prefix old (String c s)) eqn:P.
    + f_equal. destruct (prefix_app_inv _ _ P) as [rest E]. rewrite E, substring_after.
      assert (String.length (String c s) = String.length old + String.length rest) as L
        by (rewrite E; apply str_length_app).
      destruct old as [| o old]; [congruence |]. simpl in L.
      apply IH; simpl in *; lia.
    + f_equal. apply IH; simpl in *; lia.
Qed.

Lemma py_replace_app_fuel (old new s : string) (f : nat) :
  old <> "" -> String.length s <= f -> py_replace old new s = replace_aux f old new s.
Proof. intros H L. unfold py_replace. apply replace_aux_fuel; [exact H | lia | exact L]. Qed.

(** replacing a one-character string is a per-character substitution *)
Lemma py_replace_char (c0 : Ascii.ascii) (new s : string) :
  py_replace (str1 c0) new s = sub_chars (fun c => if Ascii.eqb c c0 then Some new else None) s.
Proof.
  unfold py_replace. induction s as [| c s IH]; [reflexivity |].
  change (replace_aux (S (String.length s)) (str1 c0) new (String c s)
          = sub_chars (fun c => if Ascii.eqb c c0 then Some new else None) (String c s)).
  rewrite replace_aux_step. simpl sub_chars.
  unfold str1 at 1. simpl String.prefix.
  destruct (Ascii.ascii_dec c0 c) as [-> | NE].
  - rewrite Ascii.eqb_refl. simpl.
    assert (String.prefix "" s = true) as -> by (destruct s; reflexivity).
    rewrite substring_long, IH by lia. reflexivity.
  - assert (Ascii.eqb c c0 = false) as -> by (apply Ascii.eqb_neq; congruence).
    rewrite IH. reflexivity.
Qed.

Lemma lstrip_nonspace (c : Ascii.ascii) (s : string) :
  is_space c = false -> lstrip (String c s) = String c s.
Proof. intros H. simpl. rewrite H. reflexivity. Qed.

Lemma rstrip_app (a b : string) :
  rstrip (a ++ b) = if String.eqb (rstrip b) "" then rstrip a else a ++ rstrip b.
Proof.
  induction a as [| c a IH]; simpl.
  - destruct (String.eqb_spec (rstrip b) "") as [-> | _]; reflexivity.
  - rewrite IH. destruct (String.eqb_spec (rstrip b) "") as [E | NE]; [reflexivity |].
    destruct (a ++ rstrip b)%string eqn:A; [| reflexivity].
    destruct a; simpl in A; [congruence | discriminate].
Qed.

Lemma rstrip_no_space (s : string) : no_space s = true -> rstrip s = s.
Proof.
  unfold no_space. induction s as [| c s IH]; simpl; [reflexivity |].
  intros H. apply andb_prop in H as [H1 H2]. rewrite (IH H2).
  apply negb_true_iff in H1. destruct s; [rewrite H1 |]; reflexivity.
Qed.

Lemma split_ws_not_nil (s : string) : split_ws s <> [].
Proof.
  induction s as [| c s IH]; simpl; [discriminate |].
  destruct (is_space c); [destruct (starts_space s); [exact IH | discriminate] |].
  destruct (split_ws s); discriminate.
Qed.

Lemma split_ws_no_space_app (a r : string) :
  no_space a = true ->
  split_ws (a ++ r) = (a ++ hd "" (split_ws r)) :: tl (split_ws r).
Proof.
  unfold no_space. induction a as [| c a IH]; simpl; intros H.
  - destruct (split_ws r) eqn:E; [destruct (split_ws_not_nil r E) | reflexivity].
  - apply andb_prop in H as [H1 H2]. apply negb_true_iff in H1. rewrite H1, (IH H2). reflexivity.
Qed.

Lemma split_ws_no_space (a : string) : no_space a = true -> split_ws a = [a].
Proof.
  intros H. rewrite <- (str_app_nil_r a), (split_ws_no_space_app a "" H). reflexivity.
Qed.

Lemma plain_no_space (s : string) : str_forall plain_char s = true -> no_space s = true.
Proof.
  apply str_forall_impl. intros c H. unfold plain_char in H.
  destruct (is_space c); [discriminate | reflexivity].
Qed.

Lemma plain_char_facts (c : Ascii.ascii) :
  plain_char c = true ->
  is_space c = false /\ is_bracket c = false /\ Ascii.eqb c dquote = false
  /\ Ascii.eqb c backslash = false /\ Ascii.eqb c (chr 95) = false
  /\ Ascii.eqb c space = false /\ Ascii.eqb c newline = false.
Proof.
  unfold plain_char. intros H.
  repeat match type of H with
         | _ && _ = true => apply andb_prop in H as [H ?]
         end.
  repeat match goal with
         | K : negb _ = true |- _ => apply negb_true_iff in K
         end.
  repeat split; try assumption.
  - destruct (Ascii.eqb c space) eqn:E; [apply Ascii.eqb_eq in E; subst; discriminate | reflexivity].
  - destruct (Ascii.eqb c newline) eqn:E; [apply Ascii.eqb_eq in E; subst; discriminate | reflexivity].
Qed.

Ltac plain_tac :=
  let c := fresh "c" in let Hc := fresh "Hc" in
  intros c Hc;
  let A1 := fresh "A" in let A2 := fresh "A" in let A3 := fresh "A" in let A4 := fresh "A" in
  let A5 := fresh "A" in let A6 := fresh "A" in let A7 := fresh "A" in
  destruct (plain_char_facts c Hc) as (A1 & A2 & A3 & A4 & A5 & A6 & A7);
  rewrite ?A1, ?A2, ?A3, ?A4, ?A5, ?A6, ?A7; reflexivity.

Lemma tokenize_plain (s : string) : str_forall plain_char s = true -> tokenize s = [s].
Proof.
  intros H. unfold tokenize.
  assert (forall q : Ascii.ascii -> bool, (forall c, plain_char c = true -> q c = true) ->
          str_forall q s = true) as F by (intros q Q; exact (str_forall_impl _ _ _ Q H)).
  unfold py_replace at 2.
  rewrite (replace_aux_absent _ backslash), split_on_absent by (apply F; plain_tac).
  simpl pre_all. unfold pre_tokenize. simpl Nat.odd. cbv iota beta.
  do 3 rewrite (sub_chars_none _ s) by (apply F; plain_tac).
  simpl String.concat. unfold py_strip.
  assert (lstrip s = s) as ->.
  { destruct s as [| c s']; [reflexivity |]. apply lstrip_nonspace.
    simpl in H. apply andb_prop in H as [H _]. apply (plain_char_facts c H). }
  rewrite rstrip_no_space by (apply F; plain_tac).
  unfold QUOTE, placeholder. simpl (("__BEDLAM_" ++ "QUOTE")%string). unfold py_replace.
  rewrite (replace_aux_absent _ (chr 95)) by (apply F; plain_tac).
  apply split_ws_no_space. apply F. plain_tac.
Qed.

Lemma build_ast_nil (f : nat) (ast : list value) (loc : Z * Z) :
  build_ast (S f) (VList []) ast loc = Ok (AstList ast, loc).
Proof. reflexivity. Qed.

Lemma build_ast_atom (f : nat) (t : string) (rest ast : list value) (loc : Z * Z) :
  ordinary_token t = true ->
  build_ast (S f) (VList (VStr t :: rest)) ast loc
  = build_ast f (VList rest) (ast ++ [atom_node t loc])%list (advance loc t).
Proof.
  unfold ordinary_token. intros H.
  repeat match type of H with
         | _ && _ = true => apply andb_prop in H as [H ?]
         end.
  repeat match goal with
         | K : negb _ = true |- _ => apply negb_true_iff in K
         end.
  cbn [build_ast truthy negb py_iter]. rewrite H.
  unfold bracket_type. repeat match goal with K : String.eqb t _ = false |- _ => rewrite K end.
  reflexivity.
Qed.

Lemma build_ast_space (f : nat) (rest ast : list value) (loc : Z * Z) :
  build_ast (S f) (VList (VStr SPACE :: rest)) ast loc
  = build_ast f (VList rest) ast (fst loc, snd loc + 1)%Z.
Proof. reflexivity. Qed.

Lemma build_ast_newline (f : nat) (rest ast : list value) (loc : Z * Z) :
  build_ast (S f) (VList (VStr NEWLINE :: rest)) ast loc
  = build_ast f (VList rest) ast (fst loc + 1, 0)%Z.
Proof. reflexivity. Qed.

Lemma all_chars_complete (c : Ascii.ascii) : In c all_chars.
Proof.
  rewrite <- (Ascii.ascii_nat_embedding c). apply in_map, in_seq.
  pose proof (Ascii.nat_ascii_bounded c). lia.
Qed.

Lemma forall_chars (p : Ascii.ascii -> bool) : forallb p all_chars = true -> forall c, p c = true.
Proof. intros H c. rewrite forallb_forall in H. apply H, all_chars_complete. Qed.

Lemma plain_ordinary (t : string) : str_forall plain_char t = true -> t <> "" -> ordinary_token t = true.
Proof.
  intros H NE. unfold ordinary_token, is_closing.
  repeat match goal with
         | |- context [String.eqb t ?u] =>
             destruct (String.eqb_spec t u) as [E | _]; [subst t; try discriminate; try congruence |]
         end.
  reflexivity.
Qed.

Lemma parse_plain (t : string) :
  str_forall plain_char t = true -> t <> "" -> parse t = Ok (AstList [atom_node t (1, 0)%Z]).
Proof.
  intros H NE. unfold parse. rewrite (tokenize_plain t H). simpl map.
  replace (parse_fuel [t]) with (S 7) by reflexivity. rewrite build_ast_atom by (apply plain_ordinary; assumption). reflexivity.
Qed.

Lemma digit_char (m : nat) : m < 10 -> digit_of (Ascii.ascii_of_nat (48 + m)) = Some (Z.of_nat m).
Proof.
  intros L. unfold digit_of. rewrite Ascii.nat_ascii_embedding by lia.
  replace (Nat.leb 48 (48 + m) && Nat.leb (48 + m) 57) with true
    by (symmetry; apply andb_true_intro; split; apply Nat.leb_le; lia).
  f_equal. f_equal. lia.
Qed.

Lemma dec_digits_step (f : nat) (n : Z) (acc : string) :
  dec_digits (S f) n acc
  = let acc' := String (Ascii.ascii_of_nat (48 + Z.to_nat (n mod 10))) acc in
    if (n <? 10)%Z then acc' else dec_digits f (n / 10) acc'.
Proof. reflexivity. Qed.

Lemma digitpart_aux_digit (c : Ascii.ascii) (s : string) (acc : Z) (n : nat) (b : bool) (d : Z) :
  digit_of c = Some d -> digitpart_aux (String c s) acc n b = digitpart_aux s (10 * acc + d) (S n) true.
Proof. intros H. simpl. rewrite H. reflexivity. Qed.

Lemma dec_digits_spec (fuel : nat) (n : Z) (acc : string) (a : Z) (k : nat) (b : bool) :
  fuel <> O -> (0 <= n < 10 ^ Z.of_nat fuel)%Z ->
  exists d : nat, (1 <= d)%nat /\ (n < 10 ^ Z.of_nat d)%Z /\ (d = 1%nat \/ (10 ^ (Z.of_nat d - 1) <= n)%Z)
    /\ digitpart_aux (dec_digits fuel n acc) a k b = digitpart_aux acc (a * 10 ^ Z.of_nat d + n) (k + d) true
    /\ str_forall is_digit (dec_digits fuel n acc) = str_forall is_digit acc
    /\ dec_digits fuel n acc <> "".
Proof.
  revert n acc a k b. induction fuel as [| f IH]; intros n acc a k b NZ [N0 N1]; [congruence |].
  pose proof (Z.mod_pos_bound n 10) as MB.
  pose proof (Z.div_mod n 10) as DM.
  assert (Dg : digit_of (Ascii.ascii_of_nat (48 + Z.to_nat (n mod 10))) = Some (n mod 10)%Z).
  { rewrite digit_char by lia. f_equal. lia. }
  rewrite dec_digits_step. cbv zeta.
  set (ch := Ascii.ascii_of_nat (48 + Z.to_nat (n mod 10))) in *. clearbody ch.
  assert (str_forall is_digit (String ch acc) = str_forall is_digit acc) as Fd.
  { cbn [str_forall]. unfold is_digit at 1. rewrite Dg. reflexivity. }
  destruct (Z.ltb_spec n 10) as [Lt | Ge].
  - exists 1%nat. rewrite digitpart_aux_digit with (d := (n mod 10)%Z) by exact Dg.
    rewrite Z.mod_small in * by lia.
    repeat split; [lia | simpl; lia | left; reflexivity | | exact Fd | discriminate].
    replace (a * 10 ^ Z.of_nat 1 + n)%Z with (10 * a + n)%Z by (change (10 ^ Z.of_nat 1)%Z with 10%Z; lia).
    replace (k + 1)%nat with (S k) by lia. reflexivity.
  - assert (0 <= n / 10 < 10 ^ Z.of_nat f)%Z as Hq.
    { split; [apply Z.div_pos; lia |]. rewrite Nat2Z.inj_succ, Z.pow_succ_r in N1 by lia.
      apply Z.div_lt_upper_bound; lia. }
    assert (f <> O) as Hf.
    { intros ->. change (10 ^ Z.of_nat 0)%Z with 1%Z in Hq.
      pose proof (Z.div_le_lower_bound n 10 1). lia. }
    destruct (IH (n / 10)%Z (String ch acc) a k b Hf Hq) as (d & D1 & D2 & D3 & D4 & D5 & D6).
    exists (S d). rewrite D4, D5, Fd.
    rewrite digitpart_aux_digit with (d := (n mod 10)%Z) by exact Dg.
    assert (10 ^ Z.of_nat (S d) = 10 * 10 ^ Z.of_nat d)%Z as P
      by (rewrite Nat2Z.inj_succ, Z.pow_succ_r by lia; reflexivity).
    repeat split; [lia | | right | | exact D6].
    + rewrite P. lia.
    + replace (Z.of_nat (S d) - 1)%Z with (Z.of_nat d) by lia.
      destruct D3 as [-> | D3]; [change (10 ^ Z.of_nat 1)%Z with 10%Z; lia |].
      replace (Z.of_nat d) with (Z.of_nat d - 1 + 1)%Z by lia.
      rewrite Z.pow_add_r by lia. change (10 ^ 1)%Z with 10%Z. lia.
    + replace (a * 10 ^ Z.of_nat (S d) + n)%Z with (10 * (a * 10 ^ Z.of_nat d + n / 10) + n mod 10)%Z
        by (rewrite P; lia).
      replace (k + S d)%nat with (S (k + d)) by lia. reflexivity.
Qed.

Lemma digit_plain (c : Ascii.ascii) : is_digit c = true -> plain_char c = true.
Proof.
  revert c. assert (forall c, implb (is_digit c) (plain_char c) = true) as H
    by (apply forall_chars; vm_compute; reflexivity).
  intros c D. specialize (H c). rewrite D in H. exact H.
Qed.

Lemma digit_not_sign (c : Ascii.ascii) :
  is_digit c = true -> Ascii.eqb c (chr 45) = false /\ Ascii.eqb c (chr 43) = false /\ Ascii.eqb c dquote = false.
Proof.
  revert c. assert (forall c, implb (is_digit c)
    (negb (Ascii.eqb c (chr 45)) && negb (Ascii.eqb c (chr 43)) && negb (Ascii.eqb c dquote)) = true) as H
    by (apply forall_chars; vm_compute; reflexivity).
  intros c D. specialize (H c). rewrite D in H. simpl in H.
  destruct (Ascii.eqb c (chr 45)), (Ascii.eqb c (chr 43)), (Ascii.eqb c dquote); try discriminate.
  auto.
Qed.

Lemma py_strip_plain (s : string) : str_forall plain_char s = true -> py_strip s = s.
Proof.
  intros H. unfold py_strip.
  assert (lstrip s = s) as ->.
  { destruct s as [| c s']; [reflexivity |]. apply lstrip_nonspace.
    simpl in H. apply andb_prop in H as [H _]. apply (plain_char_facts c H). }
  apply rstrip_no_space, plain_no_space, H.
Qed.

Lemma z_to_string_fuel (z : Z) :
  (Z.abs z < 10 ^ Z.of_nat (S (Z.to_nat (Z.log2 (Z.abs z)))))%Z.
Proof.
  destruct (Z.eq_dec z 0) as [-> | NZ]; [reflexivity |].
  pose proof (Z.log2_spec (Z.abs z) ltac:(lia)) as [_ L].
  pose proof (Z.log2_nonneg (Z.abs z)).
  rewrite Nat2Z.inj_succ, Z2Nat.id by lia. rewrite <- Z.add_1_r.
  eapply Z.lt_le_trans; [exact L |]. apply Z.pow_le_mono_l. lia.
Qed.

(** the digits [str] writes for a non-negative int, as [int()] reads them back *)
Lemma dec_digits_read (n : Z) :
  (0 <= n)%Z ->
  let s := dec_digits (S (Z.to_nat (Z.log2 (Z.abs n)))) n "" in
  exists d : nat, digitpart s = Some (n, d) /\ (d = 1%nat \/ (10 ^ (Z.of_nat d - 1) <= n)%Z)
    /\ str_forall is_digit s = true /\ s <> "".
Proof.
  intros N s.
  pose proof (z_to_string_fuel n) as F. rewrite Z.abs_eq in F by exact N.
  destruct (dec_digits_spec (S (Z.to_nat (Z.log2 (Z.abs n)))) n "" 0 0 false ltac:(discriminate))
    as (d & D1 & D2 & D3 & D4 & D5 & D6); [rewrite Z.abs_eq by exact N; lia |].
  exists d. unfold digitpart. fold s in D4, D5, D6. rewrite D4. simpl. auto.
Qed.

Lemma str_forall_digit_plain (s : string) : str_forall is_digit s = true -> str_forall plain_char s = true.
Proof. apply str_forall_impl. exact digit_plain. Qed.

Lemma parse_z_to_string (z : Z) :
  (Z.abs z < 10 ^ 4300)%Z ->
  parse (z_to_string z) = Ok (AstList [int_node z 1 0]).
Proof.
  intros B.
  destruct (dec_digits_read (Z.abs z) ltac:(lia)) as (d & D1 & D2 & D3 & D4).
  rewrite Z.abs_idemp in D1, D3, D4.
  remember (dec_digits (S (Z.to_nat (Z.log2 (Z.abs z)))) (Z.abs z) "") as s eqn:Es.
  assert (z_to_string z = if (z <? 0)%Z then String (chr 45) s else s) as Ez.
  { unfold z_to_string. rewrite Es.
    destruct (Z.ltb_spec z 0); [rewrite (Z.abs_neq z) by lia | rewrite (Z.abs_eq z) by lia]; reflexivity. }
  clear Es. rewrite Ez.
  destruct s as [| c s'] ; [congruence |].
  cbn [str_forall] in D3. apply andb_prop in D3 as [Dc Ds'].
  destruct (digit_not_sign c Dc) as (Nm & Np & Nq).
  assert (d <= max_str_digits)%nat as Bd.
  { unfold max_str_digits. destruct D2 as [-> | D2]; [lia |].
    assert (Z.of_nat d - 1 < 4300)%Z; [| lia].
    apply (Z.pow_lt_mono_r_iff 10); [lia | lia |]. lia. }
  assert (str_forall plain_char (String c s') = true) as Ps
    by (apply str_forall_digit_plain; cbn [str_forall]; rewrite Dc, Ds'; reflexivity).
  destruct (Z.ltb_spec z 0) as [Lt | Ge].
  - assert (str_forall plain_char (String (chr 45) (String c s')) = true) as Pm.
    { change (plain_char (chr 45) && str_forall plain_char (String c s') = true). rewrite Ps. reflexivity. }
    rewrite parse_plain by (try discriminate; exact Pm).
    do 3 f_equal. unfold atom_node, int_node.
    cbn [String.get]. change (Ascii.eqb (chr 45) dquote) with false. cbv iota.
    unfold py_int. rewrite py_strip_plain by exact Pm.
    cbn [split_sign]. change (Ascii.eqb (chr 45) (chr 45)) with true. cbv iota.
    unfold digitpart in *. rewrite D1.
    replace (Nat.ltb max_str_digits d) with false by (symmetry; apply Nat.ltb_ge; exact Bd).
    rewrite Z.abs_neq by lia. rewrite Z.opp_involutive. reflexivity.
  - rewrite parse_plain by (try discriminate; exact Ps).
    do 3 f_equal. unfold atom_node, int_node.
    cbn [String.get]. rewrite Nq. cbv iota.
    unfold py_int. rewrite py_strip_plain by exact Ps.
    cbn [split_sign]. rewrite Nm, Np.
    unfold digitpart in *. rewrite D1.
    replace (Nat.ltb max_str_digits d) with false by (symmetry; apply Nat.ltb_ge; exact Bd).
    rewrite Z.abs_eq by lia. reflexivity.
Qed.

(** X23: The decimal text of an int (below Python's 4300-digit conversion
    limit) parses to a single int node at line 1, column 0, and running it
    through [bedlam] evaluates to that int. *)
Theorem int_literal_round_trip (fuel : nat) (_library : dict) (scope : option nat) (s : state) (z : Z) :
  scope_valid scope s -> (Z.abs z < 10 ^ 4300)%Z ->
  parse (z_to_string z) = Ok (AstList [int_node z 1 0]) /\
  fst (bedlam (S fuel) _library (z_to_string z) scope s) = Ok (VInt z).
Proof.
  intros Hv Hz. split; [exact (parse_z_to_string z Hz) |].
  unfold bedlam. rewrite (parse_z_to_string z Hz). cbn [ast_value].
  rewrite (interpret_setup _ _ _ _ _ Hv).
  generalize (merged_state _library (fst (scope_address scope s)) (snd (scope_address scope s))) as st.
  intros st. unfold interpret_body, evaluate_all.
  unfold bind at 1, catch_return, bind at 1, lift. cbn [py_iter evaluate_list].
  assert (L : literal_of (int_node z 1 0) (VInt z)) by (exists "int", 1%Z, 0%Z; split; [left |]; reflexivity).
  rewrite (bind_ok _ _ _ _ _ (evaluate_literal fuel _ _ [fst (scope_address scope s)] st L)).
  cbn. reflexivity.
Qed.

(** X24: A script whose parse stops at an unmatched closing bracket (the
    parser returns a tuple instead of a list) makes [bedlam] raise Python's
    TypeError when [interpret] iterates the result. *)
Theorem bedlam_unmatched_close (fuel : nat) (_library : dict) (script : string) (scope : option nat)
    (s : state) (a : list value) (t : value) :
  scope_valid scope s -> parse script = Ok (AstTuple a t) ->
  fst (bedlam (S fuel) _library script scope s) = Raise (HostError TypeError).
Proof.
  intros Hv Hp. unfold bedlam. rewrite Hp. cbn [ast_value].
  rewrite (interpret_setup _ _ _ _ _ Hv).
  generalize (merged_state _library (fst (scope_address scope s)) (snd (scope_address scope s))) as st.
  intros st. reflexivity.
Qed.

Lemma bedlam_unmatched_close_witness :
  scope_valid None (mkState [] 0) /\ parse "a )" = Ok (AstTuple [ident "a" 1 0] (VList [])) /\
  fst (bedlam 5 [] "a )" None (mkState [] 0)) = Raise (HostError TypeError).
Proof.
  assert (Hp : parse "a )" = Ok (AstTuple [ident "a" 1 0] (VList []))) by (vm_compute; reflexivity).
  split; [exact I | split; [exact Hp |]].
  exact (bedlam_unmatched_close 4 [] "a )" None (mkState [] 0) _ _ I Hp).
Defined.

Lemma int_literal_round_trip_witness :
  scope_valid None (mkState [] 0) /\ (Z.abs (-1234) < 10 ^ 4300)%Z /\
  parse "-1234" = Ok (AstList [int_node (-1234) 1 0]) /\
  fst (bedlam 1 [] "-1234" None (mkState [] 0)) = Ok (VInt (-1234)).
Proof.
  assert (Hz : (Z.abs (-1234) < 10 ^ 4300)%Z) by (vm_compute; reflexivity).
  split; [exact I | split; [exact Hz |]].
  exact (int_literal_round_trip 0 [] None (mkState [] 0) (-1234) I Hz).
Defined.

Lemma evaluate_list_two (ev : Ev) (a b : value) (context : list nat) (s s1 s2 : state) (va vb : value) :
  ev a context s = (Ok va, s1) -> ev b context s1 = (Ok vb, s2) ->
  evaluate_list ev [a; b] context s = (Ok [va; vb], s2).
Proof.
  intros Ha Hb. cbn [evaluate_list]. unfold bind. rewrite Ha, Hb. reflexivity.
Qed.

(** X3: [(nth xs i)] on a list and an int indexes as Python does: an index
    in [0, len) gives that element, an index in [-len, 0) counts from the
    end, and any other index raises IndexError; the state is the one after
    evaluating both arguments. *)
Theorem nth_list_index (ev : Ev) (xn in_ node : value) (context : list nat) (s s1 s2 : state)
    (l : list value) (i : Z) :
  ev xn context s = (Ok (VList l), s1) -> ev in_ context s1 = (Ok (VInt i), s2) ->
  fn_nth ev [xn; in_] node context s =
  ((if ((0 <=? i) && (i <? Z.of_nat (length l)))%Z then Ok (nth (Z.to_nat i) l VNone)
    else if ((- Z.of_nat (length l) <=? i) && (i <? 0))%Z
    then Ok (nth (Z.to_nat (Z.of_nat (length l) + i)) l VNone)
    else host IndexError), s2).
Proof.
  intros Hx Hi. unfold fn_nth. unfold bind at 1, assert_arity. cbn [length Nat.eqb negb].
  change (ret [xn; in_] s) with (@Ok (list value) [xn; in_], s). cbv iota beta.
  rewrite (bind_ok _ _ _ _ _ (evaluate_list_two _ _ _ _ _ _ _ _ _ Hx Hi)).
  cbn [unpack2]. rewrite bind_ret_l. unfold lift. f_equal.
  unfold getitem. cbn [num_of]. unfold py_index.
  destruct (Z.ltb_spec i 0%Z) as [Hn | Hp].
  - replace ((0 <=? i)%Z && _) with false by (symmetry; apply andb_false_intro1, Z.leb_gt; lia).
    destruct (Z.leb_spec (- Z.of_nat (length l)) i) as [Hl | Hl]; cbn [andb].
    + replace ((0 <=? i + Z.of_nat (length l)) && (i + Z.of_nat (length l) <? Z.of_nat (length l)))%Z
        with true by (symmetry; apply andb_true_intro; split; [apply Z.leb_le | apply Z.ltb_lt]; lia).
      rewrite (Z.add_comm (Z.of_nat (length l)) i).
      rewrite (nth_error_nth' l VNone) by lia. reflexivity.
    + replace ((0 <=? i + Z.of_nat (length l))%Z && _) with false
        by (symmetry; apply andb_false_intro1, Z.leb_gt; lia). reflexivity.
  - replace (0 <=? i)%Z with true by (symmetry; apply Z.leb_le; lia). cbn [andb].
    destruct (Z.ltb_spec i (Z.of_nat (length l))) as [Hl | Hl].
    + rewrite (nth_error_nth' l VNone) by lia. reflexivity.
    + replace (i <? 0)%Z with false by (symmetry; apply Z.ltb_ge; lia).
      rewrite andb_false_r. reflexivity.
Qed.

Lemma assert_arity_ok (node : value) (args : list value) (exact min max : option nat) (s : state) :
  match exact with Some e => length args = e | None => True end ->
  match min with Some m => m <= length args | None => True end ->
  match max with Some m => length args <= m | None => True end ->
  assert_arity node args exact min max s = (Ok args, s).
Proof.
  intros He Hmin Hmax. unfold assert_arity.
  destruct exact as [e |]; [subst e; rewrite Nat.eqb_refl |]; cbn [negb];
  (destruct min as [m |]; [replace (Nat.ltb (length args) m) with false by (symmetry; apply Nat.ltb_ge; exact Hmin) |]);
  (destruct max as [m' |]; [replace (Nat.ltb m' (length args)) with false by (symmetry; apply Nat.ltb_ge; exact Hmax) |]);
  reflexivity.
Qed.

Ltac arity_ok := erewrite bind_ok; [| apply assert_arity_ok; cbn; first [exact I | lia]].

Ltac arity_ok_in H := erewrite bind_ok in H; [| apply assert_arity_ok; cbn; first [exact I | lia]].

Lemma raise_error_call_node {A} (k : ierr) (xs : list value) (line column : Z) (s : state) :
  @raise_error A k (call_node xs line column) s = (Raise (InterpeterError k (VInt line) (VInt column)), s).
Proof. reflexivity. Qed.

(** X4: [(nth x i)] where [x] evaluates to something other than a list
    raises the interpreter's non-vector error at the call node, after
    evaluating both arguments. *)
Theorem nth_non_vector (ev : Ev) (xn in_ : value) (xs : list value) (line column : Z)
    (context : list nat) (s s1 s2 : state) (xv iv : value) :
  ev xn context s = (Ok xv, s1) -> ev in_ context s1 = (Ok iv, s2) ->
  (forall l, xv <> VList l) ->
  fn_nth ev [xn; in_] (call_node xs line column) context s
  = (Raise (InterpeterError NthNonVector (VInt line) (VInt column)), s2).
Proof.
  intros Hx Hi Hn. unfold fn_nth.
  arity_ok.
  rewrite (bind_ok _ _ _ _ _ (evaluate_list_two _ _ _ _ _ _ _ _ _ Hx Hi)).
  cbn [unpack2]. rewrite bind_ret_l.
  destruct xv; try (apply raise_error_call_node). exfalso; eapply Hn; reflexivity.
Qed.

(** X5: [(/ a b)] where [b] evaluates to [0], [false], [0.0] or [-0.0]
    raises the interpreter's division-by-zero error at the call node, after
    evaluating both arguments. *)
Theorem divide_by_zero_divisor (ev : Ev) (an bn : value) (xs : list value) (line column : Z)
    (context : list nat) (s s1 s2 : state) (va vb : value) :
  ev an context s = (Ok va, s1) -> ev bn context s1 = (Ok vb, s2) ->
  vb = VInt 0 \/ vb = VBool false \/ vb = VFloat 0%float \/ vb = VFloat (-0)%float ->
  fn_divide ev [an; bn] (call_node xs line column) context s
  = (Raise (InterpeterError DivisionByZero (VInt line) (VInt column)), s2).
Proof.
  intros Ha Hb Hz. unfold fn_divide.
  arity_ok.
  rewrite (bind_ok _ _ _ _ _ (evaluate_list_two _ _ _ _ _ _ _ _ _ Ha Hb)).
  cbn [unpack2]. rewrite bind_ret_l.
  replace (py_eq vb (VInt 0)) with true by (destruct Hz as [-> | [-> | [-> | ->]]]; reflexivity).
  apply raise_error_call_node.
Qed.

(** X6: A call whose head evaluates to a value that is not a function raises
    the interpreter's not-callable error, naming the head node's value and
    located at the call node; no argument is evaluated. *)
Theorem call_head_not_function (n : nat) (name : value) (args : list value) (line column : Z)
    (ty : string) (nv : value) (l c : Z) (context : list nat) (s s1 : state) (fv : value) :
  name = mk_node ty nv l c ->
  evaluate n name context s = (Ok fv, s1) -> is_function fv = false ->
  evaluate (S n) (call_node (name :: args) line column) context s
  = (Raise (InterpeterError (NotCallable nv) (VInt line) (VInt column)), s1).
Proof.
  intros -> H F. cbn -[call_fn]. rewrite (bind_ok _ _ _ _ _ H). rewrite F. reflexivity.
Qed.

(** X7: [(join sep ...)] whose separator evaluates to a non-string raises
    Python's AttributeError right after evaluating the separator; none of
    the other arguments is evaluated. *)
Theorem join_separator_not_string (ev : Ev) (sep : value) (args : list value) (node : value)
    (context : list nat) (s s1 : state) (v : value) :
  ev sep context s = (Ok v, s1) -> (forall t, v <> VStr t) ->
  fn_join ev (sep :: args) node context s = (Raise (HostError AttributeError), s1).
Proof.
  intros H N. unfold fn_join.
  arity_ok.
  cbn [unpack_head]. rewrite bind_ret_l. rewrite (bind_ok _ _ _ _ _ H).
  destruct v; try reflexivity. exfalso; eapply N; reflexivity.
Qed.

Lemma sum_from_number (acc v : value) (xs : list value) :
  is_number acc -> sum_from acc xs = Ok v -> is_number v.
Proof.
  revert acc. induction xs as [| x xs IH]; intros acc Hacc H.
  - cbn in H. injection H as <-. exact Hacc.
  - cbn [sum_from] in H. unfold rbind in H.
    destruct (py_add acc x) as [acc' | e |] eqn:E; try discriminate.
    apply (IH acc'); [| exact H].
    destruct Hacc as [[z ->] | [f ->]]; unfold py_add in E;
      destruct x; cbn [num_of] in E; try discriminate E;
      unfold arith, rbind in E;
      repeat match goal with
             | E : context [match ?m with _ => _ end] |- _ => destruct m; try discriminate E
             end;
      injection E as <-; unfold is_number; eauto.
Qed.

(** X8: Whenever [+] returns a value, that value is an int or a float: the
    sum starts from the int 0 and Python's addition only yields numbers from
    it. *)
Theorem plus_returns_number (ev : Ev) (args : list value) (node : value) (context : list nat)
    (s : state) (v : value) :
  fst (fn_plus ev args node context s) = Ok v -> is_number v.
Proof.
  unfold fn_plus, bind. destruct (evaluate_list ev args context s) as [[vs | e |] s1];
    cbn; try discriminate.
  apply sum_from_number. left. exists 0%Z. reflexivity.
Qed.

Lemma check_params_app (pre rest : list value) (s : state) :
  Forall is_ident_node pre -> check_params (pre ++ rest)%list s = check_params rest s.
Proof.
  induction 1 as [| p ps' [x [l [c ->]]] _ IH]; [reflexivity |].
  cbn [check_params app]. unfold bind, lift. cbn. exact IH.
Qed.

(** X9: A [fn] form with one body form whose parameter vector holds a
    node that is not an identifier raises, for the first such node, the
    invalid-parameter error naming that node's value and located at that
    node, and leaves the state unchanged. *)
Theorem fn_invalid_parameter (node body : value) (context : list nat) (s : state)
    (pre post : list value) (ty : string) (v : value) (bl bc pl pc : Z) :
  Forall is_ident_node pre -> ty <> "identifier" ->
  fn_fn [vec_node (pre ++ mk_node ty v bl bc :: post)%list pl pc; body] node context s
  = (Raise (InterpeterError (InvalidParameter v) (VInt bl) (VInt bc)), s).
Proof.
  intros Hpre Hty. unfold fn_fn. arity_ok. cbn [unpack2]. rewrite bind_ret_l.
  change (lift (rbind (getitem (vec_node (pre ++ mk_node ty v bl bc :: post)%list pl pc) (VStr "value")) py_iter))
    with (@lift (list value) (Ok (pre ++ mk_node ty v bl bc :: post)%list)).
  rewrite bind_lift_ok. unfold bind at 1. rewrite check_params_app by exact Hpre.
  cbn [check_params]. rewrite (bind_lift_ok (VStr ty)). cbn [py_eq].
  replace (String.eqb ty "identifier") with false by (symmetry; apply String.eqb_neq; exact Hty).
  reflexivity.
Qed.

Lemma map_loop_length (ev : Ev) (f node : value) (context : list nat) (xs ys : list value) (s s' : state) :
  map_loop ev f node context xs s = (Ok ys, s') -> length ys = length xs.
Proof.
  revert ys s s'. induction xs as [| x xs IH]; intros ys s s' H.
  - cbn in H. injection H as <- _. reflexivity.
  - cbn [map_loop] in H. unfold bind at 1 in H.
    destruct (call_on ev f node x context s) as [[y | e |] s1]; try discriminate.
    unfold bind at 1 in H.
    destruct (map_loop ev f node context xs s1) as [[ys' | e |] s2] eqn:E; try discriminate.
    cbn in H. injection H as <- _. cbn. f_equal. exact (IH _ _ _ E).
Qed.

(** X10: When [(map f xs)] returns, its result is a list with one element
    per element of the value [xs] evaluates to. *)
Theorem map_preserves_length (ev : Ev) (f xsn node : value) (context : list nat) (s s1 : state)
    (xv : value) (l : list value) (v : value) :
  ev xsn context s = (Ok xv, s1) -> py_iter xv = Ok l ->
  fst (fn_map ev [f; xsn] node context s) = Ok v ->
  exists ys, v = VList ys /\ length ys = length l.
Proof.
  intros Hx Hl H. unfold fn_map in H. arity_ok_in H. cbn [unpack2] in H. rewrite bind_ret_l in H.
  rewrite (bind_ok _ _ _ _ _ Hx) in H. unfold bind at 1, lift in H. rewrite Hl in H.
  unfold bind in H. destruct (map_loop ev f node context l s1) as [[ys | e |] s2] eqn:E;
    try discriminate. cbn in H. injection H as <-.
  exists ys. split; [reflexivity | exact (map_loop_length _ _ _ _ _ _ _ _ E)].
Qed.

Lemma filter_loop_sublist (ev : Ev) (f node : value) (context : list nat) (xs ys : list value) (s s' : state) :
  filter_loop ev f node context xs s = (Ok ys, s') -> sublist ys xs.
Proof.
  revert ys s s'. induction xs as [| x xs IH]; intros ys s s' H.
  - cbn in H. injection H as <- _. constructor.
  - cbn [filter_loop] in H. unfold bind at 1 in H.
    destruct (call_on ev f node x context s) as [[y | e |] s1]; try discriminate.
    unfold bind at 1 in H.
    destruct (filter_loop ev f node context xs s1) as [[ys' | e |] s2] eqn:E; try discriminate.
    cbn in H. injection H as <- _. specialize (IH _ _ _ E).
    destruct (truthy y); constructor; exact IH.
Qed.

(** X11: When [(filter f xs)] returns, its result is a list made of elements
    of the value [xs] evaluates to, kept in their order. *)
Theorem filter_sublist (ev : Ev) (f xsn node : value) (context : list nat) (s s1 : state)
    (xv : value) (l : list value) (v : value) :
  ev xsn context s = (Ok xv, s1) -> py_iter xv = Ok l ->
  fst (fn_filter ev [f; xsn] node context s) = Ok v ->
  exists ys, v = VList ys /\ sublist ys l.
Proof.
  intros Hx Hl H. unfold fn_filter in H. arity_ok_in H. cbn [unpack2] in H. rewrite bind_ret_l in H.
  rewrite (bind_ok _ _ _ _ _ Hx) in H. unfold bind at 1, lift in H. rewrite Hl in H.
  unfold bind in H. destruct (filter_loop ev f node context l s1) as [[ys | e |] s2] eqn:E;
    try discriminate. cbn in H. injection H as <-.
  exists ys. split; [reflexivity | exact (filter_loop_sublist _ _ _ _ _ _ _ _ E)].
Qed.

(** X12: [(partial f a1 ... an)] with at least one fixed argument evaluates
    to a new partial value and allocates one id. Calling that value by a
    name bound to it with arguments [b1 ... bm] from any context evaluates
    [(f a1 ... an b1 ... bm)] at the partial's own node and in its defining
    context. *)
Theorem partial_prepends_args (m : nat) (lb cb line column : Z) (name : value) (pargs : list value)
    (context : list nat) (s : state) :
  pargs <> [] ->
  scope_lookup (heap s) context (VStr "partial") = Some (VBuiltin "partial") ->
  let p := VPartial (next_id s) (call_node (ident "partial" lb cb :: name :: pargs) line column)
             name pargs context in
  evaluate (S (S m)) (call_node (ident "partial" lb cb :: name :: pargs) line column) context s
  = (Ok p, mkState (heap s) (S (next_id s))) /\
  forall (g : string) (gl gc line' column' : Z) (cargs : list value) (context' : list nat) (s' : state),
    scope_lookup (heap s') context' (VStr g) = Some p ->
    evaluate (S (S m)) (call_node (ident g gl gc :: cargs) line' column') context' s'
    = evaluate (S m) (call_node (name :: pargs ++ cargs) line column) context s'.
Proof.
  intros Hne Hp p. split.
  - rewrite (evaluate_builtin _ _ (fun _ => fn_partial) _ _ _ _ _ _ _ Hp eq_refl).
    unfold fn_partial.
    erewrite bind_ok; [| apply assert_arity_ok; [exact I | destruct pargs; [congruence | cbn; lia] | exact I]].
    cbn [unpack_head]. rewrite bind_ret_l. reflexivity.
  - intros g gl gc line' column' cargs context' s' Hg.
    rewrite (evaluate_call _ _ _ _ _ _ _ s' p); [| apply evaluate_ident; exact Hg | reflexivity].
    cbn [call_fn p]. unfold call_partial. rewrite wrap_call_node. reflexivity.
Qed.

Lemma evaluate_list_app_raise (ev : Ev) (pre post : list value) (x : value) (context : list nat)
    (s s1 s2 : state) (vs : list value) (e : exn) :
  evaluate_list ev pre context s = (Ok vs, s1) -> ev x context s1 = (Raise e, s2) ->
  evaluate_list ev (pre ++ x :: post)%list context s = (Raise e, s2).
Proof.
  revert vs s. induction pre as [| y pre IH]; intros vs s Hpre Hx.
  - cbn in Hpre. injection Hpre as <- <-. cbn [app evaluate_list]. unfold bind at 1. rewrite Hx. reflexivity.
  - cbn [evaluate_list app] in *. unfold bind at 1 in Hpre. unfold bind at 1.
    destruct (ev y context s) as [[w | e' |] s'] eqn:Ey; try discriminate.
    unfold bind at 1 in Hpre.
    destruct (evaluate_list ev pre context s') as [[ws | e' |] s''] eqn:Ep; try discriminate.
    cbn in Hpre. injection Hpre as <- <-.
    unfold bind at 1. rewrite (IH ws s' Ep Hx). reflexivity.
Qed.

(** X13: In a program of top-level forms, [(exit x)] ends the run with the
    value of [x]; the forms after it are never evaluated and the state is
    the one after evaluating [x]. *)
Theorem exit_stops_program (k a : nat) (pre post : list value) (arg : value) (lb cb line column : Z)
    (s s1 s2 : state) (vs : list value) (v : value) :
  evaluate_list (evaluate (S (S k))) pre [a] s = (Ok vs, s1) ->
  scope_lookup (heap s1) [a] (VStr "exit") = Some (VBuiltin "exit") ->
  evaluate (S k) arg [a] s1 = (Ok v, s2) ->
  interpret_body (S (S k)) (VList (pre ++ call_node [ident "exit" lb cb; arg] line column :: post)%list) a s
  = (Ok v, s2).
Proof.
  intros Hpre Hexit Harg.
  assert (E : evaluate_all (evaluate (S (S k)))
                (VList (pre ++ call_node [ident "exit" lb cb; arg] line column :: post)%list) [a] s
              = (Raise (InterpreterReturn v), s2)).
  { unfold evaluate_all, py_iter. cbv beta iota. rewrite bind_lift_ok.
    apply (evaluate_list_app_raise _ _ _ _ _ _ _ _ _ _ Hpre).
    rewrite (evaluate_builtin _ _ fn_exit _ _ _ _ _ _ _ Hexit eq_refl).
    unfold fn_exit. arity_ok. cbv beta iota. rewrite bind_lift_ok.
    rewrite (bind_ok _ _ _ _ _ Harg). reflexivity. }
  unfold interpret_body, bind at 1, catch_return. rewrite E. reflexivity.
Qed.

Lemma plain_param_value (p : value) :
  plain_param p -> exists x, getitem p (VStr "value") = Ok (VStr x) /\ py_eq (VStr x) (VStr "&") = false.
Proof.
  intros (x & l & c & -> & Hx). exists x. split; [reflexivity |].
  cbn [py_eq]. apply String.eqb_neq. exact Hx.
Qed.

Lemma bind_params_extra_args (ev : Ev) (params : value) (args extra : list value) (cc : list nat)
    (ps : list value) (i : nat) (ns : dict) (last : option nat) (s : state) :
  Forall plain_param ps -> i + length ps <= length args ->
  bind_params ev params (args ++ extra)%list cc ps i ns last s = bind_params ev params args cc ps i ns last s.
Proof.
  intros Hps. revert i ns last s. induction Hps as [| p ps' Hp _ IH]; intros i ns last s Hl; [reflexivity |].
  cbn [bind_params]. destruct (plain_param_value p Hp) as (x & Hv & Hq).
  rewrite Hv, !bind_lift_ok, Hq. cbn [length] in Hl.
  rewrite nth_error_app1 by lia.
  apply bind_ext. intros arg s1. apply bind_ext. intros v s2. apply bind_ext. intros key s3.
  apply bind_ext. intros ns' s4. apply IH. lia.
Qed.

(** X14: Calling a user function whose parameters are plain identifiers with
    more arguments than parameters gives the same result and state as
    calling it with just the first arguments: the extra argument nodes are
    never evaluated. *)
Theorem closure_ignores_extra_args (ev : Ev) (ps : list value) (pl pc : Z) (body node : value)
    (context : list nat) (args extra : list value) (cn : value) (cc : list nat) (s : state) :
  Forall plain_param ps -> length ps <= length args ->
  call_closure ev (vec_node ps pl pc) body node context (args ++ extra)%list cn cc s
  = call_closure ev (vec_node ps pl pc) body node context args cn cc s.
Proof.
  intros Hps Hl. unfold call_closure.
  change (lift (rbind (getitem (vec_node ps pl pc) (VStr "value")) py_iter)) with (@lift (list value) (Ok ps)).
  rewrite !bind_lift_ok. apply bind_cong; [| intros; reflexivity].
  apply bind_params_extra_args; [exact Hps | lia].
Qed.

Lemma skipn_nth_error_cons {A} (l : list A) (i : nat) (a : A) :
  nth_error l i = Some a -> skipn i l = a :: skipn (S i) l.
Proof.
  revert i. induction l as [| b l IH]; intros [| i] H; cbn in *; try discriminate.
  - injection H as ->. reflexivity.
  - apply IH. exact H.
Qed.

Lemma bind_params_too_few (ev : Ev) (params : value) (args : list value) (cc : list nat)
    (ps : list value) (i : nat) (ns : dict) (last : option nat) (s s1 : state) (vs : list value) :
  Forall plain_param ps -> i <= length args -> length args < i + length ps ->
  evaluate_list ev (skipn i args) cc s = (Ok vs, s1) ->
  bind_params ev params args cc ps i ns last s = (Raise (HostError IndexError), s1).
Proof.
  intros Hps. revert i ns last s vs. induction Hps as [| p ps' Hp _ IH]; intros i ns last s vs Hi Hl He.
  - cbn in Hl. lia.
  - cbn [bind_params]. destruct (plain_param_value p Hp) as (x & Hv & Hq).
    rewrite Hv, !bind_lift_ok, Hq.
    destruct (Nat.eq_dec i (length args)) as [-> | Hne].
    + rewrite skipn_all in He. cbn in He. injection He as _ <-.
      rewrite (proj2 (nth_error_None args (length args))) by lia. reflexivity.
    + destruct (nth_error args i) as [a |] eqn:Ea; [| apply nth_error_None in Ea; lia].
      rewrite bind_lift_ok.
      rewrite (skipn_nth_error_cons _ _ _ Ea) in He.
      cbn [evaluate_list] in He. unfold bind at 1 in He.
      destruct (ev a cc s) as [[w | e |] s'] eqn:Ew; try discriminate.
      unfold bind at 1 in He.
      destruct (evaluate_list ev (skipn (S i) args) cc s') as [[ws | e |] s''] eqn:Ews; try discriminate.
      cbn in He. injection He as _ <-.
      rewrite (bind_ok _ _ _ _ _ Ew), bind_lift_ok.
      unfold setitem_dict. cbn [hashable]. rewrite bind_lift_ok.
      apply (IH _ _ _ _ ws); [lia | cbn in Hl; lia | exact Ews].
Qed.

(** X15: Calling a user function whose parameters are plain identifiers with
    fewer arguments than parameters evaluates every given argument and then
    raises Python's IndexError; the body is never run. *)
Theorem closure_too_few_args (ev : Ev) (ps : list value) (pl pc : Z) (body node : value)
    (context : list nat) (args : list value) (cn : value) (cc : list nat) (s s1 : state) (vs : list value) :
  Forall plain_param ps -> length args < length ps ->
  evaluate_list ev args cc s = (Ok vs, s1) ->
  call_closure ev (vec_node ps pl pc) body node context args cn cc s = (Raise (HostError IndexError), s1).
Proof.
  intros Hps Hl He. unfold call_closure.
  change (lift (rbind (getitem (vec_node ps pl pc) (VStr "value")) py_iter)) with (@lift (list value) (Ok ps)).
  rewrite bind_lift_ok. unfold bind at 1.
  rewrite (bind_params_too_few _ _ _ _ _ 0 _ _ _ s1 vs Hps); [reflexivity | lia | cbn; lia | exact He].
Qed.

Lemma getitem_nat (P : list value) (i : nat) :
  getitem (VList P) (VInt (Z.of_nat i)) = match nth_error P i with Some v => Ok v | None => host IndexError end.
Proof.
  unfold getitem. cbn [num_of]. unfold py_index.
  replace (Z.of_nat i <? 0)%Z with false by (symmetry; apply Z.ltb_ge; lia).
  destruct (Nat.ltb_spec i (length P)) as [H | H].
  - replace ((0 <=? Z.of_nat i) && (Z.of_nat i <? Z.of_nat (length P)))%Z with true
      by (symmetry; apply andb_true_intro; split; [apply Z.leb_le | apply Z.ltb_lt]; lia).
    rewrite Nat2Z.id. reflexivity.
  - replace ((0 <=? Z.of_nat i) && (Z.of_nat i <? Z.of_nat (length P)))%Z with false
      by (symmetry; apply andb_false_intro2, Z.ltb_ge; lia).
    rewrite (proj2 (nth_error_None P i)) by exact H. reflexivity.
Qed.

Lemma range2_stop (fuel i n : nat) : n <= i -> range2 fuel i n = [].
Proof.
  intros H. destruct fuel; [reflexivity |]. cbn [range2]. replace (Nat.ltb i n) with false by (symmetry; apply Nat.ltb_ge; exact H).
  reflexivity.
Qed.

Lemma map_entries_pairs (ev : Ev) (P : list value) (context : list nat) (fuel i : nat) (d : dict)
    (s s1 : state) (ws : list value) :
  evaluate_list ev (skipn i P) context s = (Ok ws, s1) ->
  length P - i <= fuel ->
  Forall (fun kv => hashable (fst kv) = true) (pairs ws) ->
  map_entries ev (VList P) context (range2 fuel i (length P)) d s
  = ((if Nat.even (length P - i) then Ok (dict_update d (pairs ws)) else host IndexError), s1).
Proof.
  revert i d s ws. induction fuel as [| f IH]; intros i d s ws He Hf Hh.
  - rewrite range2_stop by lia. rewrite skipn_all2 in He by lia.
    cbn in He. injection He as <- <-. replace (length P - i) with 0 by lia. reflexivity.
  - destruct (Nat.ltb_spec i (length P)) as [Hi | Hi].
    2: { rewrite range2_stop by lia. rewrite skipn_all2 in He by lia.
         cbn in He. injection He as <- <-. replace (length P - i) with 0 by lia. reflexivity. }
    cbn [range2]. replace (Nat.ltb i (length P)) with true by (symmetry; apply Nat.ltb_lt; exact Hi).
    destruct (nth_error P i) as [k |] eqn:Ek; [| apply nth_error_None in Ek; lia].
    rewrite (skipn_nth_error_cons _ _ _ Ek) in He.
    cbn [evaluate_list] in He. unfold bind at 1 in He.
    destruct (ev k context s) as [[w | e |] s'] eqn:Ew; try discriminate.
    unfold bind at 1 in He.
    destruct (evaluate_list ev (skipn (S i) P) context s') as [[ws' | e |] s''] eqn:Ews; try discriminate.
    cbn in He. injection He as <- <-.
    cbn [map_entries]. rewrite getitem_nat, Ek, bind_lift_ok, (bind_ok _ _ _ _ _ Ew).
    replace (Z.of_nat i + 1)%Z with (Z.of_nat (S i)) by lia. rewrite getitem_nat.
    destruct (nth_error P (S i)) as [v |] eqn:Ev.
    + rewrite bind_lift_ok.
      rewrite (skipn_nth_error_cons _ _ _ Ev) in Ews.
      cbn [evaluate_list] in Ews. unfold bind at 1 in Ews.
      destruct (ev v context s') as [[u | e |] t'] eqn:Eu; try discriminate.
      unfold bind at 1 in Ews.
      destruct (evaluate_list ev (skipn (S (S i)) P) context t') as [[us | e |] t''] eqn:Eus; try discriminate.
      cbn in Ews. injection Ews as <- <-.
      rewrite (bind_ok _ _ _ _ _ Eu). cbn [pairs] in Hh. inversion Hh as [| kv l' Hk Hrest]; subst.
      unfold setitem_dict. cbn [fst] in Hk. rewrite Hk, bind_lift_ok.
      replace (S (S i)) with (i + 2) in Eus by lia.
      rewrite (IH (i + 2) _ _ _ Eus ltac:(lia) Hrest).
      replace (length P - i) with (S (S (length P - (i + 2)))) by (assert (Hv : S i < length P) by (apply nth_error_Some; congruence); lia).
      reflexivity.
    + apply nth_error_None in Ev.
      replace (skipn (S i) P) with (@nil value) in Ews by (symmetry; apply skipn_all2; exact Ev).
      cbn in Ews. injection Ews as <- <-.
      replace (length P - i) with 1 by lia. reflexivity.
Qed.

(** X16: A map literal with hashable keys evaluates all its element nodes in
    order. With an even number of elements it gives the dict of the
    consecutive key/value pairs, a later value of a repeated key replacing
    an earlier one. With an odd number it raises IndexError. *)
Theorem map_literal_pairs (ev : Ev) (P : list value) (l c : Z) (context : list nat) (s s1 : state)
    (ws : list value) :
  evaluate_list ev P context s = (Ok ws, s1) ->
  Forall (fun kv => hashable (fst kv) = true) (pairs ws) ->
  handle_map ev (mk_node "map" (VList P) l c) context s
  = ((if Nat.even (length P) then Ok (VDict (dict_update [] (pairs ws))) else host IndexError), s1).
Proof.
  intros He Hh. unfold handle_map.
  change (getitem (mk_node "map" (VList P) l c) (VStr "value")) with (@Ok value (VList P)).
  rewrite bind_lift_ok. cbn [py_len]. rewrite bind_lift_ok.
  unfold bind at 1. rewrite (map_entries_pairs _ _ _ _ 0 _ _ s1 ws); [| exact He | lia | exact Hh].
  rewrite Nat.sub_0_r. destruct (Nat.even (length P)); reflexivity.
Qed.

Lemma interleave_length (ks vs : list value) :
  length ks = length vs -> length (interleave ks vs) = 2 * length vs.
Proof.
  revert vs. induction ks as [| k ks IH]; intros [| v vs] H; cbn in *; try lia.
  rewrite IH by lia. lia.
Qed.

Lemma interleave_nth (ks vs : list value) (j : nat) :
  length ks = length vs ->
  nth_error (interleave ks vs) (2 * j) = nth_error ks j /\
  nth_error (interleave ks vs) (S (2 * j)) = nth_error vs j.
Proof.
  revert vs j. induction ks as [| k ks IH]; intros [| v vs] j H; cbn in H; try lia.
  - destruct j; split; reflexivity.
  - destruct j as [| j]; [split; reflexivity |].
    replace (2 * S j) with (S (S (2 * j))) by lia. cbn [interleave nth_error].
    apply IH. lia.
Qed.

Lemma Forall2_nth_error_l {A B} (R : A -> B -> Prop) (xs : list A) (ys : list B) (j : nat) (x : A) :
  Forall2 R xs ys -> nth_error xs j = Some x -> exists y, nth_error ys j = Some y /\ R x y.
Proof.
  intros H. revert j. induction H as [| a b xs' ys' Hab _ IH]; intros [| j] E; cbn in E; try discriminate.
  - injection E as <-. exists b. split; [reflexivity | exact Hab].
  - apply IH. exact E.
Qed.

Lemma let_scope_interleave (ev : Ev) (kns vals keys : list value) (context : list nat)
    (fuel j : nat) (d : dict) (s s1 : state) (vs : list value) :
  Forall2 key_node kns keys -> length kns = length vals ->
  length vals - j <= fuel ->
  evaluate_list ev (skipn j vals) context s = (Ok vs, s1) ->
  let_scope ev (VList (interleave kns vals)) context (range2 fuel (2 * j) (2 * length vals)) d s
  = (Ok (dict_update d (combine (skipn j keys) vs)), s1).
Proof.
  intros Hk Hlen. revert j d s vs. induction fuel as [| f IH]; intros j d s vs Hf He.
  - rewrite range2_stop by lia. rewrite skipn_all2 in He by lia.
    cbn in He. injection He as <- <-. rewrite combine_nil. reflexivity.
  - destruct (Nat.ltb_spec j (length vals)) as [Hj | Hj].
    2: { rewrite range2_stop by lia. rewrite skipn_all2 in He by lia.
         cbn in He. injection He as <- <-. rewrite combine_nil. reflexivity. }
    cbn [range2]. replace (Nat.ltb (2 * j) (2 * length vals)) with true by (symmetry; apply Nat.ltb_lt; lia).
    destruct (interleave_nth kns vals j Hlen) as [N1 N2].
    destruct (nth_error kns j) as [kn |] eqn:Ek; [| apply nth_error_None in Ek; lia].
    destruct (nth_error vals j) as [v |] eqn:Ev; [| apply nth_error_None in Ev; lia].
    destruct (Forall2_nth_error_l _ _ _ _ _ Hk Ek) as (k & Ekey & Hkv & Hhash).
    rewrite (skipn_nth_error_cons _ _ _ Ev) in He.
    cbn [evaluate_list] in He. unfold bind at 1 in He.
    destruct (ev v context s) as [[w | e |] s'] eqn:Ew; try discriminate.
    unfold bind at 1 in He.
    destruct (evaluate_list ev (skipn (S j) vals) context s') as [[ws | e |] s''] eqn:Ews; try discriminate.
    cbn in He. injection He as <- <-.
    cbn [let_scope]. rewrite getitem_nat, N1, bind_lift_ok, Hkv, bind_lift_ok.
    replace (Z.of_nat (2 * j) + 1)%Z with (Z.of_nat (S (2 * j))) by lia.
    rewrite getitem_nat, N2, bind_lift_ok, (bind_ok _ _ _ _ _ Ew).
    unfold setitem_dict. rewrite Hhash, bind_lift_ok.
    replace (2 * j + 2) with (2 * S j) by lia.
    rewrite (IH (S j) _ _ ws ltac:(lia) Ews).
    rewrite (skipn_nth_error_cons _ _ _ Ekey). reflexivity.
Qed.

(** X17: [(let [k1 v1 ... kn vn] body)] evaluates the value nodes in order
    in the outer context, then evaluates the body in a new scope holding the
    keys bound to those values, whose parent is the outer context. *)
Theorem let_new_frame (ev : Ev) (kns vals keys : list value) (pl pc : Z) (body node : value)
    (context : list nat) (s s1 : state) (vs : list value) :
  Forall2 key_node kns keys -> length kns = length vals ->
  evaluate_list ev vals context s = (Ok vs, s1) ->
  fn_let ev [vec_node (interleave kns vals) pl pc; body] node context s
  = ev body (length (heap s1) :: context)
      (mkState (heap s1 ++ [dict_update [] (combine keys vs)])%list (next_id s1)).
Proof.
  intros Hk Hl He. unfold fn_let. arity_ok. cbn [unpack2]. rewrite bind_ret_l.
  change (getitem (vec_node (interleave kns vals) pl pc) (VStr "value"))
    with (@Ok value (VList (interleave kns vals))).
  rewrite bind_lift_ok. cbn [py_len]. rewrite bind_lift_ok.
  rewrite interleave_length by exact Hl.
  unfold bind at 1.
  rewrite (let_scope_interleave _ _ _ _ _ _ 0 _ _ s1 vs Hk Hl); [| lia | exact He].
  reflexivity.
Qed.

(** X18: [(defn name [params] body)] with identifier parameters evaluates to
    nil, stores in the current scope under [name] a closure of [(fn [params]
    body)] capturing the current context, and allocates one id. *)
Theorem defn_binds_closure (m a : nat) (parent : list nat) (x : string) (nl nc lb cb line column pl pc : Z)
    (ps : list value) (body : value) (s : state) :
  Forall is_ident_node ps ->
  scope_lookup (heap s) (a :: parent) (VStr "defn") = Some (VBuiltin "defn") ->
  scope_lookup (heap s) (a :: parent) (VStr "fn") = Some (VBuiltin "fn") ->
  evaluate (S (S (S m))) (call_node [ident "defn" lb cb; ident x nl nc; vec_node ps pl pc; body] line column)
    (a :: parent) s
  = (Ok VNone,
     mkState (replace_nth (heap s) a
                (dict_set (nth a (heap s) []) (VStr x)
                   (VClosure (next_id s) (vec_node ps pl pc) body
                      (call_node [ident "fn" line column; vec_node ps pl pc; body] line column) (a :: parent))))
             (S (next_id s))).
Proof.
  intros Hps Hdefn Hfn.
  rewrite (evaluate_builtin _ _ fn_defn _ _ _ _ _ _ _ Hdefn eq_refl).
  unfold fn_defn. arity_ok. cbn [unpack_head]. rewrite bind_ret_l.
  rewrite wrap_call_node, bind_lift_ok, wrap_call_node, bind_lift_ok.
  change (mk_node "call" (VList [mk_node "identifier" (VStr "fn") line column; vec_node ps pl pc; body]) line column)
    with (call_node [ident "fn" line column; vec_node ps pl pc; body] line column).
  assert (E : evaluate (S (S m)) (call_node [ident "fn" line column; vec_node ps pl pc; body] line column)
                (a :: parent) s
              = (Ok (VClosure (next_id s) (vec_node ps pl pc) body
                      (call_node [ident "fn" line column; vec_node ps pl pc; body] line column) (a :: parent)),
                 mkState (heap s) (S (next_id s)))).
  { rewrite (evaluate_builtin _ _ (fun _ => fn_fn) _ _ _ _ _ _ _ Hfn eq_refl).
    unfold fn_fn. arity_ok. cbn [unpack2]. rewrite bind_ret_l.
    change (lift (rbind (getitem (vec_node ps pl pc) (VStr "value")) py_iter)) with (@lift (list value) (Ok ps)).
    rewrite bind_lift_ok. rewrite (bind_ok _ _ _ _ _ (check_params_idents ps s Hps)).
    reflexivity. }
  rewrite (bind_ok _ _ _ _ _ E). reflexivity.
Qed.

(** X19: A [fn] form with more than one body form raises Python's ValueError
    from the unpacking [params, body = ...], before any parameter is checked
    and without changing the state. *)
Theorem fn_extra_body_forms (params body extra : value) (rest : list value) (node : value)
    (context : list nat) (s : state) :
  fn_fn (params :: body :: extra :: rest) node context s = (Raise (HostError ValueError), s).
Proof.
  unfold fn_fn. arity_ok. reflexivity.
Qed.

Lemma evaluate_list_cons (ev : Ev) (a : value) (rest : list value) (context : list nat)
    (s s1 s2 : state) (v : value) (vs : list value) :
  ev a context s = (Ok v, s1) -> evaluate_list ev rest context s1 = (Ok vs, s2) ->
  evaluate_list ev (a :: rest) context s = (Ok (v :: vs), s2).
Proof. intros Ha Hr. cbn [evaluate_list]. unfold bind. rewrite Ha, Hr. reflexivity. Qed.

Ltac eval_list_ok :=
  repeat first [ eapply evaluate_list_cons; [eassumption |] | reflexivity ].

Lemma take_step_one (l : list value) (i : Z) (k : nat) :
  (0 <= i)%Z -> take_step l i 1 k = firstn k (skipn (Z.to_nat i) l).
Proof.
  revert i. induction k as [| k IH]; intros i Hi; [reflexivity |].
  cbn [take_step]. destruct (nth_error l (Z.to_nat i)) as [v |] eqn:E.
  - rewrite (skipn_nth_error_cons _ _ _ E). cbn [firstn]. f_equal.
    rewrite IH by lia. f_equal. f_equal. lia.
  - apply nth_error_None in E. rewrite IH by lia.
    rewrite !skipn_all2 by lia. rewrite !firstn_nil. reflexivity.
Qed.

Lemma list_slice_nonneg (l : list value) (a b : Z) :
  (0 <= a)%Z -> (0 <= b)%Z ->
  list_slice l (VInt a) (VInt b) VNone = Ok (firstn (Z.to_nat b - Z.to_nat a) (skipn (Z.to_nat a) l)).
Proof.
  intros Ha Hb. unfold list_slice. cbn [slice_bound rbind int_like num_of].
  cbv zeta. cbn [Z.eqb Z.ltb Z.compare].
  unfold adjust. replace (a <? 0)%Z with false by (symmetry; apply Z.ltb_ge; lia).
  replace (b <? 0)%Z with false by (symmetry; apply Z.ltb_ge; lia).
  cbn [Z.ltb Z.compare]. f_equal.
  set (n := Z.of_nat (length l)).
  destruct (Z.leb_spec n a) as [Hna | Hna]; destruct (Z.leb_spec n b) as [Hnb | Hnb].
  - replace (n <? n)%Z with false by (symmetry; apply Z.ltb_ge; lia).
    rewrite !skipn_all2 by lia. rewrite firstn_nil. reflexivity.
  - replace (n <? b)%Z with false by (symmetry; apply Z.ltb_ge; lia).
    rewrite !skipn_all2 by lia. rewrite firstn_nil. reflexivity.
  - replace (a <? n)%Z with true by (symmetry; apply Z.ltb_lt; lia).
    rewrite take_step_one by lia.
    replace ((n - a - 1) / 1 + 1)%Z with (n - a)%Z by (rewrite Z.div_1_r; lia).
    rewrite !firstn_all2; [reflexivity | rewrite length_skipn; lia | rewrite length_skipn; lia].
  - destruct (Z.ltb_spec a b) as [Hab | Hab].
    + rewrite take_step_one by lia. f_equal. rewrite Z.div_1_r. lia.
    + replace (Z.to_nat b - Z.to_nat a) with 0 by lia. reflexivity.
Qed.

(** X20: [(slice xs a b)] on a list with non-negative int bounds gives the
    elements from index [a] up to, not including, index [b]: an empty list
    when [b <= a], and no error for bounds past the end. *)
Theorem slice_nonneg_bounds (ev : Ev) (xn an bn node : value) (context : list nat)
    (s s1 s2 s3 : state) (l : list value) (a b : Z) :
  ev xn context s = (Ok (VList l), s1) -> ev an context s1 = (Ok (VInt a), s2) ->
  ev bn context s2 = (Ok (VInt b), s3) -> (0 <= a)%Z -> (0 <= b)%Z ->
  fn_slice ev [xn; an; bn] node context s
  = (Ok (VList (firstn (Z.to_nat b - Z.to_nat a) (skipn (Z.to_nat a) l))), s3).
Proof.
  intros Hx Ha Hb Ha0 Hb0. unfold fn_slice. arity_ok.
  erewrite bind_ok; [| eval_list_ok]. cbv beta. cbn [unpack_head]. rewrite bind_ret_l.
  unfold py_slice. rewrite list_slice_nonneg by assumption. reflexivity.
Qed.

(** X21: [(slice xs a b step)] on a list with a step that evaluates to [0]
    or [false] raises Python's ValueError after evaluating all four
    arguments. *)
Theorem slice_zero_step (ev : Ev) (xn an bn stn node : value) (context : list nat)
    (s s1 s2 s3 s4 : state) (l : list value) (a b st : value) :
  ev xn context s = (Ok (VList l), s1) -> ev an context s1 = (Ok a, s2) ->
  ev bn context s2 = (Ok b, s3) -> ev stn context s3 = (Ok st, s4) ->
  st = VInt 0 \/ st = VBool false ->
  fn_slice ev [xn; an; bn; stn] node context s = (Raise (HostError ValueError), s4).
Proof.
  intros Hx Ha Hb Hs Hz. unfold fn_slice. arity_ok.
  erewrite bind_ok; [| eval_list_ok]. cbv beta. cbn [unpack_head]. rewrite bind_ret_l.
  destruct Hz as [-> | ->]; reflexivity.
Qed.

(** lemmas *)

Lemma mism_app (old a b : string) : mism old a = true -> mism old (a ++ b) = true.
Proof.
  revert a. induction old as [| o old IH]; intros [| c a] H; cbn in *; try discriminate.
  apply orb_true_iff in H as [H | H]; [rewrite H; reflexivity | rewrite IH by exact H; apply orb_true_r].
Qed.

Lemma mism_prefix (old a : string) : mism old a = true -> String.prefix old a = false.
Proof.
  revert a. induction old as [| o old IH]; intros [| c a] H; cbn in *; try discriminate.
  destruct (Ascii.ascii_dec o c) as [-> | NE].
  - rewrite Ascii.eqb_refl in H. cbn in H. apply IH, H.
  - reflexivity.
Qed.

Lemma all_mism_app (old a b : string) :
  all_mism old a = true -> all_mism old b = true -> all_mism old (a ++ b) = true.
Proof.
  induction a as [| c a IH]; intros Ha Hb; [exact Hb |].
  cbn [all_mism append] in Ha |- *. apply andb_prop in Ha as [H1 H2].
  pose proof (mism_app old (String c a) b H1) as M. cbn [append] in M.
  rewrite M. cbn. apply IH; assumption.
Qed.

Lemma replace_all_mism (f : nat) (old new a : string) :
  all_mism old a = true -> replace_aux f old new a = a.
Proof.
  revert a. induction f as [| f IH]; intros a H; [reflexivity |].
  destruct a as [| c a]; [reflexivity |].
  rewrite replace_aux_step. cbn in H. apply andb_prop in H as [H1 H2].
  rewrite (mism_prefix _ _ H1). rewrite IH by exact H2. reflexivity.
Qed.

Lemma all_mism_spaces (k : nat) : all_mism QUOTE (spaces k) = true.
Proof. induction k as [| k IH]; [reflexivity | exact IH]. Qed.

Lemma all_mism_plain (s : string) : str_forall plain_char s = true -> all_mism QUOTE s = true.
Proof.
  induction s as [| c s IH]; [reflexivity |]. cbn [str_forall all_mism]. intros H.
  apply andb_prop in H as [H1 H2]. rewrite (IH H2).
  destruct (plain_char_facts c H1) as (_ & _ & _ & _ & E & _ & _).
  assert (Ascii.eqb (chr 95) c = false) as E' by (rewrite Ascii.eqb_sym; exact E).
  change (mism QUOTE (String c s)) with (negb (Ascii.eqb (chr 95) c) || mism "_BEDLAM_QUOTE" s).
  rewrite E'. reflexivity.
Qed.

Lemma spaced_all_mism (s : string) (T : list string) : spaced s T -> all_mism QUOTE s = true.
Proof.
  induction 1 as [t Ht | t k r T Ht _ IH].
  - unfold tok_ok in Ht. apply andb_prop in Ht as [_ Ht]. exact Ht.
  - unfold tok_ok in Ht. apply andb_prop in Ht as [_ Ht].
    apply all_mism_app; [exact Ht |]. apply all_mism_app; [apply all_mism_spaces | exact IH].
Qed.

Lemma tok_ok_head (t : string) :
  tok_ok t = true -> exists c t', t = String c t' /\ is_space c = false.
Proof.
  unfold tok_ok, no_space. intros Ht. apply andb_prop in Ht as [Ht _].
  apply andb_prop in Ht as [Hne Hns].
  destruct t as [| c t]; [discriminate Hne |].
  cbn in Hns. apply andb_prop in Hns as [Hc _]. apply negb_true_iff in Hc.
  exists c, t. split; [reflexivity | exact Hc].
Qed.

Lemma spaced_head (s : string) (T : list string) :
  spaced s T -> exists c s', s = String c s' /\ is_space c = false.
Proof.
  intros H. destruct H as [t Ht | t k r T Ht _];
  destruct (tok_ok_head t Ht) as (c & t' & -> & Hc); exists c; eexists; split; [reflexivity | exact Hc | reflexivity | exact Hc].
Qed.

Lemma spaced_last (s : string) (T : list string) :
  spaced s T -> exists a c, s = a ++ str1 c /\ is_space c = false.
Proof.
  induction 1 as [t Ht | t k r T Ht _ (a & c & -> & Hc)].
  - pose proof (tok_ok_head t Ht) as (c0 & t0 & -> & _).
    unfold tok_ok, no_space in Ht. apply andb_prop in Ht as [Ht _]. apply andb_prop in Ht as [_ Hns].
    rename t0 into t.
    revert c0 Hns. induction t as [| c1 t IH]; intros c0 Hns.
    + exists "", c0. split; [reflexivity |]. cbn in Hns. apply andb_prop in Hns as [H _].
      apply negb_true_iff in H. exact H.
    + cbn in Hns. apply andb_prop in Hns as [_ Hns].
      destruct (IH c1 Hns) as (a & c & E & Hc). exists (String c0 a), c. split; [| exact Hc].
      rewrite E. reflexivity.
  - exists (t ++ spaces (S k) ++ a), c. split; [| exact Hc]. rewrite !str_app_assoc. reflexivity.
Qed.

Lemma split_ws_spaces (k : nat) (r : string) :
  starts_space r = false -> split_ws (spaces (S k) ++ r) = "" :: split_ws r.
Proof.
  intros H. induction k as [| k IH].
  - cbn [spaces append split_ws]. change (is_space space) with true. cbv iota. rewrite H. reflexivity.
  - cbn [spaces append]. cbn [spaces append] in IH. change (split_ws (String space (String space (spaces k ++ r))))
      with (let parts := split_ws (String space (spaces k ++ r)) in
            if is_space space then (if starts_space (String space (spaces k ++ r)) then parts else "" :: parts)
            else match parts with p :: ps => String space p :: ps | [] => [str1 space] end).
    cbv zeta. change (is_space space) with true. cbv iota. cbn [starts_space]. change (is_space space) with true.
    cbv iota. exact IH.
Qed.

Lemma split_ws_spaced (s : string) (T : list string) : spaced s T -> split_ws s = T.
Proof.
  induction 1 as [t Ht | t k r T Ht Hr IH].
  - apply split_ws_no_space. unfold tok_ok in Ht. apply andb_prop in Ht as [Ht _].
    apply andb_prop in Ht as [_ Ht]. exact Ht.
  - unfold tok_ok in Ht. apply andb_prop in Ht as [Ht _]. apply andb_prop in Ht as [_ Ht].
    rewrite (split_ws_no_space_app _ _ Ht).
    destruct (spaced_head _ _ Hr) as (c & r' & E & Hc).
    rewrite split_ws_spaces by (rewrite E; exact Hc). cbn [hd tl]. rewrite str_app_nil_r, IH. reflexivity.
Qed.

Lemma lstrip_spaces (k : nat) (s : string) :
  starts_space s = false -> lstrip (spaces k ++ s) = lstrip s.
Proof.
  intros H. induction k as [| k IH]; [reflexivity |].
  cbn [spaces append lstrip]. change (is_space space) with true. exact IH.
Qed.

Lemma rstrip_spaces (k : nat) : rstrip (spaces k) = "".
Proof.
  induction k as [| k IH]; [reflexivity |]. cbn [spaces rstrip]. rewrite IH. reflexivity.
Qed.

Lemma py_strip_spaced (a b : nat) (s : string) (T : list string) :
  spaced s T -> py_strip (spaces a ++ s ++ spaces b) = s.
Proof.
  intros H. destruct (spaced_head _ _ H) as (c & s' & E & Hc).
  unfold py_strip. rewrite lstrip_spaces by (rewrite E; exact Hc).
  assert (lstrip (s ++ spaces b) = s ++ spaces b) as ->
    by (rewrite E; apply lstrip_nonspace; exact Hc).
  rewrite rstrip_app, rstrip_spaces. cbn [String.eqb].
  destruct (spaced_last _ _ H) as (a' & c' & E' & Hc').
  rewrite E', rstrip_app. unfold str1. cbn [rstrip]. rewrite Hc'. reflexivity.
Qed.

Lemma tok_ok_plain (w : string) : w <> "" -> str_forall plain_char w = true -> tok_ok w = true.
Proof.
  intros NE H. unfold tok_ok. rewrite plain_no_space, all_mism_plain by exact H.
  destruct (String.eqb_spec w "") as [E | _]; [contradiction | reflexivity].
Qed.

Lemma pieces_ok_word (w : string) (ps : list piece) :
  pieces_ok (PWord w :: ps) = true ->
  w <> "" /\ str_forall plain_char w = true /\ pieces_ok ps = true
  /\ match ps with PWord _ :: _ => False | _ => True end.
Proof.
  cbn [pieces_ok]. intros H.
  apply andb_prop in H as [H H4]. apply andb_prop in H as [H H3]. apply andb_prop in H as [H1 H2].
  repeat split; try assumption.
  - destruct (String.eqb_spec w "") as [E | NE]; [discriminate | exact NE].
  - destruct ps as [| [] ]; [exact I | discriminate | exact I | exact I].
Qed.

Lemma pieces_ok_tail (p : piece) (ps : list piece) : pieces_ok (p :: ps) = true -> pieces_ok ps = true.
Proof.
  destruct p as [w | |]; [intros H; apply (pieces_ok_word w ps H) | exact id | exact id].
Qed.

Lemma pre_tokenize_app (a b : string) : pre_tokenize 0 (a ++ b) = pre_tokenize 0 a ++ pre_tokenize 0 b.
Proof. unfold pre_tokenize. cbn [Nat.odd Nat.even]. rewrite !sub_chars_app. reflexivity. Qed.

Lemma pre_tokenize_word (w : string) : str_forall plain_char w = true -> pre_tokenize 0 w = w.
Proof.
  intros H. unfold pre_tokenize. cbn [Nat.odd Nat.even].
  assert (forall q : Ascii.ascii -> bool, (forall c, plain_char c = true -> q c = true) ->
          str_forall q w = true) as F by (intros q Q; exact (str_forall_impl _ _ _ Q H)).
  do 3 rewrite (sub_chars_none _ w) by (apply F; plain_tac). reflexivity.
Qed.

Lemma pre_tokenize_script (ps : list piece) : pieces_ok ps = true -> pre_tokenize 0 (script_of ps) = images ps.
Proof.
  induction ps as [| p ps IH]; intros H; [reflexivity |].
  cbn [script_of images]. rewrite pre_tokenize_app, (IH (pieces_ok_tail _ _ H)).
  destruct p as [w | |].
  - destruct (pieces_ok_word w ps H) as (_ & Hw & _). cbn [piece_text piece_image]. rewrite (pre_tokenize_word w Hw). reflexivity.
  - reflexivity.
  - reflexivity.
Qed.

Lemma script_safe (ps : list piece) :
  pieces_ok ps = true ->
  str_forall (fun c => negb (Ascii.eqb c backslash) && negb (Ascii.eqb c dquote)) (script_of ps) = true.
Proof.
  induction ps as [| p ps IH]; intros H; [reflexivity |].
  cbn [script_of]. rewrite str_forall_app, (IH (pieces_ok_tail _ _ H)), andb_true_r.
  destruct p as [w | |]; [| reflexivity | reflexivity].
  destruct (pieces_ok_word w ps H) as (_ & Hw & _).
  apply (str_forall_impl plain_char); [plain_tac | exact Hw].
Qed.

Lemma images_shape (ps : list piece) :
  ps <> [] -> pieces_ok ps = true ->
  exists a b s, images ps = spaces a ++ s ++ spaces b /\ spaced s (map piece_token ps)
    /\ match ps with PWord _ :: _ => a = 0 | _ => a = 1 end.
Proof.
  induction ps as [| p ps IH]; intros NE H; [contradiction |].
  destruct ps as [| p' ps].
  - destruct p as [w | |].
    + destruct (pieces_ok_word w [] H) as (Hne & Hw & _).
      exists 0, 0, w. split; [cbn; rewrite !str_app_nil_r; reflexivity |].
      split; [apply spaced_one, tok_ok_plain; assumption | reflexivity].
    + exists 1, 1, SPACE. split; [reflexivity |]. split; [apply spaced_one; reflexivity | reflexivity].
    + exists 1, 1, NEWLINE. split; [reflexivity |]. split; [apply spaced_one; reflexivity | reflexivity].
  - destruct (IH ltac:(discriminate) (pieces_ok_tail _ _ H)) as (a & b & s & E & Hs & Ha).
    cbn [images] in E |- *. rewrite E.
    destruct p as [w | |].
    + destruct (pieces_ok_word w _ H) as (Hne & Hw & _ & Hnext).
      destruct p' as [w' | |]; [contradiction | |]; subst a;
      (exists 0, b, (w ++ spaces 1 ++ s); split;
       [cbn [spaces]; rewrite !str_app_assoc; reflexivity
       | split; [apply spaced_cons; [apply tok_ok_plain; assumption | exact Hs] | reflexivity]]).
    + exists 1, b, (SPACE ++ spaces (S a) ++ s). split.
      * replace (" " ++ SPACE ++ " ") with (spaces 1 ++ SPACE ++ spaces 1) by reflexivity.
        rewrite !str_app_assoc. reflexivity.
      * split; [apply spaced_cons; [reflexivity | exact Hs] | reflexivity].
    + exists 1, b, (NEWLINE ++ spaces (S a) ++ s). split.
      * replace (" " ++ NEWLINE ++ " ") with (spaces 1 ++ NEWLINE ++ spaces 1) by reflexivity.
        rewrite !str_app_assoc. reflexivity.
      * split; [apply spaced_cons; [reflexivity | exact Hs] | reflexivity].
Qed.

Lemma tokenize_pieces (ps : list piece) :
  ps <> [] -> pieces_ok ps = true -> tokenize (script_of ps) = map piece_token ps.
Proof.
  intros NE H. unfold tokenize.
  pose proof (script_safe ps H) as S.
  unfold py_replace at 2.
  rewrite (replace_aux_absent _ backslash), split_on_absent.
  2: { apply (str_forall_impl _ _ _ (fun c Hc => proj2 (proj1 (andb_true_iff _ _) Hc)) S). }
  2: { apply (str_forall_impl _ _ _ (fun c Hc => proj1 (proj1 (andb_true_iff _ _) Hc)) S). }
  simpl pre_all. simpl String.concat.
  rewrite (pre_tokenize_script ps H).
  destruct (images_shape ps NE H) as (a & b & s & E & Hs & _).
  rewrite E, (py_strip_spaced a b s _ Hs). unfold py_replace.
  rewrite replace_all_mism by exact (spaced_all_mism _ _ Hs).
  exact (split_ws_spaced _ _ Hs).
Qed.

Lemma count_newlines_plain (w : string) : str_forall plain_char w = true -> count_newlines w = 0%Z.
Proof.
  induction w as [| c w IH]; intros H; [reflexivity |].
  cbn [str_forall] in H. apply andb_prop in H as [H1 H2].
  destruct (plain_char_facts c H1) as (_ & _ & _ & _ & _ & _ & E).
  cbn [count_newlines]. rewrite E, (IH H2). reflexivity.
Qed.

Lemma build_ast_pieces (ps : list piece) (f : nat) (ast : list value) (line column : Z) :
  pieces_ok ps = true -> length ps < f ->
  exists loc, build_ast f (VList (map VStr (map piece_token ps))) ast (line, column)
              = Ok (AstList (ast ++ piece_nodes ps line column)%list, loc).
Proof.
  revert f ast line column.
  induction ps as [| p ps IH]; intros f ast line column H Hf;
    (destruct f as [| f]; [cbn in Hf; lia |]).
  - exists (line, column). rewrite app_nil_r. reflexivity.
  - cbn [length] in Hf. pose proof (pieces_ok_tail _ _ H) as Ht.
    destruct p as [w | |]; cbn [map piece_token piece_nodes].
    + destruct (pieces_ok_word w ps H) as (Hne & Hw & _).
      rewrite build_ast_atom by (apply plain_ordinary; assumption).
      unfold advance. rewrite (count_newlines_plain w Hw). cbn [fst snd Z.eqb]. rewrite Z.add_0_r.
      destruct (IH f (ast ++ [atom_node w (line, column)])%list line (column + Z.of_nat (String.length w))%Z Ht ltac:(lia))
        as [loc E].
      exists loc. rewrite E, <- app_assoc. reflexivity.
    + rewrite build_ast_space. cbn [fst snd].
      destruct (IH f ast line (column + 1)%Z Ht ltac:(lia)) as [loc E]. exists loc. exact E.
    + rewrite build_ast_newline. cbn [fst snd].
      destruct (IH f ast (line + 1)%Z 0%Z Ht ltac:(lia)) as [loc E]. exists loc. exact E.
Qed.

(** X25: A non-empty script made of words and of spaces and newlines, with
    no two words adjacent, parses to one node per word, in order, each
    located at its line (from 1) and its 0-based column, counting the
    characters before it on its line. A word here is non-empty and has no
    whitespace, bracket, comma, double quote, backslash or underscore. *)
Theorem parse_word_positions (ps : list piece) :
  ps <> [] -> pieces_ok ps = true -> parse (script_of ps) = Ok (AstList (piece_nodes ps 1 0)).
Proof.
  intros NE H. unfold parse. rewrite (tokenize_pieces ps NE H).
  destruct (build_ast_pieces ps (parse_fuel (map piece_token ps)) [] 1%Z 0%Z H) as [loc E].
  { unfold parse_fuel. rewrite length_map. lia. }
  rewrite E. reflexivity.
Qed.

Lemma parse_word_positions_witness :
  [PWord "a"; PSpace; PWord "bc"; PNewline; PWord "d"] <> []
  /\ pieces_ok [PWord "a"; PSpace; PWord "bc"; PNewline; PWord "d"] = true
  /\ script_of [PWord "a"; PSpace; PWord "bc"; PNewline; PWord "d"] = "a bc
d"
  /\ parse "a bc
d" = Ok (AstList [ident "a" 1 0; ident "bc" 1 2; ident "d" 2 0]).
Proof.
  assert (P : parse (script_of [PWord "a"; PSpace; PWord "bc"; PNewline; PWord "d"])
              = Ok (AstList (piece_nodes [PWord "a"; PSpace; PWord "bc"; PNewline; PWord "d"] 1 0)))
    by (apply parse_word_positions; [discriminate | vm_compute; reflexivity]).
  split; [discriminate |]. split; [vm_compute; reflexivity |]. split; [vm_compute; reflexivity |].
  vm_compute in P. vm_compute. exact P.
Defined.

Lemma bind_raise {A B} (m : M A) (k : A -> M B) (s s' : state) (e : exn) :
  m s = (Raise e, s') -> bind m k s = (Raise e, s').
Proof. intros H. unfold bind. rewrite H. reflexivity. Qed.

Lemma assert_arity_exact_fail (xs args : list value) (line column : Z) (e : nat) (s : state) :
  length args <> e ->
  assert_arity (call_node xs line column) args (Some e) None None s
  = (Raise (InterpeterError ArityError (VInt line) (VInt column)), s).
Proof.
  intros H. unfold assert_arity. apply Nat.eqb_neq in H. rewrite H. reflexivity.
Qed.

(** X22: The two-argument builtins [-], [/], [>], [<], [=] and [nth] called
    with a number of argument nodes other than two raise the arity error at
    the call node before evaluating any argument, so the state is unchanged. *)
Theorem binary_arity_checked_first (ev : Ev) (args xs : list value) (line column : Z)
    (context : list nat) (s : state) (f : Ev -> list value -> value -> list nat -> M value) :
  In f [fn_minus; fn_divide; fn_gt; fn_lt; fn_eq; fn_nth] -> length args <> 2 ->
  f ev args (call_node xs line column) context s
  = (Raise (InterpeterError ArityError (VInt line) (VInt column)), s).
Proof.
  intros Hf Hl.
  destruct Hf as [<- | [<- | [<- | [<- | [<- | [<- | []]]]]]];
    apply bind_raise, assert_arity_exact_fail, Hl.
Qed.

Lemma binary_arity_checked_first_witness :
  fn_minus (evaluate 3) [int_node 1 1 3; int_node 2 1 5; call_node [ident "/" 1 8; int_node 1 1 10; int_node 0 1 12] 1 7]
    (call_node [] 1 0) [0] builtins_state
  = (Raise (InterpeterError ArityError (VInt 1) (VInt 0)), builtins_state).
Proof.
  apply binary_arity_checked_first; [left; reflexivity | discriminate].
Defined.

Lemma nth_list_index_witness :
  fn_nth (evaluate 3) [vec_node [int_node 10 1 6; int_node 20 1 9; int_node 30 1 12] 1 5; int_node (-1) 1 16]
    (call_node [] 1 0) [0] builtins_state = (Ok (VInt 30), builtins_state).
Proof.
  rewrite (nth_list_index (evaluate 3) _ _ _ [0] builtins_state builtins_state builtins_state
             [VInt 10; VInt 20; VInt 30] (-1)); [reflexivity | vm_compute; reflexivity | vm_compute; reflexivity].
Defined.

Lemma nth_non_vector_witness :
  fn_nth (evaluate 3) [int_node 5 1 5; int_node 0 1 7] (call_node [] 2 3) [0] builtins_state
  = (Raise (InterpeterError NthNonVector (VInt 2) (VInt 3)), builtins_state).
Proof.
  apply (nth_non_vector (evaluate 3) _ _ [] 2 3 [0] builtins_state builtins_state builtins_state (VInt 5) (VInt 0));
    [vm_compute; reflexivity | vm_compute; reflexivity | intros l; discriminate].
Defined.

Lemma divide_by_zero_divisor_witness :
  fn_divide (evaluate 3) [int_node 1 1 3; mk_node "float" (VFloat (-0)%float) 1 5] (call_node [] 1 0) [0] builtins_state
  = (Raise (InterpeterError DivisionByZero (VInt 1) (VInt 0)), builtins_state).
Proof.
  apply (divide_by_zero_divisor (evaluate 3) _ _ [] 1 0 [0] builtins_state builtins_state builtins_state
           (VInt 1) (VFloat (-0)%float));
    [vm_compute; reflexivity | vm_compute; reflexivity | right; right; right; reflexivity].
Defined.

Lemma call_head_not_function_witness :
  evaluate 2 (call_node [int_node 1 1 1; int_node 2 1 3] 1 0) [0] builtins_state
  = (Raise (InterpeterError (NotCallable (VInt 1)) (VInt 1) (VInt 0)), builtins_state).
Proof.
  apply (call_head_not_function 1 (int_node 1 1 1) [int_node 2 1 3] 1 0 "int" (VInt 1) 1 1 [0]
           builtins_state builtins_state (VInt 1)); reflexivity.
Defined.

Lemma join_separator_not_string_witness :
  fn_join (evaluate 3) [int_node 1 1 6; div_zero_node] (call_node [] 1 0) [0] builtins_state
  = (Raise (HostError AttributeError), builtins_state).
Proof.
  apply (join_separator_not_string (evaluate 3) _ _ _ [0] builtins_state builtins_state (VInt 1));
    [vm_compute; reflexivity | intros t; discriminate].
Defined.

Lemma plus_returns_number_witness :
  fst (fn_plus (evaluate 3) [int_node 1 1 3; mk_node "float" (VFloat 2.5%float) 1 5] (call_node [] 1 0) [0]
         builtins_state) = Ok (VFloat 3.5%float)
  /\ is_number (VFloat 3.5%float).
Proof.
  assert (H : fst (fn_plus (evaluate 3) [int_node 1 1 3; mk_node "float" (VFloat 2.5%float) 1 5]
                     (call_node [] 1 0) [0] builtins_state) = Ok (VFloat 3.5%float))
    by (vm_compute; reflexivity).
  split; [exact H | exact (plus_returns_number _ _ _ _ _ _ H)].
Defined.

Lemma fn_invalid_parameter_witness :
  fn_fn [vec_node [ident "x" 1 5; int_node 3 1 7] 1 4; ident "x" 1 10] (call_node [] 1 0) [0] builtins_state
  = (Raise (InterpeterError (InvalidParameter (VInt 3)) (VInt 1) (VInt 7)), builtins_state).
Proof.
  apply (fn_invalid_parameter _ _ [0] builtins_state [ident "x" 1 5] [] "int" (VInt 3) 1 7 1 4).
  - constructor; [exists "x", 1%Z, 5%Z; reflexivity | constructor].
  - discriminate.
Defined.

Lemma map_preserves_length_witness :
  fst (fn_map (evaluate 3) [ident "not" 1 5; vec_node [ident "true" 1 10; int_node 0 1 15; int_node 2 1 17] 1 9]
         (call_node [] 1 0) [0] builtins_state) = Ok (VList [VBool false; VBool true; VBool false])
  /\ exists ys, VList [VBool false; VBool true; VBool false] = VList ys /\ length ys = 3.
Proof.
  assert (H : fst (fn_map (evaluate 3) [ident "not" 1 5; vec_node [ident "true" 1 10; int_node 0 1 15; int_node 2 1 17] 1 9]
                     (call_node [] 1 0) [0] builtins_state) = Ok (VList [VBool false; VBool true; VBool false]))
    by (vm_compute; reflexivity).
  split; [exact H |].
  refine (map_preserves_length (evaluate 3) _ _ _ [0] builtins_state builtins_state
           (VList [VBool true; VInt 0; VInt 2]) [VBool true; VInt 0; VInt 2] _ _ _ H);
    [vm_compute; reflexivity | reflexivity].
Defined.

Lemma filter_sublist_witness :
  fst (fn_filter (evaluate 3) [ident "not" 1 8; vec_node [ident "true" 1 13; int_node 0 1 18; int_node 2 1 20] 1 12]
         (call_node [] 1 0) [0] builtins_state) = Ok (VList [VInt 0])
  /\ exists ys, VList [VInt 0] = VList ys /\ sublist ys [VBool true; VInt 0; VInt 2].
Proof.
  assert (H : fst (fn_filter (evaluate 3) [ident "not" 1 8; vec_node [ident "true" 1 13; int_node 0 1 18; int_node 2 1 20] 1 12]
                     (call_node [] 1 0) [0] builtins_state) = Ok (VList [VInt 0]))
    by (vm_compute; reflexivity).
  split; [exact H |].
  refine (filter_sublist (evaluate 3) _ _ _ [0] builtins_state builtins_state
           (VList [VBool true; VInt 0; VInt 2]) [VBool true; VInt 0; VInt 2] _ _ _ H);
    [vm_compute; reflexivity | reflexivity].
Defined.

(** [(partial + 1)] bound to [g] in scope [0], then [(g 2)] *)
Lemma partial_prepends_args_witness :
  evaluate 5 (call_node [ident "partial" 1 1; ident "+" 1 9; int_node 1 1 11] 1 0) [0] builtins_state
  = (Ok add_one, mkState [_builtins] 1)
  /\ evaluate 5 (call_node [ident "g" 2 1; int_node 2 2 3] 2 0) [0]
       (mkState [dict_set _builtins (VStr "g") add_one] 1)
     = (Ok (VInt 3), mkState [dict_set _builtins (VStr "g") add_one] 1).
Proof.
  destruct (partial_prepends_args 3 1 1 1 0 (ident "+" 1 9) [int_node 1 1 11] [0] builtins_state)
    as [H1 H2]; [discriminate | reflexivity |].
  split; [exact H1 |].
  rewrite (H2 "g" 2%Z 1%Z 2%Z 0%Z [int_node 2 2 3] [0] (mkState [dict_set _builtins (VStr "g") add_one] 1));
    vm_compute; reflexivity.
Defined.

(** [1 (exit 7) (/ 1 0)]: the division after [exit] is never evaluated *)
Lemma exit_stops_program_witness :
  interpret_body 4 (VList [int_node 1 1 0; call_node [ident "exit" 1 3; int_node 7 1 8] 1 2; div_zero_node]) 0
    builtins_state = (Ok (VInt 7), builtins_state).
Proof.
  apply (exit_stops_program 2 0 [int_node 1 1 0] [div_zero_node] (int_node 7 1 8) 1 3 1 2
           builtins_state builtins_state builtins_state [VInt 1] (VInt 7)); vm_compute; reflexivity.
Defined.

(** [((fn [x] x) 1 (/ 1 0))]: the extra argument is never evaluated *)
Lemma closure_ignores_extra_args_witness :
  call_closure (evaluate 3) (vec_node [ident "x" 1 5] 1 4) (ident "x" 1 8) (int_node 0 1 0) [0]
    [int_node 1 1 11; div_zero_node] (int_node 0 1 0) [0] builtins_state
  = call_closure (evaluate 3) (vec_node [ident "x" 1 5] 1 4) (ident "x" 1 8) (int_node 0 1 0) [0]
      [int_node 1 1 11] (int_node 0 1 0) [0] builtins_state
  /\ fst (call_closure (evaluate 3) (vec_node [ident "x" 1 5] 1 4) (ident "x" 1 8) (int_node 0 1 0) [0]
            [int_node 1 1 11] (int_node 0 1 0) [0] builtins_state) = Ok (VInt 1).
Proof.
  split; [| vm_compute; reflexivity].
  apply (closure_ignores_extra_args (evaluate 3) [ident "x" 1 5] 1 4 (ident "x" 1 8) (int_node 0 1 0) [0]
           [int_node 1 1 11] [div_zero_node]).
  - constructor; [exists "x", 1%Z, 5%Z; split; [reflexivity | discriminate] | constructor].
  - cbn. lia.
Defined.

Lemma closure_too_few_args_witness :
  call_closure (evaluate 3) (vec_node [ident "x" 1 5; ident "y" 1 7] 1 4) (ident "x" 1 10) (int_node 0 1 0) [0]
    [int_node 1 1 13] (int_node 0 1 0) [0] builtins_state
  = (Raise (HostError IndexError), builtins_state).
Proof.
  apply (closure_too_few_args (evaluate 3) _ _ _ _ _ [0] _ _ [0] builtins_state builtins_state [VInt 1]).
  - constructor; [exists "x", 1%Z, 5%Z; split; [reflexivity | discriminate] |].
    constructor; [exists "y", 1%Z, 7%Z; split; [reflexivity | discriminate] | constructor].
  - cbn. lia.
  - vm_compute. reflexivity.
Defined.

(** [{"a" 1 "a" 2}]: the later value of a repeated key wins *)
Lemma map_literal_pairs_witness :
  handle_map (evaluate 3)
    (mk_node "map" (VList [string_node "a" 1 1; int_node 1 1 5; string_node "a" 1 7; int_node 2 1 11]) 1 0)
    [0] builtins_state
  = (Ok (VDict (dict_update [] [(VStr "a", VInt 1); (VStr "a", VInt 2)])), builtins_state)
  /\ dict_update [] [(VStr "a", VInt 1); (VStr "a", VInt 2)] = [(VStr "a", VInt 2)].
Proof.
  split; [| vm_compute; reflexivity].
  rewrite (map_literal_pairs (evaluate 3) _ 1 0 [0] builtins_state builtins_state
             [VStr "a"; VInt 1; VStr "a"; VInt 2]); [reflexivity | vm_compute; reflexivity |].
  repeat constructor.
Defined.

(** [(let [x 1 y 2] x)] *)
Lemma let_new_frame_witness :
  fn_let (evaluate 3) [vec_node [ident "x" 1 6; int_node 1 1 8; ident "y" 1 10; int_node 2 1 12] 1 5; ident "x" 1 15]
    (call_node [] 1 0) [0] builtins_state
  = evaluate 3 (ident "x" 1 15) [1; 0]
      (mkState [_builtins; dict_update [] [(VStr "x", VInt 1); (VStr "y", VInt 2)]] 0)
  /\ fst (evaluate 3 (ident "x" 1 15) [1; 0]
            (mkState [_builtins; dict_update [] [(VStr "x", VInt 1); (VStr "y", VInt 2)]] 0)) = Ok (VInt 1).
Proof.
  split; [| vm_compute; reflexivity].
  apply (let_new_frame (evaluate 3) [ident "x" 1 6; ident "y" 1 10] [int_node 1 1 8; int_node 2 1 12]
           [VStr "x"; VStr "y"] 1 5 (ident "x" 1 15) (call_node [] 1 0) [0] builtins_state builtins_state
           [VInt 1; VInt 2]).
  - repeat constructor.
  - reflexivity.
  - vm_compute. reflexivity.
Defined.

(** [(defn f [y] y)] at top level *)
Lemma defn_binds_closure_witness :
  evaluate 4 (call_node [ident "defn" 1 1; ident "f" 1 6; vec_node [ident "y" 1 9] 1 8; ident "y" 1 12] 1 0)
    [0] builtins_state
  = (Ok VNone,
     mkState [dict_set _builtins (VStr "f")
                (VClosure 0 (vec_node [ident "y" 1 9] 1 8) (ident "y" 1 12)
                   (call_node [ident "fn" 1 0; vec_node [ident "y" 1 9] 1 8; ident "y" 1 12] 1 0) [0])] 1).
Proof.
  apply (defn_binds_closure 1 0 [] "f" 1 6 1 1 1 0 1 8 [ident "y" 1 9] (ident "y" 1 12) builtins_state).
  - constructor; [exists "y", 1%Z, 9%Z; reflexivity | constructor].
  - reflexivity.
  - reflexivity.
Defined.

Lemma slice_nonneg_bounds_witness :
  fn_slice (evaluate 3)
    [vec_node [int_node 10 1 8; int_node 20 1 11; int_node 30 1 14; int_node 40 1 17] 1 7; int_node 1 1 21; int_node 3 1 23]
    (call_node [] 1 0) [0] builtins_state
  = (Ok (VList [VInt 20; VInt 30]), builtins_state).
Proof.
  rewrite (slice_nonneg_bounds (evaluate 3) _ _ _ _ [0] builtins_state builtins_state builtins_state builtins_state
             [VInt 10; VInt 20; VInt 30; VInt 40] 1 3);
    [reflexivity | vm_compute; reflexivity | vm_compute; reflexivity | vm_compute; reflexivity | lia | lia].
Defined.

Lemma slice_zero_step_witness :
  fn_slice (evaluate 3)
    [vec_node [int_node 10 1 8; int_node 20 1 11] 1 7; int_node 0 1 15; int_node 2 1 17; int_node 0 1 19]
    (call_node [] 1 0) [0] builtins_state
  = (Raise (HostError ValueError), builtins_state).
Proof.
  apply (slice_zero_step (evaluate 3) _ _ _ _ _ [0] builtins_state builtins_state builtins_state builtins_state
           builtins_state [VInt 10; VInt 20] (VInt 0) (VInt 2) (VInt 0));
    [vm_compute; reflexivity .. | left; reflexivity].
Defined.
